(** * Meridian CCM agent: evidence and trust pipeline

    A shallow embedding of the agent's Merkle log ([crypto/merkle.py]),
    key pairs ([crypto/keys.py]), signer ([signer.py]), checks
    ([checks.py]), claim builder ([claims.py]), envelope builder
    ([envelope.py]), cycle driver ([main.py]) and of the tables it writes
    ([db.py]), with the properties the specification states about them and
    further properties of the same code: the shape of the tree and of its
    proofs, round trips of keys and signatures, the counts the checks
    report and the claims built from them, and what the cycles keep true
    of the log and of the evidence table.

    Conventions.  A Python [str] is a [string], a Python [bytes] is a
    [list byte], a Python [int] is a [Z], a Python [float] is a binary64
    [float].  Library functions that live outside the repository (SHA-256,
    [json.dumps], Ed25519, [datetime.fromisoformat], [round], [sum]) are
    Section variables; everything the repository itself computes is
    written out. *)

From Stdlib Require Import ZArith Lia Bool List Floats.
From Stdlib.Strings Require Import String Ascii Byte.
From Stdlib Require Import DecimalString.
From stdpp Require Import base option list strings.
From Equations Require Import Equations.
Import ListNotations.

Set Warnings "-inexact-float,-register-all".

Local Open Scope Z_scope.
Local Open Scope list_scope.

(* ===================================================================== *)
(** * Python strings and bytes                                            *)
(* ===================================================================== *)

Module Py.

(** [chr(n).encode("utf-8")] for a code point below 256: one byte below
    128, two bytes from 128 on. *)
Definition utf8_char (c : ascii) : list byte :=
  let n := N_of_ascii c in
  if (n <? 128)%N then [byte_of_ascii c]
  else
    match Byte.of_N (192 + n / 64)%N, Byte.of_N (128 + n mod 64)%N with
    | Some hi, Some lo => [hi; lo]
    | _, _ => []
    end.

(** [s.encode()] / [s.encode("utf-8")]. *)
Fixpoint utf8_encode (s : string) : list byte :=
  match s with
  | EmptyString => []
  | String c rest => utf8_char c ++ utf8_encode rest
  end.

(** [s.isascii()]. *)
Fixpoint isascii (s : string) : bool :=
  match s with
  | EmptyString => true
  | String c rest => (N_of_ascii c <? 128)%N && isascii rest
  end.

(** [s.encode("ascii")]; [None] stands for [UnicodeEncodeError]. *)
Definition encode_ascii (s : string) : option (list byte) :=
  if isascii s then Some (list_byte_of_string s) else None.

(** [b.decode("ascii")] on bytes below 128 (the only bytes it is applied
    to, see [Base64.urlsafe_b64encode_isascii]). *)
Definition decode_ascii (b : list byte) : string := string_of_list_byte b.

(** [s.rstrip("=")]. *)
Fixpoint rstrip_eq (s : string) : string :=
  match s with
  | EmptyString => EmptyString
  | String c rest =>
      match rstrip_eq rest with
      | EmptyString => if Ascii.eqb c "="%char then EmptyString else String c EmptyString
      | rest' => String c rest'
      end
  end.

(** Python values as they come out of JSON and YAML and go into
    [json.dumps]; a dict keeps its insertion order. *)
Inductive pyval :=
| PNone
| PBool (b : bool)
| PInt (z : Z)
| PFloat (f : float)
| PStr (s : string)
| PList (l : list pyval)
| PDict (d : list (string * pyval)).

Definition dict := list (string * pyval).

(** [d[key]] as an option. *)
Fixpoint lookup_key (d : dict) (key : string) : option pyval :=
  match d with
  | [] => None
  | (k, v) :: rest => if String.eqb k key then Some v else lookup_key rest key
  end.

(** [d.get(key, default)]. *)
Definition get (d : dict) (key : string) (dflt : pyval) : pyval :=
  match lookup_key d key with
  | Some v => v
  | None => dflt
  end.

(** The exceptions the modelled code can raise. *)
Inductive exn :=
| TypeError
| ZeroDivisionError
| KeyError
| RuntimeError (msg : string)
| OperationalError
| HTTPError
| OverflowError
| ValueError
| FileNotFoundError.

Inductive result (A : Type) :=
| Ok (a : A)
| Raise (e : exn).
Arguments Ok {A} a.
Arguments Raise {A} e.

Definition bind {A B} (r : result A) (k : A -> result B) : result B :=
  match r with
  | Ok a => k a
  | Raise e => Raise e
  end.

(** [int(z)] as a float: the nearest binary64 value. *)
Definition float_of_Z (z : Z) : float := SF2Prim (binary_normalize prec emax z 0 false).

(** A value used as a number: [bool] is a subclass of [int]. *)
Definition as_number (v : pyval) : option (Z + float) :=
  match v with
  | PBool b => Some (inl (Z.b2z b))
  | PInt z => Some (inl z)
  | PFloat f => Some (inr f)
  | _ => None
  end.

(** An operand of float arithmetic: an [int] is converted to the nearest
    binary64 value, and [OverflowError] ("int too large to convert to
    float") is raised when that is beyond the largest one. *)
Definition to_float (n : Z + float) : result float :=
  match n with
  | inl z =>
      match binary_normalize prec emax z 0 false with
      | S754_infinity _ => Raise OverflowError
      | _ => Ok (float_of_Z z)
      end
  | inr f => Ok f
  end.

(** [v > 0]. *)
Definition gt_zero (v : pyval) : result bool :=
  match as_number v with
  | Some (inl z) => Ok (0 <? z)
  | Some (inr f) => Ok (0 <? f)%float
  | None => Raise TypeError
  end.

(** [a / b] for two [int]s.  Python does not convert the operands to
    floats first: it returns the binary64 value nearest to the exact
    quotient (ties to even, the sign kept on a zero), whatever the size of
    the operands, and raises [OverflowError] ("integer division result too
    large for a float") when that value is beyond the largest binary64
    number, [ZeroDivisionError] when [b] is 0.  The quotient is taken with
    enough bits for the rounding and its remainder gives the position of
    the exact value between two neighbours. *)
Definition int_truediv (a b : Z) : result float :=
  if b =? 0 then Raise ZeroDivisionError
  else
    let '(q, e, loc) := SFdiv_core_binary prec emax (Z.abs a) 0 (Z.abs b) 0 in
    match binary_round_aux prec emax (xorb (a <? 0) (b <? 0)) q e loc with
    | S754_infinity _ => Raise OverflowError
    | quotient => Ok (SF2Prim quotient)
    end.

(** [a / b] (true division).  With a float operand the other one is
    converted, the left one first, and the division is that of binary64,
    which gives an infinity or a NaN without raising. *)
Definition truediv (a b : pyval) : result float :=
  match as_number a, as_number b with
  | Some (inl x), Some (inl y) => int_truediv x y
  | Some x, Some y =>
      bind (to_float x) (fun fx =>
      bind (to_float y) (fun fy =>
        if (fy =? 0)%float then Raise ZeroDivisionError else Ok (fx / fy)%float))
  | _, _ => Raise TypeError
  end.

(** [a - b]. *)
Definition sub (a b : pyval) : result pyval :=
  match as_number a, as_number b with
  | Some (inl x), Some (inl y) => Ok (PInt (x - y))
  | Some x, Some y =>
      bind (to_float x) (fun fx =>
      bind (to_float y) (fun fy => Ok (PFloat (fx - fy)%float)))
  | _, _ => Raise TypeError
  end.

(** [str(z)] for an integer. *)
Definition str_of_Z (z : Z) : string := NilZero.string_of_int (Z.to_int z).

(** The text of a formatted string: the concatenation of its parts. *)
Definition cat (parts : list string) : string := String.concat "" parts.

(** [c.isspace()] for a code point below 256. *)
Definition isspace (c : ascii) : bool :=
  let n := N_of_ascii c in
  ((9 <=? n) && (n <=? 13) || (28 <=? n) && (n <=? 32) || (n =? 133) || (n =? 160))%N.

Fixpoint lstrip (s : string) : string :=
  match s with
  | EmptyString => EmptyString
  | String c rest => if isspace c then lstrip rest else s
  end.

Fixpoint rstrip (s : string) : string :=
  match s with
  | EmptyString => EmptyString
  | String c rest =>
      match rstrip rest with
      | EmptyString => if isspace c then EmptyString else String c EmptyString
      | rest' => String c rest'
      end
  end.

(** [s.strip()]. *)
Definition strip (s : string) : string := rstrip (lstrip s).

(** [c.lower()] for a code point below 256. *)
Definition lower_char (c : ascii) : ascii :=
  let n := N_of_ascii c in
  if ((65 <=? n) && (n <=? 90) || (192 <=? n) && (n <=? 222) && negb (n =? 215))%N
  then ascii_of_N (n + 32) else c.

Fixpoint map_chars (f : ascii -> ascii) (s : string) : string :=
  match s with
  | EmptyString => EmptyString
  | String c rest => String (f c) (map_chars f rest)
  end.

(** [s.lower()]. *)
Definition lower (s : string) : string := map_chars lower_char s.

(** [s.replace(old, new)] for single characters. *)
Definition replace_char (old new : ascii) (s : string) : string :=
  map_chars (fun c => if Ascii.eqb c old then new else c) s.

(** ["=" * k]. *)
Fixpoint pads (k : nat) : string :=
  match k with
  | O => EmptyString
  | S k' => String "="%char (pads k')
  end.

(** [int(x)] for a float: truncation toward zero; the left side is the
    text of the [OverflowError] or [ValueError] an infinity or a NaN
    raises. *)
Definition int_of_float (x : float) : string + Z :=
  match Prim2SF x with
  | S754_zero _ => inr 0
  | S754_finite s m e =>
      let magnitude := if 0 <=? e then Z.pos m * 2 ^ e else Z.pos m / 2 ^ (- e) in
      inr (if s then - magnitude else magnitude)
  | S754_infinity _ => inl "cannot convert float infinity to integer"%string
  | S754_nan => inl "cannot convert float NaN to integer"%string
  end.

(** All the code points below 256. *)
Definition all_chars : list ascii := map ascii_of_nat (seq 0 256).

(** Whether one of two byte strings is a prefix of the other. *)
Fixpoint starts_with (a b : list byte) : bool :=
  match a, b with
  | [], _ => true
  | _, [] => true
  | x :: a', y :: b' => Byte.eqb x y && starts_with a' b'
  end.

(** Two different characters whose encodings start alike, or a character
    with an empty encoding: what a prefix code excludes. *)
Definition utf8_char_clash (c d : ascii) : bool :=
  match utf8_char c with
  | [] => true
  | _ => starts_with (utf8_char c) (utf8_char d) && negb (Ascii.eqb c d)
  end.

Lemma length_append (s1 s2 : string) :
  String.length (s1 ++ s2) = (String.length s1 + String.length s2)%nat.
Proof. induction s1 as [| c s1 IH]; simpl; [reflexivity | rewrite IH; reflexivity]. Qed.



(** A string is what [rstrip("=")] leaves of it, followed by [=]s. *)
Lemma rstrip_eq_split (s : string) :
  exists k, s = (rstrip_eq s ++ pads k)%string.
Proof.
  induction s as [| c s [k IH]].
  - exists 0%nat. reflexivity.
  - cbn [rstrip_eq]. destruct (rstrip_eq s) as [| c' rest] eqn:E.
    + destruct (Ascii.eqb c "="%char) eqn:Hc.
      * apply Ascii.eqb_eq in Hc. subst c. exists (S k).
        cbn [String.append pads]. rewrite IH at 1. reflexivity.
      * exists k. cbn [String.append]. rewrite IH at 1. reflexivity.
    + exists k. cbn [String.append]. rewrite IH at 1. reflexivity.
Qed.

Lemma isascii_append_pads (s : string) (k : nat) :
  isascii (s ++ pads k) = isascii s.
Proof.
  induction s as [| c s IH].
  - induction k as [| k IHk]; [reflexivity | exact IHk].
  - change (isascii (String c s ++ pads k))
      with ((N_of_ascii c <? 128)%N && isascii (s ++ pads k)).
    rewrite IH. reflexivity.
Qed.

Lemma list_byte_of_string_append_pads (s : string) (k : nat) :
  list_byte_of_string (s ++ pads k) = list_byte_of_string s ++ repeat "="%byte k.
Proof.
  induction s as [| c s IH].
  - induction k as [| k IHk]; [reflexivity |].
    change (list_byte_of_string (EmptyString ++ pads (S k)))
      with ("="%byte :: list_byte_of_string (EmptyString ++ pads k)).
    rewrite IHk. reflexivity.
  - change (list_byte_of_string (String c s ++ pads k))
      with (byte_of_ascii c :: list_byte_of_string (s ++ pads k)).
    rewrite IH. reflexivity.
Qed.

Lemma in_all_chars (c : ascii) : In c all_chars.
Proof.
  unfold all_chars. apply in_map_iff. exists (nat_of_ascii c).
  split; [apply ascii_nat_embedding |].
  apply in_seq. pose proof (nat_ascii_bounded c). lia.
Qed.

(** The encodings of the characters form a prefix code (checked on all
    pairs of code points). *)
Lemma utf8_char_no_clash (c d : ascii) : utf8_char_clash c d = false.
Proof.
  assert (H : forallb (fun c => forallb (fun d => negb (utf8_char_clash c d)) all_chars)
                all_chars = true) by (vm_compute; reflexivity).
  rewrite forallb_forall in H. specialize (H c (in_all_chars c)).
  rewrite forallb_forall in H. specialize (H d (in_all_chars d)).
  apply negb_true_iff in H. exact H.
Qed.

Lemma utf8_char_nonempty (c : ascii) : utf8_char c <> [].
Proof.
  pose proof (utf8_char_no_clash c c) as H. unfold utf8_char_clash in H.
  destruct (utf8_char c); [discriminate H | discriminate].
Qed.

Lemma starts_with_app (a b r s : list byte) :
  a ++ r = b ++ s -> starts_with a b = true.
Proof.
  revert b. induction a as [| x a IH]; intros [| y b]; try reflexivity.
  cbn [app starts_with]. intros [= -> H]. rewrite (IH _ H), andb_true_r.
  apply Byte.byte_dec_lb. reflexivity.
Qed.

(** [encode] is injective: a text can be read back from its bytes. *)
Lemma utf8_encode_inj (s t : string) : utf8_encode s = utf8_encode t -> s = t.
Proof.
  revert t. induction s as [| c s IH]; intros [| d t]; cbn [utf8_encode].
  - reflexivity.
  - intros H. pose proof (utf8_char_nonempty d) as Hd.
    destruct (utf8_char d); [contradiction | discriminate H].
  - intros H. pose proof (utf8_char_nonempty c) as Hc.
    destruct (utf8_char c); [contradiction | discriminate H].
  - intros H.
    pose proof (utf8_char_no_clash c d) as Hclash. unfold utf8_char_clash in Hclash.
    pose proof (utf8_char_nonempty c) as Hc.
    rewrite (starts_with_app _ _ _ _ H) in Hclash.
    destruct (utf8_char c) as [| b0 bs] eqn:Ec; [contradiction |].
    cbn [andb] in Hclash.
    apply negb_false_iff, Ascii.eqb_eq in Hclash. subst d.
    rewrite Ec in H. apply app_inv_head in H. f_equal. apply IH, H.
Qed.

(** ** The size of a rounded quotient *)

(** A positive number is below 2 to the number of its binary digits... *)
Lemma digits2_pos_gt (p : positive) : Z.pos p < 2 ^ Z.pos (digits2_pos p).
Proof.
  induction p as [p IH | p IH |]; cbn [digits2_pos]; [| | reflexivity];
    rewrite Pos2Z.inj_succ, Z.pow_succ_r by lia; lia.
Qed.

(** ... and has at most [k] digits when it is below [2 ** k]. *)
Lemma digits2_pos_le (p : positive) :
  forall k, 0 <= k -> Z.pos p < 2 ^ k -> Z.pos (digits2_pos p) <= k.
Proof.
  induction p as [p IH | p IH |]; intros k Hk Hp; cbn [digits2_pos].
  - assert (k <> 0) by (intros ->; cbn in Hp; lia).
    replace k with (Z.succ (k - 1)) in Hp by lia. rewrite Z.pow_succ_r in Hp by lia.
    rewrite Pos2Z.inj_succ. specialize (IH (k - 1)). lia.
  - assert (k <> 0) by (intros ->; cbn in Hp; lia).
    replace k with (Z.succ (k - 1)) in Hp by lia. rewrite Z.pow_succ_r in Hp by lia.
    rewrite Pos2Z.inj_succ. specialize (IH (k - 1)). lia.
  - assert (k <> 0) by (intros ->; cbn in Hp; lia). lia.
Qed.

Lemma Zdigits2_le (m k : Z) : 0 <= m < 2 ^ k -> 0 <= k -> Zdigits2 m <= k.
Proof.
  intros [H0 Hm] Hk. destruct m as [| p | p]; cbn [Zdigits2]; [lia | | lia].
  apply digits2_pos_le; assumption.
Qed.

Lemma Zdigits2_gt (m : Z) : 0 <= m -> m < 2 ^ Zdigits2 m.
Proof.
  intros H0. destruct m as [| p | p]; cbn [Zdigits2]; [reflexivity | | lia].
  apply digits2_pos_gt.
Qed.

Lemma Zdigits2_nonneg (m : Z) : 0 <= Zdigits2 m.
Proof. destruct m; cbn [Zdigits2]; lia. Qed.

Lemma shr_1_bound (mrs : shr_record) :
  0 <= shr_m mrs -> 0 <= shr_m (shr_1 mrs) <= shr_m mrs.
Proof.
  destruct mrs as [m r s]. cbn [shr_m shr_1].
  destruct m as [| [p | p |] | p]; cbn [shr_m]; lia.
Qed.

Lemma iter_shr_1_bound (n : positive) :
  forall mrs, 0 <= shr_m mrs -> 0 <= shr_m (SpecFloat.iter_pos shr_1 n mrs) <= shr_m mrs.
Proof.
  induction n as [n IH | n IH |]; intros mrs H0; cbn [SpecFloat.iter_pos].
  - pose proof (shr_1_bound mrs H0) as H1.
    pose proof (IH (shr_1 mrs) ltac:(lia)) as H2.
    pose proof (IH (SpecFloat.iter_pos shr_1 n (shr_1 mrs)) ltac:(lia)). lia.
  - pose proof (IH mrs H0) as H1.
    pose proof (IH (SpecFloat.iter_pos shr_1 n mrs) ltac:(lia)). lia.
  - apply shr_1_bound, H0.
Qed.

(** Shifting a mantissa to the exponent of its format does not increase
    it, and leaves the larger of the two exponents. *)
Lemma shr_fexp_bound (m e : Z) (l : location) :
  0 <= m ->
  0 <= shr_m (fst (shr_fexp prec emax m e l)) <= m /\
  snd (shr_fexp prec emax m e l) = Z.max e (fexp prec emax (Zdigits2 m + e)).
Proof.
  intros H0. unfold shr_fexp, shr.
  assert (Hm : shr_m (shr_record_of_loc m l) = m) by (destruct l as [| []]; reflexivity).
  destruct (fexp prec emax (Zdigits2 m + e) - e) as [| n | n] eqn:Hn; cbn [fst snd].
  - rewrite Hm. lia.
  - pose proof (iter_shr_1_bound n (shr_record_of_loc m l)) as H. rewrite Hm in H. lia.
  - rewrite Hm. lia.
Qed.

Lemma round_nearest_even_bound (m : Z) (l : location) :
  0 <= m -> 0 <= round_nearest_even m l <= m + 1.
Proof.
  intros H0. destruct l as [| []]; cbn [round_nearest_even]; try lia.
  destruct (Z.even m); lia.
Qed.

(** Rounding a mantissa below [2 ** k] at an exponent [e] gives no
    infinity as long as [k], added to the exponent the first shift leaves,
    stays within the format. *)
Lemma binary_round_aux_finite (sx : bool) (m e k : Z) (l : location) :
  0 <= m < 2 ^ k -> 0 <= k ->
  Z.max e (fexp prec emax (k + e)) <= emax - prec ->
  k + 1 + Z.max e (fexp prec emax (k + e)) <= emax ->
  forall s, binary_round_aux prec emax sx m e l <> S754_infinity s.
Proof.
  intros Hm Hk He Hke s. unfold binary_round_aux.
  pose proof (shr_fexp_bound m e l ltac:(lia)) as [Hm1 He1].
  destruct (shr_fexp prec emax m e l) as [mrs1 e1]. cbn [fst snd] in Hm1, He1.
  pose proof (round_nearest_even_bound (shr_m mrs1) (loc_of_shr_record mrs1) ltac:(lia))
    as Hr.
  set (mr := round_nearest_even (shr_m mrs1) (loc_of_shr_record mrs1)) in *.
  pose proof (shr_fexp_bound mr e1 loc_Exact ltac:(lia)) as [Hm2 He2].
  destruct (shr_fexp prec emax mr e1 loc_Exact) as [mrs2 e2]. cbn [fst snd] in Hm2, He2.
  destruct (shr_m mrs2) as [| p | p]; [discriminate | | discriminate].
  assert (Hd : Zdigits2 m <= k) by (apply Zdigits2_le; lia).
  assert (Hdr : Zdigits2 mr <= k + 1).
  { apply Zdigits2_le; [| lia]. rewrite Z.pow_add_r by lia. change (2 ^ 1) with 2. lia. }
  pose proof (Zdigits2_nonneg m). pose proof (Zdigits2_nonneg mr).
  assert (Hle : e2 <= emax - prec).
  { subst e2 e1. unfold fexp, emin, prec, emax in *. lia. }
  apply Z.leb_le in Hle. rewrite Hle. discriminate.
Qed.

(** The quotient of two counts, the first at most the second, is within
    binary64: dividing them raises nothing. *)
Lemma int_truediv_fraction (a b : Z) :
  0 <= a <= b -> 0 < b -> exists rate, int_truediv a b = Ok rate.
Proof.
  intros Ha Hb. unfold int_truediv.
  replace (b =? 0) with false by (symmetry; apply Z.eqb_neq; lia).
  rewrite !Z.abs_eq by lia.
  assert (Hfinite : forall s,
            (let '(q, e, loc) := SFdiv_core_binary prec emax a 0 b 0 in
             binary_round_aux prec emax (xorb (a <? 0) (b <? 0)) q e loc)
            <> S754_infinity s).
  { intros s. unfold SFdiv_core_binary.
    assert (Hd : Zdigits2 a <= Zdigits2 b).
    { apply Zdigits2_le; [| apply Zdigits2_nonneg].
      pose proof (Zdigits2_gt b ltac:(lia)). lia. }
    pose proof (Zdigits2_nonneg a) as Hda.
    set (e0 := Z.min (fexp prec emax (Zdigits2 a + 0 - (Zdigits2 b + 0))) (0 - 0)).
    assert (He0 : -1074 <= e0 <= -53) by (subst e0; unfold fexp, emin, prec, emax; lia).
    destruct (0 - 0 - e0) as [| sh | sh] eqn:Hs; [lia | | lia].
    rewrite Z.shiftl_mul_pow2 by lia.
    destruct (Z.div_eucl (a * 2 ^ Z.pos sh) b) as [q r] eqn:Hqr.
    assert (Hq : q = a * 2 ^ Z.pos sh / b) by (unfold Z.div; rewrite Hqr; reflexivity).
    assert (Hpow : 0 < 2 ^ Z.pos sh) by (apply Z.pow_pos_nonneg; lia).
    assert (Hq0 : 0 <= q) by (subst q; apply Z.div_pos; nia).
    assert (Hq1 : q <= 2 ^ Z.pos sh).
    { subst q. apply Z.div_le_upper_bound; [lia | nia]. }
    apply (binary_round_aux_finite _ q e0 (Z.pos sh + 1)).
    - rewrite Z.pow_add_r by lia. change (2 ^ 1) with 2. lia.
    - lia.
    - unfold fexp, emin, prec, emax. lia.
    - unfold fexp, emin, prec, emax. lia. }
  destruct (SFdiv_core_binary prec emax a 0 b 0) as [[q e] loc].
  destruct (binary_round_aux prec emax (xorb (a <? 0) (b <? 0)) q e loc) as [| s | |] eqn:Hr;
    eauto.
  exfalso. exact (Hfinite s eq_refl).
Qed.

End Py.

(* ===================================================================== *)
(** * Python's [base64] module (after CPython's [binascii.c])             *)
(* ===================================================================== *)

Module Base64.

Local Open Scope N_scope.

Definition BASE64_PAD : byte := "="%byte.

Definition table_b2a_base64 : list byte :=
  list_byte_of_string
    "ABCDEFGHIJKLMNOPQRSTUVWXYZabcdefghijklmnopqrstuvwxyz0123456789+/".

Definition b2a (n : N) : byte := nth (N.to_nat n) table_b2a_base64 BASE64_PAD.

Fixpoint index_of (c : byte) (table : list byte) (i : N) : option N :=
  match table with
  | [] => None
  | x :: rest => if Byte.eqb c x then Some i else index_of c rest (i + 1)
  end.

(** [table_a2b_base64[c]]; [None] for the entries that are not below 64. *)
Definition a2b (c : byte) : option N := index_of c table_b2a_base64 0.

(** Storing into an [unsigned char]. *)
Definition to_uchar (n : N) : byte :=
  match Byte.of_N (n mod 256) with
  | Some b => b
  | None => x00
  end.

(** [binascii.b2a_base64(data, newline=False)]: three bytes give four
    characters; a rest of one byte gives two characters and [==], a rest of
    two bytes three characters and [=]. *)
Fixpoint b2a_base64 (data : list byte) : list byte :=
  match data with
  | [] => []
  | [a] =>
      let x := Byte.to_N a in
      [b2a (N.shiftr x 2); b2a (N.shiftl (N.land x 3) 4); BASE64_PAD; BASE64_PAD]
  | [a; b] =>
      let x := Byte.to_N a in
      let y := Byte.to_N b in
      [b2a (N.shiftr x 2);
       b2a (N.lor (N.shiftl (N.land x 3) 4) (N.shiftr y 4));
       b2a (N.shiftl (N.land y 15) 2);
       BASE64_PAD]
  | a :: b :: c :: rest =>
      let x := Byte.to_N a in
      let y := Byte.to_N b in
      let z := Byte.to_N c in
      b2a (N.shiftr x 2)
        :: b2a (N.lor (N.shiftl (N.land x 3) 4) (N.shiftr y 4))
        :: b2a (N.lor (N.shiftl (N.land y 15) 2) (N.shiftr z 6))
        :: b2a (N.land z 63)
        :: b2a_base64 rest
  end.

(** The loop of [binascii.a2b_base64(data, strict_mode=False)].  A [=] ends
    the decoding once it completes a quad that already holds two or three
    characters; other [=] and every byte outside the alphabet are skipped;
    input that ends inside a quad is an error ([None]). *)
Fixpoint a2b_loop (ascii_data : list byte) (quad_pos leftchar pads : N)
    (bin_data : list byte) : option (list byte) :=
  match ascii_data with
  | [] => if quad_pos =? 0 then Some bin_data else None
  | this_ch :: rest =>
      if Byte.eqb this_ch BASE64_PAD then
        if 2 <=? quad_pos then
          if 4 <=? quad_pos + (pads + 1) then Some bin_data
          else a2b_loop rest quad_pos leftchar (pads + 1) bin_data
        else a2b_loop rest quad_pos leftchar pads bin_data
      else
        match a2b this_ch with
        | None => a2b_loop rest quad_pos leftchar pads bin_data
        | Some v =>
            if quad_pos =? 0 then a2b_loop rest 1 v 0 bin_data
            else if quad_pos =? 1 then
              a2b_loop rest 2 (N.land v 15) 0
                (bin_data ++ [to_uchar (N.lor (N.shiftl leftchar 2) (N.shiftr v 4))])
            else if quad_pos =? 2 then
              a2b_loop rest 3 (N.land v 3) 0
                (bin_data ++ [to_uchar (N.lor (N.shiftl leftchar 4) (N.shiftr v 2))])
            else
              a2b_loop rest 0 0 0
                (bin_data ++ [to_uchar (N.lor (N.shiftl leftchar 6) v)])
        end
  end.

Definition a2b_base64 (data : list byte) : option (list byte) :=
  a2b_loop data 0 0 0 [].

(** [bytes.maketrans(b"+/", b"-_")] and its inverse. *)
Definition _urlsafe_encode_translation (c : byte) : byte :=
  if Byte.eqb c "+"%byte then "-"%byte
  else if Byte.eqb c "/"%byte then "_"%byte else c.

Definition _urlsafe_decode_translation (c : byte) : byte :=
  if Byte.eqb c "-"%byte then "+"%byte
  else if Byte.eqb c "_"%byte then "/"%byte else c.

Definition urlsafe_b64encode (s : list byte) : list byte :=
  map _urlsafe_encode_translation (b2a_base64 s).

Definition urlsafe_b64decode (s : list byte) : option (list byte) :=
  a2b_base64 (map _urlsafe_decode_translation s).

(** The encoding without its trailing [=] characters, and their number. *)
Fixpoint b2a_nopad (data : list byte) : list byte :=
  match data with
  | [] => []
  | [a] =>
      let x := Byte.to_N a in
      [b2a (N.shiftr x 2); b2a (N.shiftl (N.land x 3) 4)]
  | [a; b] =>
      let x := Byte.to_N a in
      let y := Byte.to_N b in
      [b2a (N.shiftr x 2);
       b2a (N.lor (N.shiftl (N.land x 3) 4) (N.shiftr y 4));
       b2a (N.shiftl (N.land y 15) 2)]
  | a :: b :: c :: rest =>
      let x := Byte.to_N a in
      let y := Byte.to_N b in
      let z := Byte.to_N c in
      b2a (N.shiftr x 2)
        :: b2a (N.lor (N.shiftl (N.land x 3) 4) (N.shiftr y 4))
        :: b2a (N.lor (N.shiftl (N.land y 15) 2) (N.shiftr z 6))
        :: b2a (N.land z 63)
        :: b2a_nopad rest
  end.

Definition pad_count (data : list byte) : nat :=
  match (length data mod 3)%nat with
  | 1%nat => 2%nat
  | 2%nat => 1%nat
  | _ => 0%nat
  end.

(** *** Definitions for the proofs *)

Definition below (n : nat) : list N := map N.of_nat (seq 0 n).

Definition all1 (n : nat) (P : N -> bool) : bool := forallb P (below n).
Definition all2 (n : nat) (P : N -> N -> bool) : bool :=
  forallb (fun x => forallb (P x) (below n)) (below n).

(** The four sextets of a group of three bytes. *)
Definition sextet1 (x : N) : N := N.shiftr x 2.
Definition sextet2 (x y : N) : N := N.lor (N.shiftl (N.land x 3) 4) (N.shiftr y 4).
Definition sextet3 (y z : N) : N := N.lor (N.shiftl (N.land y 15) 2) (N.shiftr z 6).
Definition sextet4 (z : N) : N := N.land z 63.

(** Each alphabet character decodes to its index, is not the pad, is
    below 128 and survives the two URL-safe translations. *)
Definition sextet_ok (n : N) : bool :=
  match a2b (_urlsafe_decode_translation (_urlsafe_encode_translation (b2a n))) with
  | Some m => m =? n
  | None => false
  end
  && negb (Byte.eqb (_urlsafe_decode_translation (_urlsafe_encode_translation (b2a n)))
             BASE64_PAD)
  && negb (Byte.eqb (_urlsafe_encode_translation (b2a n)) BASE64_PAD)
  && (Byte.to_N (_urlsafe_encode_translation (b2a n)) <? 128).

(** The character the URL-safe encoder emits for a sextet, as the decoder
    sees it after its own translation. *)
Definition seen (n : N) : byte :=
  _urlsafe_decode_translation (_urlsafe_encode_translation (b2a n)).

(** The unpadded encoding, as the decoder sees it. *)
Definition seen_nopad (data : list byte) : list byte :=
  map _urlsafe_decode_translation (map _urlsafe_encode_translation (b2a_nopad data)).

(** *** Exhaustive checks over bytes and sextets *)

Lemma in_below (n : nat) (k : N) : k < N.of_nat n -> In k (below n).
Proof.
  intros Hk. unfold below. rewrite <- (N2Nat.id k).
  apply in_map, in_seq. lia.
Qed.

Lemma all1_spec (n : nat) (P : N -> bool) :
  all1 n P = true -> forall k, k < N.of_nat n -> P k = true.
Proof.
  unfold all1. rewrite forallb_forall. intros H k Hk. apply H, in_below, Hk.
Qed.

Lemma all2_spec (n : nat) (P : N -> N -> bool) :
  all2 n P = true -> forall j k, j < N.of_nat n -> k < N.of_nat n -> P j k = true.
Proof.
  unfold all2. rewrite forallb_forall. intros H j k Hj Hk.
  specialize (H j (in_below _ _ Hj)). rewrite forallb_forall in H.
  apply H, in_below, Hk.
Qed.

Lemma to_N_lt (b : byte) : Byte.to_N b < N.of_nat 256.
Proof. pose proof (Byte.to_N_bounded b). lia. Qed.

Lemma to_uchar_to_N (b : byte) : to_uchar (Byte.to_N b) = b.
Proof.
  unfold to_uchar. rewrite N.mod_small by apply to_N_lt.
  rewrite Byte.of_to_N. reflexivity.
Qed.

Lemma sextet_ok_all (n : N) : n < 64 -> sextet_ok n = true.
Proof. apply (all1_spec 64). vm_compute. reflexivity. Qed.

Lemma sextet1_lt (a : byte) : sextet1 (Byte.to_N a) < 64.
Proof.
  apply N.ltb_lt.
  apply (all1_spec 256 (fun x => sextet1 x <? 64)); [vm_compute; reflexivity | apply to_N_lt].
Qed.

Lemma sextet2_lt (a b : byte) : sextet2 (Byte.to_N a) (Byte.to_N b) < 64.
Proof.
  apply N.ltb_lt.
  apply (all2_spec 256 (fun x y => sextet2 x y <? 64));
    [vm_compute; reflexivity | apply to_N_lt | apply to_N_lt].
Qed.

Lemma sextet3_lt (b c : byte) : sextet3 (Byte.to_N b) (Byte.to_N c) < 64.
Proof.
  apply N.ltb_lt.
  apply (all2_spec 256 (fun y z => sextet3 y z <? 64));
    [vm_compute; reflexivity | apply to_N_lt | apply to_N_lt].
Qed.

Lemma sextet4_lt (c : byte) : sextet4 (Byte.to_N c) < 64.
Proof.
  apply N.ltb_lt.
  apply (all1_spec 256 (fun z => sextet4 z <? 64)); [vm_compute; reflexivity | apply to_N_lt].
Qed.

Lemma last_sextet_1_lt (a : byte) : N.shiftl (N.land (Byte.to_N a) 3) 4 < 64.
Proof.
  apply N.ltb_lt.
  apply (all1_spec 256 (fun x => N.shiftl (N.land x 3) 4 <? 64));
    [vm_compute; reflexivity | apply to_N_lt].
Qed.

Lemma last_sextet_2_lt (b : byte) : N.shiftl (N.land (Byte.to_N b) 15) 2 < 64.
Proof.
  apply N.ltb_lt.
  apply (all1_spec 256 (fun y => N.shiftl (N.land y 15) 2 <? 64));
    [vm_compute; reflexivity | apply to_N_lt].
Qed.

(** The decoder's three output bytes, from the encoder's sextets. *)
Lemma byte1_back (a b : byte) :
  N.lor (N.shiftl (sextet1 (Byte.to_N a)) 2)
        (N.shiftr (sextet2 (Byte.to_N a) (Byte.to_N b)) 4) = Byte.to_N a.
Proof.
  apply N.eqb_eq.
  apply (all2_spec 256
           (fun x y => N.lor (N.shiftl (sextet1 x) 2) (N.shiftr (sextet2 x y) 4) =? x));
    [vm_compute; reflexivity | apply to_N_lt | apply to_N_lt].
Qed.

Lemma leftchar2 (a b : byte) :
  N.land (sextet2 (Byte.to_N a) (Byte.to_N b)) 15 = N.shiftr (Byte.to_N b) 4.
Proof.
  apply N.eqb_eq.
  apply (all2_spec 256 (fun x y => N.land (sextet2 x y) 15 =? N.shiftr y 4));
    [vm_compute; reflexivity | apply to_N_lt | apply to_N_lt].
Qed.

Lemma byte2_back (b c : byte) :
  N.lor (N.shiftl (N.shiftr (Byte.to_N b) 4) 4)
        (N.shiftr (sextet3 (Byte.to_N b) (Byte.to_N c)) 2) = Byte.to_N b.
Proof.
  apply N.eqb_eq.
  apply (all2_spec 256
           (fun y z => N.lor (N.shiftl (N.shiftr y 4) 4) (N.shiftr (sextet3 y z) 2) =? y));
    [vm_compute; reflexivity | apply to_N_lt | apply to_N_lt].
Qed.

Lemma leftchar3 (b c : byte) :
  N.land (sextet3 (Byte.to_N b) (Byte.to_N c)) 3 = N.shiftr (Byte.to_N c) 6.
Proof.
  apply N.eqb_eq.
  apply (all2_spec 256 (fun y z => N.land (sextet3 y z) 3 =? N.shiftr z 6));
    [vm_compute; reflexivity | apply to_N_lt | apply to_N_lt].
Qed.

Lemma byte3_back (c : byte) :
  N.lor (N.shiftl (N.shiftr (Byte.to_N c) 6) 6) (sextet4 (Byte.to_N c)) = Byte.to_N c.
Proof.
  apply N.eqb_eq.
  apply (all1_spec 256 (fun z => N.lor (N.shiftl (N.shiftr z 6) 6) (sextet4 z) =? z));
    [vm_compute; reflexivity | apply to_N_lt].
Qed.

Lemma byte1_back_last (a : byte) :
  N.lor (N.shiftl (sextet1 (Byte.to_N a)) 2)
        (N.shiftr (N.shiftl (N.land (Byte.to_N a) 3) 4) 4) = Byte.to_N a.
Proof.
  apply N.eqb_eq.
  apply (all1_spec 256
           (fun x => N.lor (N.shiftl (sextet1 x) 2)
                       (N.shiftr (N.shiftl (N.land x 3) 4) 4) =? x));
    [vm_compute; reflexivity | apply to_N_lt].
Qed.

Lemma byte2_back_last (b : byte) :
  N.lor (N.shiftl (N.shiftr (Byte.to_N b) 4) 4)
        (N.shiftr (N.shiftl (N.land (Byte.to_N b) 15) 2) 2) = Byte.to_N b.
Proof.
  apply N.eqb_eq.
  apply (all1_spec 256
           (fun y => N.lor (N.shiftl (N.shiftr y 4) 4)
                       (N.shiftr (N.shiftl (N.land y 15) 2) 2) =? y));
    [vm_compute; reflexivity | apply to_N_lt].
Qed.

(** *** Decoding what the encoder produced *)

Lemma seen_a2b (n : N) :
  n < 64 -> Byte.eqb (seen n) BASE64_PAD = false /\ a2b (seen n) = Some n.
Proof.
  intros Hn. pose proof (sextet_ok_all n Hn) as H. unfold sextet_ok in H. fold (seen n) in H.
  apply andb_prop in H as [H _]. apply andb_prop in H as [H _].
  apply andb_prop in H as [H1 H2].
  split.
  - apply negb_true_iff. exact H2.
  - destruct (a2b (seen n)) as [m |]; [| discriminate H1].
    apply N.eqb_eq in H1. congruence.
Qed.

Lemma step0 (n : N) rest lc p acc :
  n < 64 -> a2b_loop (seen n :: rest) 0 lc p acc = a2b_loop rest 1 n 0 acc.
Proof. intros [H1 H2]%seen_a2b. cbn [a2b_loop]. rewrite H1, H2. reflexivity. Qed.

Lemma step1 (n : N) rest lc p acc :
  n < 64 ->
  a2b_loop (seen n :: rest) 1 lc p acc
  = a2b_loop rest 2 (N.land n 15) 0
      (acc ++ [to_uchar (N.lor (N.shiftl lc 2) (N.shiftr n 4))]).
Proof. intros [H1 H2]%seen_a2b. cbn [a2b_loop]. rewrite H1, H2. reflexivity. Qed.

Lemma step2 (n : N) rest lc p acc :
  n < 64 ->
  a2b_loop (seen n :: rest) 2 lc p acc
  = a2b_loop rest 3 (N.land n 3) 0
      (acc ++ [to_uchar (N.lor (N.shiftl lc 4) (N.shiftr n 2))]).
Proof. intros [H1 H2]%seen_a2b. cbn [a2b_loop]. rewrite H1, H2. reflexivity. Qed.

Lemma step3 (n : N) rest lc p acc :
  n < 64 ->
  a2b_loop (seen n :: rest) 3 lc p acc
  = a2b_loop rest 0 0 0 (acc ++ [to_uchar (N.lor (N.shiftl lc 6) n)]).
Proof. intros [H1 H2]%seen_a2b. cbn [a2b_loop]. rewrite H1, H2. reflexivity. Qed.

Lemma pads_at_quad0 (k : nat) lc p acc :
  a2b_loop (repeat BASE64_PAD k) 0 lc p acc = Some acc.
Proof. induction k as [| k IH]; [reflexivity | exact IH]. Qed.

Lemma list_triple_ind {A} (P : list A -> Prop) :
  P [] -> (forall a, P [a]) -> (forall a b, P [a; b]) ->
  (forall a b c l, P l -> P (a :: b :: c :: l)) ->
  forall l, P l.
Proof.
  intros H0 H1 H2 H3 l.
  enough (P l /\ (forall a, P (a :: l)) /\ forall a b, P (a :: b :: l)) by tauto.
  induction l as [| c l (IH0 & IH1 & IH2)]; repeat split; auto.
Qed.

(** Decoding the unpadded encoding followed by at least two [=] gives the
    data back. *)
Lemma decode_seen_nopad (data : list byte) :
  forall acc k, (2 <= k)%nat ->
    a2b_loop (seen_nopad data ++ repeat BASE64_PAD k) 0 0 0 acc = Some (acc ++ data).
Proof.
  unfold seen_nopad.
  induction data as [| a | a b | a b c rest IH] using list_triple_ind; intros acc k Hk.
  - cbn [b2a_nopad map app]. rewrite pads_at_quad0, app_nil_r. reflexivity.
  - cbn [b2a_nopad map app]. fold (sextet1 (Byte.to_N a)).
    fold (seen (sextet1 (Byte.to_N a))). fold (seen (N.shiftl (N.land (Byte.to_N a) 3) 4)).
    rewrite step0 by apply sextet1_lt.
    rewrite step1 by apply last_sextet_1_lt.
    rewrite byte1_back_last, to_uchar_to_N.
    destruct k as [| [| k]]; [lia | lia |]. reflexivity.
  - cbn [b2a_nopad map app].
    fold (sextet1 (Byte.to_N a)). fold (sextet2 (Byte.to_N a) (Byte.to_N b)).
    fold (seen (sextet1 (Byte.to_N a))). fold (seen (sextet2 (Byte.to_N a) (Byte.to_N b))).
    fold (seen (N.shiftl (N.land (Byte.to_N b) 15) 2)).
    rewrite step0 by apply sextet1_lt.
    rewrite step1 by apply sextet2_lt.
    rewrite step2 by apply last_sextet_2_lt.
    rewrite byte1_back, leftchar2, byte2_back_last, !to_uchar_to_N.
    destruct k as [| k]; [lia |]. cbn. rewrite <- app_assoc. reflexivity.
  - cbn [b2a_nopad map app].
    fold (sextet1 (Byte.to_N a)). fold (sextet2 (Byte.to_N a) (Byte.to_N b)).
    fold (sextet3 (Byte.to_N b) (Byte.to_N c)). fold (sextet4 (Byte.to_N c)).
    fold (seen (sextet1 (Byte.to_N a))). fold (seen (sextet2 (Byte.to_N a) (Byte.to_N b))).
    fold (seen (sextet3 (Byte.to_N b) (Byte.to_N c))). fold (seen (sextet4 (Byte.to_N c))).
    rewrite step0 by apply sextet1_lt.
    rewrite step1 by apply sextet2_lt.
    rewrite step2 by apply sextet3_lt.
    rewrite step3 by apply sextet4_lt.
    rewrite byte1_back, leftchar2, byte2_back, leftchar3, byte3_back, !to_uchar_to_N.
    rewrite IH by exact Hk. rewrite <- !app_assoc. reflexivity.
Qed.

Lemma pad_count_cons3 {a b c : byte} (rest : list byte) :
  pad_count (a :: b :: c :: rest) = pad_count rest.
Proof.
  unfold pad_count. cbn [length].
  replace (S (S (S (length rest)))) with (length rest + 1 * 3)%nat by lia.
  rewrite Nat.Div0.mod_add. reflexivity.
Qed.

Lemma b2a_base64_nopad (data : list byte) :
  b2a_base64 data = b2a_nopad data ++ repeat BASE64_PAD (pad_count data).
Proof.
  induction data as [| a | a b | a b c rest IH] using list_triple_ind;
    try reflexivity.
  rewrite pad_count_cons3. cbn [b2a_base64 b2a_nopad app]. rewrite IH. reflexivity.
Qed.

Lemma translate_pads (k : nat) :
  map _urlsafe_decode_translation
    (map _urlsafe_encode_translation (repeat BASE64_PAD k)) = repeat BASE64_PAD k.
Proof. induction k as [| k IH]; [reflexivity |]. cbn [repeat map]. rewrite IH. reflexivity. Qed.

(** Decoding a URL-safe encoding with two more [=] appended, as
    [KeyPair.verify] does, gives the data back. *)
Lemma urlsafe_b64decode_padded (data : list byte) :
  urlsafe_b64decode (urlsafe_b64encode data ++ [BASE64_PAD; BASE64_PAD]) = Some data.
Proof.
  unfold urlsafe_b64decode, urlsafe_b64encode, a2b_base64.
  rewrite b2a_base64_nopad, !map_app.
  rewrite translate_pads. fold (seen_nopad data).
  change (map _urlsafe_decode_translation [BASE64_PAD; BASE64_PAD])
    with (repeat BASE64_PAD 2).
  rewrite <- app_assoc, <- repeat_app.
  apply (decode_seen_nopad data []). lia.
Qed.

(** The same for the encoding with its [=] characters removed. *)
Lemma urlsafe_b64decode_stripped (data : list byte) :
  urlsafe_b64decode
    (map _urlsafe_encode_translation (b2a_nopad data) ++ [BASE64_PAD; BASE64_PAD])
  = Some data.
Proof.
  unfold urlsafe_b64decode, a2b_base64. rewrite map_app. fold (seen_nopad data).
  apply (decode_seen_nopad data [] 2). lia.
Qed.

(** *** Any number of trailing [=] beyond two changes nothing *)

(** From any state, two or more [=] end the decoding the same way. *)
Lemma a2b_loop_pads (m : nat) quad_pos leftchar pads bin_data :
  (2 <= m)%nat ->
  a2b_loop (repeat BASE64_PAD m) quad_pos leftchar pads bin_data
  = if quad_pos =? 1 then None else Some bin_data.
Proof.
  intros Hm. destruct m as [| [| m]]; [lia | lia |].
  cbn [repeat a2b_loop]. change (Byte.eqb BASE64_PAD BASE64_PAD) with true. cbv iota.
  destruct (N.leb_spec 2 quad_pos) as [Hq | Hq].
  - replace (quad_pos =? 1) with false by (symmetry; apply N.eqb_neq; lia).
    destruct (N.leb_spec 4 (quad_pos + (pads + 1))) as [H1 | H1]; [reflexivity |].
    replace (4 <=? quad_pos + (pads + 1 + 1)) with true
      by (symmetry; apply N.leb_le; lia).
    reflexivity.
  - assert (Hskip : forall k, a2b_loop (repeat BASE64_PAD k) quad_pos leftchar pads bin_data
                              = if quad_pos =? 0 then Some bin_data else None).
    { induction k as [| k IHk]; [reflexivity |].
      cbn [repeat a2b_loop]. change (Byte.eqb BASE64_PAD BASE64_PAD) with true. cbv iota.
      replace (2 <=? quad_pos) with false by (symmetry; apply N.leb_gt; lia).
      exact IHk. }
    rewrite (Hskip m).
    assert (quad_pos = 0 \/ quad_pos = 1) as [-> | ->] by lia; reflexivity.
Qed.

Lemma a2b_loop_more_pads (input : list byte) (m : nat) :
  (2 <= m)%nat ->
  forall quad_pos leftchar pads bin_data,
    a2b_loop (input ++ repeat BASE64_PAD m) quad_pos leftchar pads bin_data
    = a2b_loop (input ++ repeat BASE64_PAD 2) quad_pos leftchar pads bin_data.
Proof.
  intros Hm. induction input as [| c input IH]; intros quad_pos leftchar pads bin_data.
  - cbn [app]. rewrite !a2b_loop_pads by lia. reflexivity.
  - cbn [app a2b_loop].
    destruct (Byte.eqb c BASE64_PAD).
    + destruct (2 <=? quad_pos); [| apply IH].
      destruct (4 <=? quad_pos + (pads + 1)); [reflexivity | apply IH].
    + destruct (a2b c) as [v |]; [| apply IH].
      destruct (quad_pos =? 0); [apply IH |].
      destruct (quad_pos =? 1); [apply IH |].
      destruct (quad_pos =? 2); apply IH.
Qed.

Lemma translate_pad_repeat (k : nat) :
  map _urlsafe_decode_translation (repeat BASE64_PAD k) = repeat BASE64_PAD k.
Proof. induction k as [| k IH]; [reflexivity |]. cbn [repeat map]. rewrite IH. reflexivity. Qed.

(** Decoding with [k + 2] trailing [=] is decoding with two. *)
Lemma urlsafe_b64decode_more_pads (encoded : list byte) (k : nat) :
  urlsafe_b64decode ((encoded ++ repeat BASE64_PAD k) ++ [BASE64_PAD; BASE64_PAD])
  = urlsafe_b64decode (encoded ++ [BASE64_PAD; BASE64_PAD]).
Proof.
  unfold urlsafe_b64decode, a2b_base64.
  change [BASE64_PAD; BASE64_PAD] with (repeat BASE64_PAD 2).
  rewrite <- app_assoc, <- repeat_app, !map_app, !translate_pad_repeat.
  apply a2b_loop_more_pads. lia.
Qed.

(** *** The encoded text as a Python [str] *)

Lemma ascii_eqb_of_byte (c : byte) :
  Ascii.eqb (ascii_of_byte c) "="%char = Byte.eqb c BASE64_PAD.
Proof. destruct c; reflexivity. Qed.

Lemma N_of_ascii_of_byte (c : byte) : N_of_ascii (ascii_of_byte c) = Byte.to_N c.
Proof. destruct c; reflexivity. Qed.

Lemma string_of_list_byte_cons (c : byte) (l : list byte) :
  string_of_list_byte (c :: l) = String (ascii_of_byte c) (string_of_list_byte l).
Proof. reflexivity. Qed.

Lemma rstrip_eq_pads (l : list byte) (k : nat) :
  Forall (fun c => Byte.eqb c BASE64_PAD = false) l ->
  Py.rstrip_eq (Py.decode_ascii (l ++ repeat BASE64_PAD k)) = Py.decode_ascii l.
Proof.
  unfold Py.decode_ascii. induction 1 as [| c l Hc Hl IH].
  - induction k as [| k IHk]; [reflexivity |].
    cbn [app] in *. cbn [repeat]. rewrite string_of_list_byte_cons.
    cbn [Py.rstrip_eq]. rewrite IHk. reflexivity.
  - cbn [app]. rewrite !string_of_list_byte_cons. cbn [Py.rstrip_eq].
    rewrite IH, ascii_eqb_of_byte, Hc.
    destruct (string_of_list_byte l); reflexivity.
Qed.

Lemma encode_decode_ascii (l : list byte) :
  Forall (fun c => Byte.to_N c < 128) l ->
  Py.encode_ascii (Py.decode_ascii l) = Some l.
Proof.
  intros Hl. unfold Py.encode_ascii, Py.decode_ascii.
  replace (Py.isascii (string_of_list_byte l)) with true.
  - rewrite list_byte_of_string_of_list_byte. reflexivity.
  - symmetry. induction Hl as [| c l Hc Hl IH]; [reflexivity |].
    rewrite string_of_list_byte_cons. cbn [Py.isascii].
    rewrite N_of_ascii_of_byte, IH, andb_true_r. apply N.ltb_lt, Hc.
Qed.

Lemma url_char_ok (n : N) :
  n < 64 ->
  Byte.eqb (_urlsafe_encode_translation (b2a n)) BASE64_PAD = false /\
  Byte.to_N (_urlsafe_encode_translation (b2a n)) < 128.
Proof.
  intros Hn. pose proof (sextet_ok_all n Hn) as H. unfold sextet_ok in H.
  apply andb_prop in H as [H H4]. apply andb_prop in H as [_ H3].
  split; [apply negb_true_iff, H3 | apply N.ltb_lt, H4].
Qed.

Lemma nopad_chars (data : list byte) :
  Forall (fun c => Byte.eqb c BASE64_PAD = false /\ Byte.to_N c < 128)
    (map _urlsafe_encode_translation (b2a_nopad data)).
Proof.
  induction data as [| a | a b | a b c rest IH] using list_triple_ind;
    cbn [b2a_nopad map]; repeat apply Forall_cons_2; try apply Forall_nil_2; try exact IH.
  all: apply url_char_ok.
  all: first [ apply sextet1_lt | apply sextet2_lt | apply sextet3_lt | apply sextet4_lt
             | apply last_sextet_1_lt | apply last_sextet_2_lt ].
Qed.

Lemma urlsafe_b64encode_nopad (data : list byte) :
  urlsafe_b64encode data
  = map _urlsafe_encode_translation (b2a_nopad data) ++ repeat BASE64_PAD (pad_count data).
Proof.
  unfold urlsafe_b64encode. rewrite b2a_base64_nopad, map_app. f_equal.
  induction (pad_count data) as [| k IH]; [reflexivity |].
  cbn [repeat map]. rewrite IH. reflexivity.
Qed.

(** [urlsafe_b64encode] only produces bytes below 128, so decoding its
    result as ASCII cannot fail. *)
Lemma urlsafe_b64encode_isascii (data : list byte) :
  Forall (fun c => Byte.to_N c < 128) (urlsafe_b64encode data).
Proof.
  rewrite urlsafe_b64encode_nopad. apply Forall_app. split.
  - eapply Forall_impl; [apply nopad_chars |]. intros c [_ Hc]. exact Hc.
  - induction (pad_count data) as [| k IH]; constructor; [| exact IH].
    vm_compute. reflexivity.
Qed.

(** Stripping the trailing [=] of an encoding leaves the unpadded encoding. *)
Lemma rstrip_urlsafe_b64encode (data : list byte) :
  Py.rstrip_eq (Py.decode_ascii (urlsafe_b64encode data))
  = Py.decode_ascii (map _urlsafe_encode_translation (b2a_nopad data)).
Proof.
  rewrite urlsafe_b64encode_nopad. apply rstrip_eq_pads.
  eapply Forall_impl; [apply nopad_chars |]. intros c [Hc _]. exact Hc.
Qed.

End Base64.

(* ===================================================================== *)
(** * crypto/keys.py                                                      *)
(* ===================================================================== *)

Module Keys.

Section WithEd25519.

(** Payloads (structured values), and the key types of
    [cryptography.hazmat.primitives.asymmetric.ed25519]. *)
Context {Payload PrivateKey PublicKey : Type}.
(** [json.dumps(payload, sort_keys=True, separators=(",", ":"), default=str)]. *)
Variable json_dumps : Payload -> string.
(** [Ed25519PrivateKey.public_key()]. *)
Variable public_key : PrivateKey -> PublicKey.
(** [Ed25519PrivateKey.sign(data)]. *)
Variable ed25519_sign : PrivateKey -> list byte -> list byte.
(** [Ed25519PublicKey.verify(signature, data)]: [true] when it returns,
    [false] when it raises. *)
Variable ed25519_verify : PublicKey -> list byte -> list byte -> bool.

Definition _canonical (payload : Payload) : list byte :=
  Py.utf8_encode (json_dumps payload).

Record KeyPair := mkKeyPair { _private : PrivateKey; _public : PublicKey }.

Definition __init__ (private_key : PrivateKey) : KeyPair :=
  {| _private := private_key; _public := public_key private_key |}.

Definition sign (self : KeyPair) (payload : Payload) : string :=
  let raw_sig := ed25519_sign (_private self) (_canonical payload) in
  Py.decode_ascii (Base64.urlsafe_b64encode raw_sig).

(** Every exception inside the [try] makes [verify] return [False]. *)
Definition verify (self : KeyPair) (payload : Payload) (signature : string) : bool :=
  match Py.encode_ascii signature with
  | None => false
  | Some encoded =>
      match Base64.urlsafe_b64decode (encoded ++ list_byte_of_string "==") with
      | None => false
      | Some sig_bytes => ed25519_verify (_public self) sig_bytes (_canonical payload)
      end
  end.

(** [s.endswith("=")]. *)
Fixpoint ends_with_pad (s : string) : bool :=
  match s with
  | EmptyString => false
  | String c EmptyString => Ascii.eqb c "="%char
  | String _ rest => ends_with_pad rest
  end.

(** ** Loading the key pair *)

(** [load_pem_private_key(data, password=None)]; [None] stands for the
    [ValueError] it raises on bytes that are no private key. *)
Variable load_pem_private_key : list byte -> option PrivateKey.
(** [key.private_bytes(Encoding.PEM, PrivateFormat.PKCS8, NoEncryption())]. *)
Variable private_bytes : PrivateKey -> list byte.
(** [key.public_bytes(Encoding.PEM, PublicFormat.SubjectPublicKeyInfo)]. *)
Variable public_bytes : PublicKey -> list byte.

(** The file system, as far as [load_or_generate] uses it.  [Fs] is its
    state; every call is given the state it finds, and a call that can
    change it returns the state it leaves, together with the exception it
    raised, if any. *)
Context {Fs : Type}.
(** [os.path.exists(path)]. *)
Variable path_exists : Fs -> string -> bool.
(** [with open(path, "rb") as fh: fh.read()]. *)
Variable read_file : Fs -> string -> Py.result (list byte).
(** [os.path.dirname(path)]. *)
Variable dirname : string -> string.
(** [os.makedirs(name, exist_ok=True)]. *)
Variable makedirs : Fs -> string -> Fs * option Py.exn.
(** [with open(path, "wb") as fh: fh.write(data)]. *)
Variable write_file : Fs -> string -> list byte -> Fs * option Py.exn.

(** [KeyPair.load_or_generate(private_path, public_path)] on the file
    system [fs]; [generated] is the key [Ed25519PrivateKey.generate()]
    returns when it is called.  The result is the key pair, or the
    exception that leaves the method, and the file system afterwards.  An
    exception of [makedirs] or of a write ends the method there: the
    later files are not written. *)
Definition load_or_generate (fs : Fs) (generated : PrivateKey)
    (private_path public_path : string) : Py.result KeyPair * Fs :=
  if path_exists fs private_path then
    match read_file fs private_path with
    | Py.Raise e => (Py.Raise e, fs)
    | Py.Ok data =>
        match load_pem_private_key data with
        | Some private_key => (Py.Ok (__init__ private_key), fs)
        | None => (Py.Raise Py.ValueError, fs)
        end
    end
  else
    let kp := __init__ generated in
    match makedirs fs (dirname private_path) with
    | (fs1, Some e) => (Py.Raise e, fs1)
    | (fs1, None) =>
        match write_file fs1 private_path (private_bytes (_private kp)) with
        | (fs2, Some e) => (Py.Raise e, fs2)
        | (fs2, None) =>
            match write_file fs2 public_path (public_bytes (_public kp)) with
            | (fs3, Some e) => (Py.Raise e, fs3)
            | (fs3, None) => (Py.Ok kp, fs3)
            end
        end
    end.

(** Verifying the text of an encoded signature, padded or stripped, is
    verifying the signature bytes. *)
Lemma verify_encoded (self : KeyPair) (payload : Payload) (raw : list byte) :
  verify self payload (Py.decode_ascii (Base64.urlsafe_b64encode raw))
  = ed25519_verify (_public self) raw (_canonical payload).
Proof.
  unfold verify.
  rewrite Base64.encode_decode_ascii by apply Base64.urlsafe_b64encode_isascii.
  change (list_byte_of_string "==") with [Base64.BASE64_PAD; Base64.BASE64_PAD].
  rewrite Base64.urlsafe_b64decode_padded. reflexivity.
Qed.

Lemma verify_rstrip (self : KeyPair) (payload : Payload) (s : string) :
  verify self payload s = verify self payload (Py.rstrip_eq s).
Proof.
  destruct (Py.rstrip_eq_split s) as [k Hs].
  rewrite Hs at 1. unfold verify, Py.encode_ascii.
  rewrite Py.isascii_append_pads.
  destruct (Py.isascii (Py.rstrip_eq s)); [| reflexivity].
  rewrite Py.list_byte_of_string_append_pads.
  change (list_byte_of_string "==") with [Base64.BASE64_PAD; Base64.BASE64_PAD].
  change "="%byte with Base64.BASE64_PAD.
  rewrite Base64.urlsafe_b64decode_more_pads. reflexivity.
Qed.

(** The text of a 64-byte signature: 86 alphabet characters and [==]. *)
Lemma encoded_signature_shape (raw : list byte) :
  length raw = 64%nat ->
  Py.decode_ascii (Base64.urlsafe_b64encode raw)
  = (Py.rstrip_eq (Py.decode_ascii (Base64.urlsafe_b64encode raw)) ++ "==")%string /\
  String.length (Py.decode_ascii (Base64.urlsafe_b64encode raw)) = 88%nat /\
  ends_with_pad (Py.decode_ascii (Base64.urlsafe_b64encode raw)) = true.
Proof.
  intros Hlen.
  do 65 (destruct raw as [| ? raw]; try discriminate Hlen).
  rewrite Base64.rstrip_urlsafe_b64encode.
  repeat split.
Qed.

(** ** Signatures as text *)

(** Ed25519 signatures are 64 bytes long, and a signature made with a
    private key verifies under its public key. *)
Hypothesis ed25519_sign_length :
  forall k data, length (ed25519_sign k data) = 64%nat.
Hypothesis ed25519_sign_verifies :
  forall k data, ed25519_verify (public_key k) (ed25519_sign k data) data = true.

Lemma sign_shape (self : KeyPair) (payload : Payload) :
  ends_with_pad (sign self payload) = true.
Proof.
  unfold sign.
  apply (encoded_signature_shape (ed25519_sign (_private self) (_canonical payload))).
  apply ed25519_sign_length.
Qed.

(** C7.  What the code does where the claim says that [sign] returns
    unpadded base64url: for every key pair and payload the text [sign]
    returns is 88 characters long and ends in [==], the padding of a
    64-byte signature, which [urlsafe_b64encode] keeps and [sign] does not
    strip. *)
Theorem sign_keeps_padding (self : KeyPair) (payload : Payload) :
  sign self payload = (Py.rstrip_eq (sign self payload) ++ "==")%string /\
  String.length (sign self payload) = 88%nat /\
  ends_with_pad (sign self payload) = true /\
  Py.rstrip_eq (sign self payload) <> sign self payload.
Proof.
  unfold sign.
  destruct (encoded_signature_shape
              (ed25519_sign (_private self) (_canonical payload))
              (ed25519_sign_length _ _)) as (Hshape & Hlen & Hend).
  repeat split; try assumption.
  intros Heq. rewrite Heq in Hshape.
  apply (f_equal String.length) in Hshape.
  rewrite Py.length_append in Hshape. simpl in Hshape. lia.
Qed.

(** C10.  For every payload and every signature text [s] (so for every
    base64url-encoded one), [verify] returns the same boolean for [s] and
    for [s] with its trailing [=] padding stripped, because it appends
    [==] before decoding; and under one key pair [verify p (sign p)] is
    [true], for the padded text [sign] returns (it ends in [=]) as well as
    for its stripped form. *)
Theorem verify_ignores_padding
    (self : KeyPair) (private_key : PrivateKey) (payload : Payload) (s : string) :
  let key_pair := __init__ private_key in
  verify self payload s = verify self payload (Py.rstrip_eq s) /\
  verify key_pair payload (sign key_pair payload) = true /\
  verify key_pair payload (Py.rstrip_eq (sign key_pair payload)) = true /\
  ends_with_pad (sign key_pair payload) = true.
Proof.
  intros key_pair. split; [apply verify_rstrip |]. split; [| split].
  - unfold sign. rewrite verify_encoded. apply ed25519_sign_verifies.
  - rewrite <- verify_rstrip. unfold sign. rewrite verify_encoded.
    apply ed25519_sign_verifies.
  - apply sign_shape.
Qed.

(** ** Signing and verifying with one key pair *)

(** What [sign] returns, [verify] accepts. *)
Lemma sign_then_verify (private_key : PrivateKey) (payload : Payload) :
  verify (__init__ private_key) payload (sign (__init__ private_key) payload) = true.
Proof. unfold sign. rewrite verify_encoded. apply ed25519_sign_verifies. Qed.

(** ** The key pair across restarts *)

(** A private key written as PEM loads back as the same key. *)
Hypothesis pem_round_trip :
  forall k, load_pem_private_key (private_bytes k) = Some k.

(** What is written to a path and closed is what the path holds. *)
Hypothesis write_then_read :
  forall fs path data fs1,
    write_file fs path data = (fs1, None) ->
    path_exists fs1 path = true /\ read_file fs1 path = Py.Ok data.

(** X1.  [load_or_generate] on a file system without the private key
    file, for two paths such that writing the second, whether it succeeds
    or not, leaves the first as it is.  The method creates the directory
    of the private path, writes the private PEM file and then the public
    one, and the first of these steps that raises ends it with that
    exception: after a failed [makedirs] no file has been written, after
    a failed write of the private file the public one is not written.  It
    returns a key pair exactly when the three steps succeed, and then it
    is the pair of the generated key.  Once the private file is written,
    a failed write of the public file included, every later
    [load_or_generate] loads the generated key from it, whatever key a
    generation would give then, and leaves the file system alone. *)
Theorem load_or_generate_persists
    (fs : Fs) (generated later : PrivateKey) (private_path public_path : string) :
  path_exists fs private_path = false ->
  (forall fs2 data fs3 e,
     write_file fs2 public_path data = (fs3, e) ->
     path_exists fs3 private_path = path_exists fs2 private_path /\
     read_file fs3 private_path = read_file fs2 private_path) ->
  let first := load_or_generate fs generated private_path public_path in
  let made := makedirs fs (dirname private_path) in
  let private_written := write_file (fst made) private_path (private_bytes generated) in
  let public_written :=
    write_file (fst private_written) public_path (public_bytes (public_key generated)) in
  (forall e, snd made = Some e -> first = (Py.Raise e, fst made)) /\
  (snd made = None -> forall e,
     snd private_written = Some e -> first = (Py.Raise e, fst private_written)) /\
  (snd made = None -> snd private_written = None -> forall e,
     snd public_written = Some e -> first = (Py.Raise e, fst public_written)) /\
  (snd made = None -> snd private_written = None -> snd public_written = None ->
   first = (Py.Ok (__init__ generated), fst public_written) /\
   read_file (fst public_written) public_path
   = Py.Ok (public_bytes (public_key generated))) /\
  (forall kp, fst first = Py.Ok kp ->
     kp = __init__ generated /\
     snd made = None /\ snd private_written = None /\ snd public_written = None) /\
  (snd made = None -> snd private_written = None ->
   snd first = fst public_written /\
   read_file (snd first) private_path = Py.Ok (private_bytes generated) /\
   load_or_generate (snd first) later private_path public_path
   = (Py.Ok (__init__ generated), snd first)).
Proof.
  intros Habsent Hkeep first made private_written public_written.
  subst first. unfold load_or_generate. rewrite Habsent.
  cbn [__init__ _private _public]. fold made.
  destruct made as [fs1 [e1 |]] eqn:Hmade; cbn [fst snd] in *.
  { split; [intros e [= <-]; reflexivity |].
    split; [intros [=] |]. split; [intros [=] |]. split; [intros [=] |].
    split; [intros kp [=] | intros [=]]. }
  fold private_written.
  destruct private_written as [fs2 [e2 |]] eqn:Hprivate; cbn [fst snd] in *.
  { split; [intros e [=] |].
    split; [intros _ e [= <-]; reflexivity |].
    split; [intros _ [=] |]. split; [intros _ [=] |].
    split; [intros kp [=] | intros _ [=]]. }
  destruct (write_then_read _ _ _ _ Hprivate) as [Hexists Hread].
  fold public_written.
  assert (Hlater : path_exists (fst public_written) private_path = true /\
                   read_file (fst public_written) private_path
                   = Py.Ok (private_bytes generated)).
  { destruct (Hkeep fs2 (public_bytes (public_key generated)) (fst public_written)
                (snd public_written)) as [H1 H2].
    - subst public_written. apply surjective_pairing.
    - rewrite H1, H2. split; assumption. }
  destruct Hlater as [Hexists3 Hread3].
  assert (Hreload : (if path_exists (fst public_written) private_path
                     then
                       match read_file (fst public_written) private_path with
                       | Py.Ok data =>
                           match load_pem_private_key data with
                           | Some private_key =>
                               (Py.Ok {| _private := private_key;
                                      _public := public_key private_key |},
                                fst public_written)
                           | None => (Py.Raise Py.ValueError, fst public_written)
                           end
                       | Py.Raise e => (Py.Raise e, fst public_written)
                       end
                     else
                       match makedirs (fst public_written) (dirname private_path) with
                       | (fs1', Some e) => (Py.Raise e, fs1')
                       | (fs1', None) =>
                           match write_file fs1' private_path (private_bytes later) with
                           | (fs2', Some e) => (Py.Raise e, fs2')
                           | (fs2', None) =>
                               match write_file fs2' public_path
                                       (public_bytes (public_key later)) with
                               | (fs3', Some e) => (Py.Raise e, fs3')
                               | (fs3', None) =>
                                   (Py.Ok {| _private := later; _public := public_key later |},
                                    fs3')
                               end
                           end
                       end)
                    = (Py.Ok {| _private := generated; _public := public_key generated |},
                       fst public_written)).
  { rewrite Hexists3, Hread3, pem_round_trip. reflexivity. }
  destruct public_written as [fs3 [e3 |]] eqn:Hpublic; cbn [fst snd] in *.
  - split; [intros e [=] |]. split; [intros _ e [=] |].
    split; [intros _ _ e [= <-]; reflexivity |]. split; [intros _ _ [=] |].
    split; [intros kp [=] |]. intros _ _.
    split; [reflexivity |]. split; [exact Hread3 | exact Hreload].
  - split; [intros e [=] |]. split; [intros _ e [=] |].
    split; [intros _ _ e [=] |].
    split; [intros _ _ _; split; [reflexivity |];
            exact (proj2 (write_then_read _ _ _ _ Hpublic)) |].
    split; [intros kp [= <-]; repeat split |]. intros _ _.
    split; [reflexivity |]. split; [exact Hread3 | exact Hreload].
Qed.

End WithEd25519.
End Keys.

(* ===================================================================== *)
(** * crypto/merkle.py                                                    *)
(* ===================================================================== *)

Module Merkle.

(** One entry of [proof_hashes]: [{"hash": ..., "position": ...}]. *)
Record ProofStep := mkStep { step_hash : string; step_position : string }.

(** The dict returned by [get_proof]. *)
Record Proof := mkProof {
  leaf_hash : string;
  index : Z;
  proof_hashes : list ProofStep;
  root_hash : string
}.

(** Exceptions raised by the Merkle log. *)
Inductive MerkleError := IndexError.

Section WithHash.

(** The type of evidence items (JSON-serialisable dicts). *)
Context {Item : Type}.
(** [hashlib.sha256(data).hexdigest()]. *)
Variable sha256_hexdigest : list byte -> string.
(** [json.dumps(item, sort_keys=True, separators=(",", ":"), default=str)]. *)
Variable json_dumps : Item -> string.

Definition _sha256 (data : list byte) : string := sha256_hexdigest data.

Definition _hash_leaf (item : Item) : string :=
  let canonical := Py.utf8_encode (json_dumps item) in
  _sha256 (x00 :: canonical).

Definition _hash_pair (left right : string) : string :=
  _sha256 (x01 :: Py.utf8_encode left ++ Py.utf8_encode right).

(** [current + [current[-1]]]. *)
Definition dup_last (current : list string) : list string :=
  match last current with
  | Some x => current ++ [x]
  | None => current
  end.

(** The padding both [_build_tree] and [get_proof] apply to a level of odd
    length. *)
Definition pad_odd (level : list string) : list string :=
  if Nat.odd (length level) then dup_last level else level.

(** [[_hash_pair(current[i], current[i + 1]) for i in range(0, len(current), 2)]]
    on a list of even length (the only lists it is called on, see
    [pad_odd_even]). *)
Fixpoint pair_up (current : list string) : list string :=
  match current with
  | a :: b :: rest => _hash_pair a b :: pair_up rest
  | _ => []
  end.

Definition parents (current : list string) : list string :=
  pair_up (pad_odd current).

Lemma length_dup_last (l : list string) :
  l <> [] -> length (dup_last l) = S (length l).
Proof.
  intros Hne. unfold dup_last.
  destruct (last l) as [x |] eqn:E.
  - rewrite length_app. simpl. lia.
  - apply last_None in E. contradiction.
Qed.

Lemma length_pad_odd (l : list string) :
  length (pad_odd l) = (length l + (if Nat.odd (length l) then 1 else 0))%nat.
Proof.
  unfold pad_odd. destruct (Nat.odd (length l)) eqn:E; [| lia].
  rewrite length_dup_last; [lia |].
  intros ->. discriminate E.
Qed.

Lemma length_pair_up_div2 (l : list string) :
  length (pair_up l) = Nat.div2 (length l).
Proof. revert l. fix IH 1. intros [| a [| b k]]; simpl; auto. Qed.

Lemma pair_up_length_lt (l : list string) :
  (1 < length l)%nat -> (length (pair_up (pad_odd l)) < length l)%nat.
Proof.
  intros H.
  rewrite length_pair_up_div2, length_pad_odd.
  destruct (Nat.odd (length l)) eqn:E.
  - rewrite Nat.div2_div. apply Nat.Div0.div_lt_upper_bound.
    destruct (length l) as [| [| n]]; simpl in *; try lia.
  - rewrite Nat.div2_div. apply Nat.Div0.div_lt_upper_bound. lia.
Qed.

(** The loop of [_build_tree]: [levels] from [current] upward,
    [while len(levels[-1]) > 1: ... levels.append(parents)]. *)
Equations levels_from (current : list string) : list (list string)
  by wf (length current) lt :=
  levels_from current with le_lt_dec (length current) 1 := {
    | left _ := [current];
    | right H := current :: levels_from (parents current) }.
Next Obligation. apply pair_up_length_lt. assumption. Qed.

Definition _build_tree (leaves : list string) : list (list string) :=
  match leaves with
  | [] => []
  | _ => levels_from leaves
  end.

(** The class [MerkleTree]: its only attribute is [_leaves]. *)
Record MerkleTree := mkTree { _leaves : list string }.

Definition __init__ : MerkleTree := mkTree [].

Definition load_leaves (self : MerkleTree) (leaf_hashes : list string) : MerkleTree :=
  mkTree leaf_hashes.

(** [append] returns the leaf hash and leaves the tree one leaf longer. *)
Definition append (self : MerkleTree) (item : Item) : string * MerkleTree :=
  let leaf_hash := _hash_leaf item in
  (leaf_hash, mkTree (_leaves self ++ [leaf_hash])).

Definition append_leaf_hash (self : MerkleTree) (leaf_hash : string) : MerkleTree :=
  mkTree (_leaves self ++ [leaf_hash]).

Definition count (self : MerkleTree) : Z := Z.of_nat (length (_leaves self)).

(** [levels[-1][0]]. *)
Definition top (levels : list (list string)) : option string :=
  last levels ≫= head.

Definition root (self : MerkleTree) : option string :=
  match _leaves self with
  | [] => None
  | _ => top (_build_tree (_leaves self))
  end.

(** The [for level in levels[:-1]] loop of [get_proof]; [None] stands for
    the [IndexError] a list access out of range would raise. *)
Fixpoint proof_path (levels : list (list string)) (idx : nat) : option (list ProofStep) :=
  match levels with
  | [] => Some []
  | level :: rest =>
      let padded := pad_odd level in
      let '(sibling_idx, position) :=
        if Nat.even idx then ((idx + 1)%nat, "right"%string)
        else ((idx - 1)%nat, "left"%string) in
      sibling ← padded !! sibling_idx;
      steps ← proof_path rest (idx / 2)%nat;
      Some (mkStep sibling position :: steps)
  end.

Definition get_proof (self : MerkleTree) (index : Z) : MerkleError + Proof :=
  if (index <? 0) || (index >=? Z.of_nat (length (_leaves self))) then inl IndexError
  else
    let levels := _build_tree (_leaves self) in
    let idx := Z.to_nat index in
    match proof_path (removelast levels) idx, _leaves self !! idx, top levels with
    | Some steps, Some leaf, Some r =>
        inr {| leaf_hash := leaf; index := index; proof_hashes := steps; root_hash := r |}
    | _, _, _ => inl IndexError
    end.

(** One iteration of the loop of [verify_proof]. *)
Definition verify_step (current : string) (step : ProofStep) : string :=
  let sibling := step_hash step in
  if bool_decide (step_position step = "right"%string)
  then _hash_pair current sibling
  else _hash_pair sibling current.

Definition verify_proof (leaf_hash : string) (proof_hashes : list ProofStep)
    (root_hash : string) : bool :=
  let current := fold_left verify_step proof_hashes leaf_hash in
  bool_decide (current = root_hash).

(** What a sequence of [append] calls leaves behind: the leaf hashes it
    returned (the driver persists them as [merkle_leaf_hash], in order of
    [merkle_index]) and the tree. *)
Fixpoint append_all (self : MerkleTree) (items : list Item) : list string * MerkleTree :=
  match items with
  | [] => ([], self)
  | item :: rest =>
      let '(leaf_hash, self1) := append self item in
      let '(hashes, self2) := append_all self1 rest in
      (leaf_hash :: hashes, self2)
  end.

(** The reconstruction loop of [main]:
    [for lh in existing_leaves: merkle_tree.append_leaf_hash(lh)]. *)
Definition reconstruct (existing_leaves : list string) : MerkleTree :=
  fold_left append_leaf_hash existing_leaves __init__.

(** The loop of [_next_power_of_two]: [while p < n: p <<= 1].  [p] starts
    at 1 and is only ever shifted left, so it is a positive number. *)
Equations next_power_loop (p : positive) (n : Z) : Z
  by wf (Z.to_nat (n - Z.pos p)) lt :=
  next_power_loop p n with Z_lt_dec (Z.pos p) n := {
    | left _ := next_power_loop (Pos.shiftl p 1) n;
    | right _ := Z.pos p }.
Next Obligation. change (Pos.shiftl p 1) with (p~0)%positive. lia. Qed.

Definition _next_power_of_two (n : Z) : Z :=
  if n <=? 1 then 1 else next_power_loop 1 n.

(** Two byte strings with one SHA-256 digest. *)
Definition collision : Prop :=
  exists a b : list byte, a <> b /\ sha256_hexdigest a = sha256_hexdigest b.

(** Induction over a list two elements at a time, the way [pair_up] walks it. *)
Lemma list_pair_ind {A} (P : list A -> Prop) :
  P [] -> (forall a, P [a]) -> (forall a b l, P l -> P (a :: b :: l)) ->
  forall l, P l.
Proof.
  intros H0 H1 H2 l.
  enough (P l /\ forall a, P (a :: l)) by tauto.
  induction l as [| b l [IHl IHc]]; split; auto.
Qed.

Lemma pad_odd_even (l : list string) : Nat.even (length (pad_odd l)) = true.
Proof.
  rewrite length_pad_odd. destruct (Nat.odd (length l)) eqn:E.
  - rewrite Nat.add_1_r, Nat.even_succ. exact E.
  - rewrite Nat.add_0_r, <- Nat.negb_odd, E. reflexivity.
Qed.

Lemma pad_odd_lookup (l : list string) (i : nat) :
  (i < length l)%nat -> pad_odd l !! i = l !! i.
Proof.
  intros Hi. unfold pad_odd, dup_last.
  destruct (Nat.odd (length l)); [| reflexivity].
  destruct (last l); [| reflexivity].
  apply lookup_app_l. exact Hi.
Qed.

(** What the list comprehension of [_build_tree] puts at position [k]. *)
Lemma pair_up_lookup (p : list string) (k : nat) :
  Nat.even (length p) = true -> (2 * k < length p)%nat ->
  exists a b, p !! (2 * k)%nat = Some a /\ p !! (2 * k + 1)%nat = Some b /\
              pair_up p !! k = Some (_hash_pair a b).
Proof.
  revert k. induction p as [| a | a b p IH] using list_pair_ind; intros k Hev Hk.
  - simpl in Hk. lia.
  - discriminate Hev.
  - destruct k as [| k].
    + exists a, b. repeat split.
    + destruct (IH k) as (a' & b' & Ha & Hb & Hp).
      * exact Hev.
      * simpl in Hk. lia.
      * exists a', b'. replace (2 * S k)%nat with (S (S (2 * k))) by lia.
        repeat split; assumption.
Qed.

(** One level of the proof: combining the node at [idx] with the sibling
    [get_proof] records gives the parent node at [idx // 2]. *)
Lemma sibling_step (level : list string) (idx : nat) :
  (idx < length level)%nat ->
  exists x sib,
    level !! idx = Some x /\
    pad_odd level !! (if Nat.even idx then idx + 1 else idx - 1)%nat = Some sib /\
    parents level !! (idx / 2)%nat
      = Some (verify_step x
                (mkStep sib (if Nat.even idx then "right" else "left")%string)).
Proof.
  intros Hi.
  assert (Hlen : (2 * (idx / 2) < length (pad_odd level))%nat).
  { rewrite length_pad_odd. pose proof (Nat.Div0.mul_div_le idx 2). lia. }
  destruct (pair_up_lookup (pad_odd level) (idx / 2) (pad_odd_even level) Hlen)
    as (a & b & Ha & Hb & Hp).
  pose proof (Nat.div_mod_eq idx 2) as Hdm.
  destruct (Nat.even idx) eqn:Hev.
  - apply Nat.even_spec in Hev. destruct Hev as [m ->].
    assert (Hm : ((2 * m) / 2 = m)%nat) by (rewrite Nat.mul_comm; apply Nat.div_mul; lia).
    rewrite Hm in *.
    exists a, b. repeat split.
    + rewrite <- pad_odd_lookup by exact Hi. exact Ha.
    + exact Hb.
    + exact Hp.
  - assert (Hodd : Nat.odd idx = true) by (rewrite <- Nat.negb_even, Hev; reflexivity).
    apply Nat.odd_spec in Hodd. destruct Hodd as [m ->].
    assert (Hm : ((2 * m + 1) / 2 = m)%nat).
    { symmetry. apply (Nat.div_unique _ 2 m 1); lia. }
    rewrite Hm in *.
    exists b, a. repeat split.
    + rewrite <- pad_odd_lookup by exact Hi. exact Hb.
    + replace (2 * m + 1 - 1)%nat with (2 * m)%nat by lia. exact Ha.
    + exact Hp.
Qed.

Lemma levels_from_nonempty (current : list string) : levels_from current <> [].
Proof. funelim (levels_from current); discriminate. Qed.

(** The unfolding of the loop: one more level while the last one is longer
    than one element. *)
Lemma levels_from_loop (current : list string) :
  levels_from current =
    if (1 <? length current)%nat then current :: levels_from (parents current)
    else [current].
Proof.
  funelim (levels_from current).
  - rewrite (proj2 (Nat.ltb_ge _ _) l). reflexivity.
  - rewrite (proj2 (Nat.ltb_lt _ _) H). reflexivity.
Qed.

Lemma removelast_cons {A} (x : A) (l : list A) :
  l <> [] -> removelast (x :: l) = x :: removelast l.
Proof. destruct l; [contradiction | reflexivity]. Qed.

Lemma top_cons (x : list string) (l : list (list string)) :
  l <> [] -> top (x :: l) = top l.
Proof. destruct l; [contradiction | reflexivity]. Qed.

Lemma proof_path_cons (level : list string) (rest : list (list string)) (idx : nat) :
  proof_path (level :: rest) idx =
    (sibling ← pad_odd level !! (if Nat.even idx then idx + 1 else idx - 1)%nat;
     steps ← proof_path rest (idx / 2)%nat;
     Some (mkStep sibling (if Nat.even idx then "right" else "left")%string :: steps)).
Proof. cbn [proof_path]. destruct (Nat.even idx); reflexivity. Qed.

(** Replaying the recorded siblings from any node of any level reaches the
    top of the tree built over that level. *)
Lemma proof_path_replays (current : list string) :
  forall idx, (idx < length current)%nat ->
  exists steps x r,
    proof_path (removelast (levels_from current)) idx = Some steps /\
    current !! idx = Some x /\
    top (levels_from current) = Some r /\
    fold_left verify_step steps x = r.
Proof.
  induction current as [current IH] using (induction_ltof1 _ (@length string)).
  unfold ltof in IH. intros idx Hidx.
  rewrite levels_from_loop.
  destruct (1 <? length current)%nat eqn:Hlen.
  - apply Nat.ltb_lt in Hlen.
    rewrite removelast_cons, top_cons by apply levels_from_nonempty.
    destruct (sibling_step current idx Hidx) as (x & sib & Hx & Hsib & Hpar).
    assert (Hup : (idx / 2 < length (parents current))%nat).
    { apply lookup_lt_is_Some. rewrite Hpar. eauto. }
    destruct (IH (parents current) (pair_up_length_lt current Hlen) _ Hup)
      as (steps & y & r & Hsteps & Hy & Hr & Hfold).
    rewrite Hpar in Hy. injection Hy as <-.
    rewrite proof_path_cons, Hsib, Hsteps. cbn.
    eexists _, x, r. repeat split; eassumption.
  - apply Nat.ltb_ge in Hlen.
    assert (idx = 0%nat) by lia. subst idx.
    destruct current as [| x [| y current]]; simpl in *; try lia.
    exists [], x, x. repeat split.
Qed.

Lemma levels_from_head (current : list string) :
  levels_from current !! 0%nat = Some current.
Proof. rewrite levels_from_loop. destruct (1 <? length current)%nat; reflexivity. Qed.

(** Consecutive levels of the tree: the upper one is the pairing of the
    padded lower one. *)
Lemma levels_from_succ (current : list string) :
  forall k lvl nxt,
    levels_from current !! k = Some lvl ->
    levels_from current !! S k = Some nxt ->
    nxt = parents lvl.
Proof.
  induction current as [current IH] using (induction_ltof1 _ (@length string)).
  unfold ltof in IH. intros k lvl nxt.
  rewrite levels_from_loop.
  destruct (1 <? length current)%nat eqn:Hlen.
  - apply Nat.ltb_lt in Hlen. destruct k as [| k]; cbn [lookup list_lookup].
    + rewrite levels_from_head. congruence.
    + apply IH, pair_up_length_lt, Hlen.
  - intros _ Hn. destruct k; discriminate Hn.
Qed.

(** The loop stops on a level of one hash. *)
Lemma levels_from_last (current : list string) :
  current <> [] -> exists r, last (levels_from current) = Some [r].
Proof.
  induction current as [current IH] using (induction_ltof1 _ (@length string)).
  unfold ltof in IH. intros Hne.
  rewrite levels_from_loop.
  destruct (1 <? length current)%nat eqn:Hlen.
  - apply Nat.ltb_lt in Hlen.
    rewrite last_cons.
    destruct (IH (parents current) (pair_up_length_lt current Hlen)) as [r Hr].
    + intros Hp. apply (f_equal (@length string)) in Hp.
      unfold parents in Hp. rewrite length_pair_up_div2, length_pad_odd in Hp.
      simpl in Hp. destruct (length current) as [| [| n]]; simpl in *; try lia.
      destruct (Nat.odd n); simpl in Hp; rewrite ?Nat.add_0_r, ?Nat.add_1_r in Hp;
        discriminate Hp.
    + exists r. rewrite Hr. reflexivity.
  - apply Nat.ltb_ge in Hlen. destruct current as [| r [| y current]]; simpl in *;
      try lia; [contradiction | exists r; reflexivity].
Qed.

Lemma append_all_leaves (self : MerkleTree) (items : list Item) :
  fst (append_all self items) = map _hash_leaf items /\
  _leaves (snd (append_all self items)) = _leaves self ++ map _hash_leaf items.
Proof.
  revert self. induction items as [| item rest IH]; intros self; simpl.
  - rewrite app_nil_r. split; reflexivity.
  - destruct (IH (mkTree (_leaves self ++ [_hash_leaf item]))) as [IH1 IH2].
    destruct (append_all _ rest) as [hashes self2]. simpl in *.
    rewrite IH1, IH2, <- app_assoc. split; reflexivity.
Qed.

Lemma fold_append_leaf_hash (hashes : list string) (self : MerkleTree) :
  _leaves (fold_left append_leaf_hash hashes self) = _leaves self ++ hashes.
Proof.
  revert self. induction hashes as [| h rest IH]; intros self; simpl.
  - rewrite app_nil_r. reflexivity.
  - rewrite IH. simpl. rewrite <- app_assoc. reflexivity.
Qed.

Lemma same_leaves (t1 t2 : MerkleTree) : _leaves t1 = _leaves t2 -> t1 = t2.
Proof. destruct t1, t2. simpl. congruence. Qed.

(** ** Inclusion proofs *)

(** C1.  For every tree and every index [i] with [0 <= i < count] (so the
    tree has at least one leaf), [get_proof i] returns a proof whose
    [leaf_hash] is the [i]-th leaf, whose [root_hash] is the tree's root
    and whose [proof_hashes] make [verify_proof] return [true]; for every
    [i < 0] or [i >= count] it raises [IndexError] instead. *)
Theorem get_proof_verifies (self : MerkleTree) (i : Z) :
  (0 <= i < count self ->
   exists p,
     get_proof self i = inr p /\
     _leaves self !! Z.to_nat i = Some (leaf_hash p) /\
     index p = i /\
     root self = Some (root_hash p) /\
     verify_proof (leaf_hash p) (proof_hashes p) (root_hash p) = true) /\
  (i < 0 \/ count self <= i -> get_proof self i = inl IndexError).
Proof.
  unfold count, get_proof. split.
  - intros [Hlo Hhi].
    assert (Hidx : (Z.to_nat i < length (_leaves self))%nat) by lia.
    replace (i <? 0) with false by (symmetry; apply Z.ltb_ge; lia).
    replace (i >=? Z.of_nat (length (_leaves self))) with false
      by (symmetry; rewrite Z.geb_leb; apply Z.leb_gt; lia).
    cbn [orb]. unfold root, _build_tree.
    destruct (_leaves self) as [| h leaves] eqn:Hleaves; [simpl in Hidx; lia |].
    rewrite <- Hleaves in *.
    destruct (proof_path_replays (_leaves self) _ Hidx)
      as (steps & x & r & Hsteps & Hx & Hr & Hfold).
    rewrite Hsteps, Hx, Hr.
    eexists. split; [reflexivity |]. cbn.
    repeat split; try reflexivity.
    unfold verify_proof. rewrite Hfold. apply bool_decide_eq_true. reflexivity.
  - intros Hout.
    destruct (i <? 0) eqn:Hneg; [reflexivity |].
    apply Z.ltb_ge in Hneg.
    replace (i >=? Z.of_nat (length (_leaves self))) with true
      by (symmetry; rewrite Z.geb_leb; apply Z.leb_le; lia).
    reflexivity.
Qed.

(** ** Reconstruction from persisted leaf hashes *)

(** C2.  For every list [L] of evidence items, a fresh tree seeded with the
    leaf hashes of [L] in order, through [append_leaf_hash] as [main] does
    or through [load_leaves], has the same root and count as the tree built
    by calling [append] on each item of [L]; and appending a further item
    [x] to the seeded tree yields the same leaf hash and the same root as
    appending it to the original tree. *)
Theorem reconstruction_same_root (L : list Item) (x : Item) :
  let built := snd (append_all __init__ L) in
  let hashes := fst (append_all __init__ L) in
  let seeded := reconstruct hashes in
  let loaded := load_leaves __init__ hashes in
  root seeded = root built /\ count seeded = count built /\
  root loaded = root built /\ count loaded = count built /\
  fst (append seeded x) = fst (append built x) /\
  root (snd (append seeded x)) = root (snd (append built x)) /\
  root (snd (append loaded x)) = root (snd (append built x)).
Proof.
  intros built hashes seeded loaded.
  destruct (append_all_leaves __init__ L) as [Hh Hb].
  assert (Hs : seeded = built).
  { apply same_leaves. unfold seeded, reconstruct.
    rewrite fold_append_leaf_hash. fold built in Hb. rewrite Hb.
    unfold hashes. rewrite Hh. reflexivity. }
  assert (Hl : loaded = built).
  { apply same_leaves. unfold loaded, load_leaves. cbn [_leaves].
    fold built in Hb. rewrite Hb. unfold hashes. rewrite Hh. reflexivity. }
  rewrite Hs, Hl. repeat split; reflexivity.
Qed.

(** ** Hashing rules and tree shape *)


(** ** The shape of the tree *)

Lemma length_parents (current : list string) :
  length (parents current) = Nat.div2 (S (length current)).
Proof.
  unfold parents. rewrite length_pair_up_div2, length_pad_odd.
  destruct (Nat.odd (length current)) eqn:E.
  - rewrite Nat.add_1_r. reflexivity.
  - rewrite Nat.add_0_r. rewrite <- Nat.negb_even in E. apply negb_false_iff in E.
    apply Nat.even_spec in E. destruct E as [m ->].
    rewrite Nat.div2_succ_double, Nat.div2_double. reflexivity.
Qed.

(** The number of levels above the leaves is the binary logarithm of the
    number of leaves, rounded up. *)
Lemma levels_from_height (current : list string) :
  current <> [] ->
  exists h, length (levels_from current) = S h /\
            (length current <= 2 ^ h)%nat /\
            (1 < length current -> 2 ^ (h - 1) < length current)%nat.
Proof.
  induction current as [current IH] using (induction_ltof1 _ (@length string)).
  unfold ltof in IH. intros Hne.
  rewrite levels_from_loop.
  destruct (1 <? length current)%nat eqn:Hlen.
  - apply Nat.ltb_lt in Hlen.
    pose proof (length_parents current) as Hpar.
    assert (Hdiv : (2 * Nat.div2 (S (length current)) = length current \/
                    2 * Nat.div2 (S (length current)) = S (length current))%nat).
    { destruct (Nat.Even_or_Odd (length current)) as [[m Hm] | [m Hm]]; rewrite Hm.
      - left. rewrite Nat.div2_succ_double. reflexivity.
      - right. replace (S (2 * m + 1)) with (2 * S m)%nat by lia.
        rewrite Nat.div2_double. reflexivity. }
    destruct (IH (parents current) (pair_up_length_lt current Hlen)) as (h & Hh & Hup & Hlow).
    { intros Hp. rewrite Hp in Hpar. cbn [length] in Hpar. lia. }
    exists (S h). cbn [length]. rewrite Hh. split; [reflexivity |].
    rewrite Nat.pow_succ_r'. split; [lia |]. intros _.
    replace (S h - 1)%nat with h by lia.
    destruct (Nat.eq_dec (length (parents current)) 1%nat) as [H1 | H1].
    + destruct h as [| h].
      * simpl. lia.
      * exfalso. rewrite levels_from_loop, H1 in Hh. simpl in Hh. discriminate Hh.
    + assert (Hgt : (1 < length (parents current))%nat) by lia.
      specialize (Hlow Hgt).
      destruct h as [| h]; [simpl; lia |].
      replace (S h - 1)%nat with h in Hlow by lia.
      rewrite Nat.pow_succ_r'. lia.
  - apply Nat.ltb_ge in Hlen. exists 0%nat. cbn [length].
    destruct current as [| x [| y current]]; cbn [length] in *;
      [contradiction | repeat split; simpl; lia | lia].
Qed.

(** X2.  [root] is [None] exactly for the empty log, for which
    [_build_tree] returns no level at all; for a non-empty log the first
    level is the list of leaves, the last level is the one-element list
    holding the root, and every level above the leaves has half the length
    of the level below it, rounded up. *)
Theorem build_tree_shape (self : MerkleTree) :
  (root self = None <-> count self = 0) /\
  (_leaves self = [] -> _build_tree (_leaves self) = []) /\
  (_leaves self <> [] ->
   _build_tree (_leaves self) !! 0%nat = Some (_leaves self) /\
   exists r, last (_build_tree (_leaves self)) = Some [r] /\ root self = Some r) /\
  (forall k lvl nxt,
     _build_tree (_leaves self) !! k = Some lvl ->
     _build_tree (_leaves self) !! S k = Some nxt ->
     (1 < length lvl)%nat /\ length nxt = Nat.div2 (S (length lvl))).
Proof.
  unfold root, count, _build_tree.
  destruct (_leaves self) as [| h leaves] eqn:Hleaves.
  - split; [split; reflexivity |]. split; [reflexivity |].
    split; [intros H; contradiction |]. intros k lvl nxt Hk. discriminate Hk.
  - rewrite <- Hleaves.
    assert (Hne : _leaves self <> []) by (rewrite Hleaves; discriminate).
    destruct (levels_from_last _ Hne) as [r Hr].
    assert (Htop : top (levels_from (_leaves self)) = Some r).
    { unfold top. rewrite Hr. reflexivity. }
    split; [| split; [| split]].
    + rewrite Htop, Hleaves. cbn [length]. split; [discriminate | lia].
    + intros H. contradiction.
    + intros _. split; [apply levels_from_head | eauto].
    + intros k lvl nxt Hk Hn.
      pose proof (levels_from_succ _ _ _ _ Hk Hn) as ->.
      split; [| apply length_parents].
      clear - Hk Hn. revert k Hk Hn.
      generalize (_leaves self) as current.
      induction current as [current IH] using (induction_ltof1 _ (@length string)).
      unfold ltof in IH. intros k. rewrite levels_from_loop.
      destruct (1 <? length current)%nat eqn:Hlen.
      * apply Nat.ltb_lt in Hlen. destruct k as [| k]; cbn [lookup list_lookup].
        -- intros [= <-] _. exact Hlen.
        -- apply IH, pair_up_length_lt, Hlen.
      * intros _ Hn. destruct k; discriminate Hn.
Qed.

(** ** The size of a proof *)

Lemma proof_path_shape (levels : list (list string)) :
  forall idx steps,
    proof_path levels idx = Some steps ->
    length steps = length levels /\
    Forall (fun step => step_position step = "left"%string \/
                        step_position step = "right"%string) steps.
Proof.
  induction levels as [| level rest IH]; intros idx steps.
  - intros [= <-]. split; [reflexivity | constructor].
  - rewrite proof_path_cons.
    destruct (pad_odd level !! _) as [sib |]; [| discriminate]. cbn [mbind option_bind].
    destruct (proof_path rest (idx / 2)) as [tail |] eqn:Htail; [| discriminate].
    cbn [mbind option_bind]. intros [= <-].
    destruct (IH _ _ Htail) as [Hlen Hpos]. cbn [length]. rewrite Hlen.
    split; [reflexivity |]. constructor; [| exact Hpos].
    cbn [step_position]. destruct (Nat.even idx); auto.
Qed.

(** X3.  A proof [get_proof] returns has one step per level below the
    root, each marked "left" or "right", and the number [h] of its steps
    is the binary logarithm of the number of leaves, rounded up:
    [count <= 2 ** h], and [2 ** (h - 1) < count] when the log has more
    than one leaf. *)
Theorem proof_is_logarithmic (self : MerkleTree) (i : Z) (p : Proof) :
  get_proof self i = inr p ->
  let h := length (proof_hashes p) in
  S h = length (_build_tree (_leaves self)) /\
  (length (_leaves self) <= 2 ^ h)%nat /\
  (1 < length (_leaves self) -> 2 ^ (h - 1) < length (_leaves self))%nat /\
  Forall (fun step => step_position step = "left"%string \/
                      step_position step = "right"%string) (proof_hashes p).
Proof.
  unfold get_proof.
  destruct ((i <? 0) || (i >=? Z.of_nat (length (_leaves self)))) eqn:Hrange;
    [discriminate |].
  destruct (proof_path _ _) as [steps |] eqn:Hsteps; [| discriminate].
  destruct (_leaves self !! Z.to_nat i) as [leaf |] eqn:Hleaf; [| discriminate].
  destruct (top _) as [r |]; [| discriminate].
  intros [= <-]. cbn [proof_hashes].
  destruct (proof_path_shape _ _ _ Hsteps) as [Hlen Hpos].
  assert (Hne : _leaves self <> []).
  { intros Hnil. rewrite Hnil in Hleaf. discriminate Hleaf. }
  unfold _build_tree in *. destruct (_leaves self) as [| x leaves] eqn:Hleaves;
    [contradiction |].
  rewrite <- Hleaves in *.
  destruct (levels_from_height _ Hne) as (h & Hh & Hup & Hlow).
  assert (Hsame : length steps = h).
  { rewrite Hlen, removelast_firstn_len, length_take, Hh. cbn [Init.Nat.pred]. lia. }
  rewrite Hsame, Hh. repeat split; assumption.
Qed.

(** ** What a proof binds *)

Lemma verify_step_inj (step : ProofStep) (x y : string) :
  x <> y -> verify_step x step = verify_step y step -> collision.
Proof.
  intros Hxy. unfold verify_step, _hash_pair, _sha256.
  destruct (bool_decide (step_position step = "right"%string)); intros Heq.
  - exists (x01 :: Py.utf8_encode x ++ Py.utf8_encode (step_hash step)),
           (x01 :: Py.utf8_encode y ++ Py.utf8_encode (step_hash step)).
    split; [| exact Heq].
    intros [= H]. apply app_inv_tail in H. apply Py.utf8_encode_inj in H. contradiction.
  - exists (x01 :: Py.utf8_encode (step_hash step) ++ Py.utf8_encode x),
           (x01 :: Py.utf8_encode (step_hash step) ++ Py.utf8_encode y).
    split; [| exact Heq].
    intros [= H]. apply app_inv_head in H. apply Py.utf8_encode_inj in H. contradiction.
Qed.

Lemma fold_verify_step_inj (steps : list ProofStep) :
  forall x y, x <> y ->
    fold_left verify_step steps x = fold_left verify_step steps y -> collision.
Proof.
  induction steps as [| step steps IH]; intros x y Hxy; cbn [fold_left].
  - intros H. contradiction.
  - intros H.
    destruct (string_dec (verify_step x step) (verify_step y step)) as [Heq | Hne].
    + exact (verify_step_inj step x y Hxy Heq).
    + exact (IH _ _ Hne H).
Qed.

(** X4.  A list of proof steps and a root bind the leaf: when
    [verify_proof] accepts two leaf hashes with the same steps and the same
    root, the two are equal, or two different byte strings with the same
    SHA-256 digest can be read off the run.  The same holds across the
    domain separation: a leaf hash is never the hash of a pair of nodes,
    short of such a collision. *)
Theorem proof_binds_leaf :
  (forall (leaf1 leaf2 : string) (steps : list ProofStep) (root_hash : string),
     verify_proof leaf1 steps root_hash = true ->
     verify_proof leaf2 steps root_hash = true ->
     leaf1 = leaf2 \/ collision) /\
  (forall (item : Item) (left right : string),
     _hash_leaf item = _hash_pair left right -> collision).
Proof.
  split.
  - intros leaf1 leaf2 steps r H1 H2. unfold verify_proof in H1, H2.
    apply bool_decide_eq_true in H1, H2.
    destruct (string_dec leaf1 leaf2) as [Heq | Hne]; [left; exact Heq | right].
    apply (fold_verify_step_inj steps leaf1 leaf2 Hne). congruence.
  - intros item left right H. unfold _hash_leaf, _hash_pair, _sha256 in H.
    eexists _, _. split; [| exact H]. discriminate.
Qed.

(** ** Appending *)

(** In range, [get_proof] returns the leaf, the root and steps that
    [verify_proof] accepts. *)
Lemma get_proof_in_range (self : MerkleTree) (idx : nat) :
  (idx < length (_leaves self))%nat ->
  exists p,
    get_proof self (Z.of_nat idx) = inr p /\
    _leaves self !! idx = Some (leaf_hash p) /\
    root self = Some (root_hash p) /\
    verify_proof (leaf_hash p) (proof_hashes p) (root_hash p) = true.
Proof.
  intros Hidx. unfold get_proof.
  replace (Z.of_nat idx <? 0) with false by (symmetry; apply Z.ltb_ge; lia).
  replace (Z.of_nat idx >=? Z.of_nat (length (_leaves self))) with false
    by (symmetry; rewrite Z.geb_leb; apply Z.leb_gt; lia).
  cbn [orb]. rewrite Nat2Z.id. unfold root, _build_tree.
  destruct (_leaves self) as [| h leaves] eqn:Hleaves; [simpl in Hidx; lia |].
  rewrite <- Hleaves in *.
  destruct (proof_path_replays (_leaves self) _ Hidx)
    as (steps & x & r & Hsteps & Hx & Hr & Hfold).
  rewrite Hsteps, Hx, Hr.
  eexists. split; [reflexivity |]. cbn.
  repeat split; try reflexivity.
  unfold verify_proof. rewrite Hfold. apply bool_decide_eq_true. reflexivity.
Qed.

(** X5.  [append] returns the leaf hash of the item and leaves a log that
    is one leaf longer: every earlier leaf keeps its index, the new hash
    sits at the old [count], and, as the class's usage note has it,
    [get_proof(count - 1)] on the new log returns a proof of the new leaf
    that [verify_proof] accepts against the new root. *)
Theorem append_extends_log (self : MerkleTree) (item : Item) :
  let leaf := fst (append self item) in
  let after := snd (append self item) in
  leaf = _hash_leaf item /\
  count after = count self + 1 /\
  (forall i x, _leaves self !! i = Some x -> _leaves after !! i = Some x) /\
  _leaves after !! Z.to_nat (count self) = Some leaf /\
  exists p,
    get_proof after (count after - 1) = inr p /\
    leaf_hash p = leaf /\
    index p = count self /\
    root after = Some (root_hash p) /\
    verify_proof (leaf_hash p) (proof_hashes p) (root_hash p) = true.
Proof.
  cbn [append fst snd]. unfold count. cbn [_leaves].
  rewrite length_app. cbn [length].
  split; [reflexivity |]. split; [lia |]. split; [| split].
  - intros i x Hi. apply lookup_app_l_Some. exact Hi.
  - rewrite Nat2Z.id. rewrite lookup_app_r by lia.
    rewrite Nat.sub_diag. reflexivity.
  - set (after := mkTree (_leaves self ++ [_hash_leaf item])).
    assert (Hidx : (length (_leaves self) < length (_leaves after))%nat).
    { unfold after. cbn [_leaves]. rewrite length_app. cbn [length]. lia. }
    destruct (get_proof_in_range after _ Hidx) as (p & Hp & Hleaf & Hroot & Hver).
    exists p.
    replace (Z.of_nat (length (_leaves self) + 1) - 1)
      with (Z.of_nat (length (_leaves self))) by lia.
    split; [exact Hp |].
    assert (Hnew : _leaves after !! length (_leaves self) = Some (_hash_leaf item)).
    { unfold after. cbn [_leaves]. rewrite lookup_app_r by lia.
      rewrite Nat.sub_diag. reflexivity. }
    split; [congruence |]. split; [| split; assumption].
    unfold get_proof in Hp.
    destruct ((_ <? 0) || _); [discriminate |].
    destruct (proof_path _ _); [| discriminate].
    destruct (_ !! _); [| discriminate].
    destruct (top _); [| discriminate].
    injection Hp as <-. reflexivity.
Qed.

(** ** [_next_power_of_two] *)

Lemma next_power_loop_spec (p : positive) (n : Z) :
  forall k, 0 <= k -> Z.pos p = 2 ^ k -> (k = 0 \/ 2 ^ (k - 1) < n) ->
  exists k', 0 <= k' /\ next_power_loop p n = 2 ^ k' /\ n <= 2 ^ k' /\
             (k' = 0 \/ 2 ^ (k' - 1) < n).
Proof.
  funelim (next_power_loop p n); intros k Hk Hp Hlow.
  - apply (H (k + 1)); [lia | |].
    + change (Z.pos (Pos.shiftl p 1)) with (2 * Z.pos p).
      rewrite Hp, Z.pow_add_r by lia. lia.
    + right. replace (k + 1 - 1) with k by lia. lia.
  - exists k. repeat split; try assumption; lia.
Qed.

(** X6.  [_next_power_of_two n] is the least power of two that is at least
    [n]: it is 1 for every [n <= 1], and in general a power of two [r] with
    [n <= r] such that no smaller power of two reaches [n]. *)
Theorem next_power_of_two_least (n : Z) :
  let r := _next_power_of_two n in
  n <= r /\
  (exists k, 0 <= k /\ r = 2 ^ k) /\
  (forall j, 0 <= j -> n <= 2 ^ j -> r <= 2 ^ j) /\
  (n <= 1 -> r = 1).
Proof.
  unfold _next_power_of_two. destruct (Z.leb_spec n 1) as [Hn | Hn].
  - split; [lia |]. split; [exists 0; split; [lia | reflexivity] |].
    split; [| reflexivity]. intros j Hj _.
    change 1 with (2 ^ 0). apply Z.pow_le_mono_r; lia.
  - destruct (next_power_loop_spec 1 n 0) as (k & Hk & Hr & Hup & Hlow);
      [lia | reflexivity | left; reflexivity |].
    rewrite Hr. split; [exact Hup |]. split; [eauto |]. split; [| lia].
    intros j Hj Hnj. apply Z.pow_le_mono_r; [lia |].
    destruct Hlow as [-> | Hlow]; [lia |].
    assert (2 ^ (k - 1) < 2 ^ j) by lia.
    apply Z.pow_lt_mono_r_iff in H; lia.
Qed.

End WithHash.
End Merkle.

(* ===================================================================== *)
(** * checks.py: the result of a check                                    *)
(* ===================================================================== *)

Module Checks.
Import Py.

(** The dataclass [CheckResult]; [status] is ["pass"], ["fail"] or
    ["error"]. *)
Record CheckResult := mkCheckResult {
  status : string;
  summary : dict;
  findings : list dict;
  short_description : string;
  description : string
}.

(** One entry of [controls] in [controls.yaml]; the optional fields are
    the ones the code reads with [ctrl.get]. *)
Record Control := mkControl {
  ctrl_id : string;
  ctrl_name : string;
  ctrl_description : option string;
  ctrl_check : string;
  ctrl_params : option dict;
  ctrl_severity : option string;
  ctrl_framework_mappings : option (list (string * list string))
}.

(** A user object of the IdP.  The IdP contract gives every user an [id]
    and a [username]; [enabled] and [attributes] are read with [.get] and
    may be absent; attribute values are lists of strings. *)
Record User := mkUser {
  user_id : string;
  username : string;
  enabled : option bool;
  attributes : option (list (string * list string))
}.

(** The parameters of [terminations_sla] ([sla_days: int],
    [term_attr: str]); [None] when [params] has no such key. *)
Record SlaParams := mkSlaParams {
  param_sla_days : option Z;
  param_termination_attribute : option string
}.

(** A [datetime]: its wall-clock reading in microseconds since the epoch
    and its UTC offset in microseconds, [None] when it is naive. *)
Record datetime := mkDatetime { wall : Z; tzoffset : option Z }.

(** One entry of [breaches]. *)
Record Breach := mkBreach {
  breach_username : string;
  breach_user_id : string;
  termination_requested : string;
  days_open : Z;
  days_overdue : Z
}.

Definition breach_dict (b : Breach) : dict :=
  [("username", PStr (breach_username b));
   ("user_id", PStr (breach_user_id b));
   ("termination_requested", PStr (termination_requested b));
   ("days_open", PInt (days_open b));
   ("days_overdue", PInt (days_overdue b))]%string.

Fixpoint attr_get (attrs : list (string * list string)) (key : string) : list string :=
  match attrs with
  | [] => []
  | (k, v) :: rest => if String.eqb k key then v else attr_get rest key
  end.

(** [not u.get("enabled", True)]. *)
Definition is_disabled (u : User) : bool :=
  match enabled u with
  | Some b => negb b
  | None => false
  end.

(** [(user.get("attributes") or {}).get(term_attr, [])]. *)
Definition raw_dates_of (term_attr : string) (u : User) : list string :=
  attr_get (match attributes u with Some a => a | None => [] end) term_attr.

(** The instant of an aware datetime, in microseconds since the epoch;
    a naive one gets [tzinfo=timezone.utc]. *)
Definition instant (d : datetime) : Z :=
  match tzoffset d with
  | Some offset => wall d - offset
  | None => wall d
  end.

Definition as_utc (d : datetime) : datetime :=
  match tzoffset d with
  | Some _ => d
  | None => {| wall := wall d; tzoffset := Some 0 |}
  end.

(** [(now - term_date).days]: whole days, rounded down. *)
Definition days_between (now : Z) (term_date : datetime) : Z :=
  (now - instant term_date) / 86400000000.

(** The parameters of [new_access_no_approval] ([lookback_days: int],
    [required_attr: str]); [None] when [params] has no such key. *)
Record ApprovalParams := mkApprovalParams {
  param_lookback_days : option Z;
  param_required_attribute : option string
}.

(** A user object as [new_access_no_approval] reads it: the user and its
    [createdTimestamp], in milliseconds since the epoch, read with [.get]
    in the filter and with [user["createdTimestamp"]] in the loop. *)
Record Account := mkAccount {
  account_user : User;
  createdTimestamp : option Z
}.

(** One entry of [non_compliant]. *)
Record Unapproved := mkUnapproved {
  unapproved_username : string;
  unapproved_user_id : string;
  created : string
}.

Definition unapproved_dict (f : Unapproved) : dict :=
  [("username", PStr (unapproved_username f));
   ("user_id", PStr (unapproved_user_id f));
   ("created", PStr (created f))]%string.

(** The parameters of [quarterly_uar] ([max_days: int], [uar_attr: str]). *)
Record UarParams := mkUarParams {
  param_max_days_since_uar : option Z;
  param_uar_attribute : option string
}.

(** The realm representation: its realm-level attributes, texts by name,
    read with [realm.get("attributes") or {}]. *)
Record Realm := mkRealm { realm_attributes : option (list (string * string)) }.

(** The parameters of [admin_access_count] ([role_name: str],
    [max_admins: int]). *)
Record AdminParams := mkAdminParams {
  param_role_name : option string;
  param_max_admins : option Z
}.

(** [u.get("enabled", True)]. *)
Definition is_enabled (u : User) : bool :=
  match enabled u with
  | Some b => b
  | None => true
  end.

(** [u.get("createdTimestamp", 0)]. *)
Definition created_or_zero (a : Account) : Z :=
  match createdTimestamp a with
  | Some ts => ts
  | None => 0
  end.

(** [not (user.get("attributes") or {}).get(required_attr)]: the attribute
    is absent or an empty list. *)
Definition lacks_attribute (required_attr : string) (u : User) : bool :=
  match attr_get (match attributes u with Some a => a | None => [] end) required_attr with
  | [] => true
  | _ :: _ => false
  end.

(** The filter of [recent]: enabled and created at or after the cutoff. *)
Definition is_recent (cutoff_ms : Z) (a : Account) : bool :=
  is_enabled (account_user a) && (cutoff_ms <=? created_or_zero a).

(** A recent account without the approval attribute. *)
Definition is_unapproved (required_attr : string) (cutoff_ms : Z) (a : Account) : bool :=
  is_recent cutoff_ms a && lacks_attribute required_attr (account_user a).

(** [realm_attrs.get(uar_attr)]. *)
Fixpoint realm_attr_get (attrs : list (string * string)) (key : string) : option string :=
  match attrs with
  | [] => None
  | (k, v) :: rest => if String.eqb k key then Some v else realm_attr_get rest key
  end.

(** The finding [admin_access_count] records for one member of the role. *)
Definition admin_dict (u : User) : dict :=
  [("username", PStr (username u)); ("user_id", PStr (user_id u))]%string.

(** [admin_access_count]; [get_role_users] is what
    [kc.get_role_users(role_name)] returns for a role name, or the text of
    the exception it raises. *)
Definition admin_access_count (get_role_users : string -> string + list User)
    (params : AdminParams) : CheckResult :=
  let role_name :=
    match param_role_name params with Some r => r | None => "admin"%string end in
  let max_admins := match param_max_admins params with Some m => m | None => 3 end in
  match get_role_users role_name with
  | inl exc =>
      mkCheckResult "error" [("error", PStr exc); ("role_name", PStr role_name)]%string [] "" ""
  | inr admins =>
      let count := Z.of_nat (length admins) in
      let summary :=
        [("role_name", PStr role_name);
         ("admin_count", PInt count);
         ("max_allowed", PInt max_admins)]%string in
      if count >? max_admins then
        mkCheckResult "fail" summary (map admin_dict admins)
          (cat ["LA.04: Admin account count ("; str_of_Z count; ") exceeds threshold (";
                str_of_Z max_admins; ")"])
          (cat ["The realm has "; str_of_Z count; " users with the '"; role_name;
                "' role, exceeding the approved maximum of "; str_of_Z max_admins; "."])
      else mkCheckResult "pass" summary [] "" ""
  end.

Section WithDatetime.

(** [datetime.fromisoformat(raw)]; [None] stands for [ValueError]. *)
Variable fromisoformat : string -> option datetime.
(** [d.isoformat()]. *)
Variable isoformat : datetime -> string.

(** The state of the loop over the disabled users: the breaches, the
    count [tracked] and the warnings logged so far. *)
Record SlaState := mkSlaState {
  breaches : list Breach;
  tracked : Z;
  warnings : list string
}.

(** One iteration of [for user in disabled]. *)
Definition sla_step (sla_days : Z) (term_attr : string) (now : Z)
    (st : SlaState) (user : User) : SlaState :=
  match raw_dates_of term_attr user with
  | [] => st
  | raw :: _ =>
      let tracked := tracked st + 1 in
      match fromisoformat raw with
      | None =>
          {| breaches := breaches st;
             tracked := tracked;
             warnings :=
               warnings st
               ++ [cat ["terminations_sla: bad date '"; raw; "' for user "; username user]] |}
      | Some parsed =>
          let term_date := as_utc parsed in
          let days_open := days_between now term_date in
          if days_open >? sla_days then
            {| breaches :=
                 breaches st
                 ++ [{| breach_username := username user;
                        breach_user_id := user_id user;
                        termination_requested := isoformat term_date;
                        days_open := days_open;
                        days_overdue := days_open - sla_days |}];
               tracked := tracked;
               warnings := warnings st |}
          else {| breaches := breaches st; tracked := tracked; warnings := warnings st |}
      end
  end.

(** [terminations_sla]; [list_users] is what [kc.list_users()] returns,
    or the text of the exception it raises, and [now] is
    [datetime.now(timezone.utc)] in microseconds since the epoch.  The
    result comes with the warnings logged. *)
Definition terminations_sla (list_users : string + list User) (params : SlaParams)
    (now : Z) : CheckResult * list string :=
  let sla_days := match param_sla_days params with Some d => d | None => 1 end in
  let term_attr :=
    match param_termination_attribute params with
    | Some a => a
    | None => "terminationRequestDate"%string
    end in
  match list_users with
  | inl exc => (mkCheckResult "error" [("error"%string, PStr exc)] [] "" "", [])
  | inr users =>
      let disabled := List.filter is_disabled users in
      let final := fold_left (sla_step sla_days term_attr now) disabled (mkSlaState [] 0 []) in
      let count := Z.of_nat (length (breaches final)) in
      let summary :=
        [("sla_days", PInt sla_days);
         ("disabled_users_with_sla_tracking", PInt (tracked final));
         ("sla_breaches", PInt count)]%string in
      if count >? 0 then
        let names := String.concat ", " (map breach_username (breaches final)) in
        let worst := fold_right Z.max 0 (map days_overdue (breaches final)) in
        (mkCheckResult "fail" summary (map breach_dict (breaches final))
           (cat ["LA.02: "; str_of_Z count; " terminated account(s) breached the ";
                 str_of_Z sla_days; "-day SLA (worst: "; str_of_Z worst; "d overdue)"])
           (cat [str_of_Z count; " account(s) were not disabled within the ";
                 str_of_Z sla_days; "-day SLA after termination request.";
                 String (ascii_of_nat 10) "Affected: "; names]),
         warnings final)
      else (mkCheckResult "pass" summary [] "" "", warnings final)
  end.

(** ** What LA.02 counts *)

(** The user has a (non-empty) termination attribute. *)
Definition has_tracking (term_attr : string) (u : User) : bool :=
  match raw_dates_of term_attr u with
  | [] => false
  | _ :: _ => true
  end.

(** The first value of the user's termination attribute, parsed. *)
Definition parsed_date (term_attr : string) (u : User) : option datetime :=
  match raw_dates_of term_attr u with
  | [] => None
  | raw :: _ => fromisoformat raw
  end.

(** The user has a termination attribute whose first value does not parse. *)
Definition unparseable (term_attr : string) (u : User) : bool :=
  has_tracking term_attr u && negb (bool_decide (is_Some (parsed_date term_attr u))).

(** The user's termination date parses and is more than [sla_days] whole
    days before [now]. *)
Definition is_breach (sla_days : Z) (term_attr : string) (now : Z) (u : User) : bool :=
  match parsed_date term_attr u with
  | Some d => days_between now d >? sla_days
  | None => false
  end.

(** The count the specification describes: the disabled users whose
    termination attribute is present and parses. *)
Definition tracked_as_specified (term_attr : string) (users : list User) : Z :=
  Z.of_nat (length (List.filter
    (fun u => is_disabled u && bool_decide (is_Some (parsed_date term_attr u))) users)).

(** ** LA.01 and LA.03 *)

(** [(datetime.now(timezone.utc) - timedelta(days=lookback_days)).timestamp()]
    for the present instant (in microseconds) and the number of days: the
    seconds since the epoch as a float, or the text of the [OverflowError]
    the date arithmetic raises. *)
Variable cutoff_timestamp : Z -> Z -> string + float.
(** [datetime.fromtimestamp(ts / 1000, tz=timezone.utc).isoformat()], or
    the text of the exception [fromtimestamp] raises. *)
Variable fromtimestamp_isoformat : Z -> string + string.
(** The one-character text U+2014 (an em dash), a code point a [string]
    does not hold here. *)
Variable em_dash : string.

(** One iteration of [for user in recent]; an exception ends the loop and
    leaves the check. *)
Definition approval_step (required_attr : string) (acc : string + list Unapproved)
    (a : Account) : string + list Unapproved :=
  match acc with
  | inl exc => inl exc
  | inr non_compliant =>
      if lacks_attribute required_attr (account_user a) then
        match createdTimestamp a with
        | None => inl "'createdTimestamp'"%string
        | Some ts =>
            match fromtimestamp_isoformat ts with
            | inl exc => inl exc
            | inr text =>
                inr (non_compliant
                     ++ [{| unapproved_username := username (account_user a);
                            unapproved_user_id := user_id (account_user a);
                            created := text |}])
            end
        end
      else inr non_compliant
  end.

(** [new_access_no_approval]; [list_users] is what [kc.list_users()]
    returns, or the text of the exception it raises, and [now] is
    [datetime.now(timezone.utc)] in microseconds since the epoch.  The left
    side of the result is the text of an exception that leaves the
    check. *)
Definition new_access_no_approval (list_users : string + list Account)
    (params : ApprovalParams) (now : Z) : string + CheckResult :=
  let lookback_days := match param_lookback_days params with Some d => d | None => 30 end in
  let required_attr :=
    match param_required_attribute params with
    | Some a => a
    | None => "approvedBy"%string
    end in
  match cutoff_timestamp now lookback_days with
  | inl exc => inl exc
  | inr seconds =>
      match int_of_float (seconds * 1000)%float with
      | inl exc => inl exc
      | inr cutoff_ms =>
          match list_users with
          | inl exc => inr (mkCheckResult "error" [("error"%string, PStr exc)] [] "" "")
          | inr users =>
              let recent := List.filter (is_recent cutoff_ms) users in
              match fold_left (approval_step required_attr) recent (inr []) with
              | inl exc => inl exc
              | inr non_compliant =>
                  let count := Z.of_nat (length non_compliant) in
                  let summary :=
                    [("lookback_days", PInt lookback_days);
                     ("required_attribute", PStr required_attr);
                     ("recent_users_checked", PInt (Z.of_nat (length recent)));
                     ("missing_approval", PInt count)]%string in
                  if count >? 0 then
                    let names :=
                      String.concat ", " (map unapproved_username non_compliant) in
                    inr (mkCheckResult "fail" summary (map unapproved_dict non_compliant)
                           (cat ["LA.01: "; str_of_Z count;
                                 " new account(s) provisioned without approval record"])
                           (cat [str_of_Z count; " account(s) created in the last ";
                                 str_of_Z lookback_days; " days lack the '"; required_attr;
                                 "' attribute."; String (ascii_of_nat 10) "Affected: ";
                                 names]))
                  else inr (mkCheckResult "pass" summary [] "" "")
              end
          end
      end
  end.

(** [quarterly_uar]; [get_realm] is what [kc.get_realm()] returns, or the
    text of the exception it raises. *)
Definition quarterly_uar (get_realm : string + Realm) (params : UarParams) (now : Z)
    : CheckResult :=
  let max_days := match param_max_days_since_uar params with Some d => d | None => 90 end in
  let uar_attr :=
    match param_uar_attribute params with
    | Some a => a
    | None => "lastUarCompletedDate"%string
    end in
  match get_realm with
  | inl exc => mkCheckResult "error" [("error"%string, PStr exc)] [] "" ""
  | inr realm =>
      let realm_attrs := match realm_attributes realm with Some a => a | None => [] end in
      let base_summary :=
        [("max_days_since_uar", PInt max_days); ("uar_attribute", PStr uar_attr)]%string in
      let missing :=
        mkCheckResult "fail"
          (base_summary ++ [("last_uar_date", PNone); ("days_since_uar", PNone)]%string) []
          (cat ["LA.03: No UAR completion date recorded "; em_dash; " review overdue"])
          (cat ["No User Access Review completion date found in the realm attributes. ";
                "A UAR must be completed and the date recorded."]) in
      match realm_attr_get realm_attrs uar_attr with
      | None => missing
      | Some EmptyString => missing
      | Some uar_val =>
          match fromisoformat uar_val with
          | None =>
              mkCheckResult "error"
                [("error"%string, PStr (cat ["Invalid "; uar_attr; " value: '"; uar_val; "'"]))]
                [] "" ""
          | Some parsed =>
              let uar_date := as_utc parsed in
              let days_since := days_between now uar_date in
              let summary :=
                base_summary
                ++ [("last_uar_date", PStr uar_val); ("days_since_uar", PInt days_since)]%string in
              if days_since >? max_days then
                mkCheckResult "fail" summary []
                  (cat ["LA.03: UAR overdue "; em_dash; " last completed ";
                        str_of_Z days_since; " days ago (SLA: every "; str_of_Z max_days;
                        " days)"])
                  (cat ["The last User Access Review was completed "; str_of_Z days_since;
                        " days ago ("; uar_val; "). The required cadence is every ";
                        str_of_Z max_days; " days."])
              else mkCheckResult "pass" summary [] "" ""
          end
      end
  end.

Lemma days_between_as_utc (now : Z) (d : datetime) :
  days_between now (as_utc d) = days_between now d.
Proof.
  unfold days_between, instant, as_utc.
  destruct d as [w [offset |]]; cbn [tzoffset wall]; [reflexivity |].
  rewrite Z.sub_0_r. reflexivity.
Qed.

(** What the loop adds to its state. *)
Lemma sla_fold (sla_days : Z) (term_attr : string) (now : Z) (l : list User) :
  forall st,
    let final := fold_left (sla_step sla_days term_attr now) l st in
    tracked final = tracked st + Z.of_nat (length (List.filter (has_tracking term_attr) l)) /\
    length (breaches final)
      = (length (breaches st)
         + length (List.filter (is_breach sla_days term_attr now) l))%nat /\
    length (warnings final)
      = (length (warnings st) + length (List.filter (unparseable term_attr) l))%nat.
Proof.
  induction l as [| u l IH]; intros st; cbn [fold_left List.filter length].
  - repeat split; lia.
  - destruct (IH (sla_step sla_days term_attr now st u)) as (Ht & Hb & Hw).
    cbv zeta. rewrite Ht, Hb, Hw. clear IH Ht Hb Hw.
    unfold sla_step, has_tracking, is_breach, unparseable, has_tracking, parsed_date.
    destruct (raw_dates_of term_attr u) as [| raw rest]; cbn [andb].
    + repeat split; lia.
    + destruct (fromisoformat raw) as [d |] eqn:Hparse.
      * rewrite days_between_as_utc.
        rewrite bool_decide_eq_true_2 by eauto. cbn [negb].
        destruct (days_between now d >? sla_days); cbn [breaches tracked warnings length];
          rewrite ?length_app; cbn [length]; repeat split; lia.
      * rewrite bool_decide_eq_false_2 by (intros [? ?]; discriminate).
        cbn [negb breaches tracked warnings length].
        rewrite ?length_app. cbn [length]. repeat split; lia.
Qed.

Lemma filter_filter_and {A} (P Q : A -> bool) (l : list A) :
  List.filter Q (List.filter P l) = List.filter (fun x => P x && Q x) l.
Proof.
  induction l as [| x l IH]; [reflexivity |]. cbn [List.filter].
  destruct (P x); cbn [List.filter andb]; rewrite IH; reflexivity.
Qed.

Lemma filter_nonempty_iff {A} (P : A -> bool) (l : list A) :
  (0 < length (List.filter P l))%nat <-> exists x, In x l /\ P x = true.
Proof.
  split.
  - destruct (List.filter P l) as [| x rest] eqn:E; [simpl; lia |]. intros _.
    assert (Hin : In x (List.filter P l)) by (rewrite E; left; reflexivity).
    apply filter_In in Hin. eauto.
  - intros (x & Hin & Hx).
    assert (Hf : In x (List.filter P l)) by (apply filter_In; auto).
    destruct (List.filter P l); [contradiction | simpl; lia].
Qed.

(** C9 as amended.  For every list of users the IdP returns, the LA.02
    check reports [disabled_users_with_sla_tracking] equal to the number of
    disabled users whose termination attribute is present (non-empty),
    whether or not its first value parses as a date; a user whose value
    does not parse is skipped with one warning and is never a breach;
    [sla_breaches] is the number of disabled users whose date parses with
    [days_open > sla_days]; and the status is fail iff there is such a
    user, pass otherwise. *)
Theorem terminations_sla_counts (users : list User) (params : SlaParams) (now : Z) :
  let sla_days := match param_sla_days params with Some d => d | None => 1 end in
  let term_attr :=
    match param_termination_attribute params with
    | Some a => a
    | None => "terminationRequestDate"%string
    end in
  let r := fst (terminations_sla (inr users) params now) in
  let logged := snd (terminations_sla (inr users) params now) in
  get (summary r) "disabled_users_with_sla_tracking" PNone
    = PInt (Z.of_nat (length (List.filter
              (fun u => is_disabled u && has_tracking term_attr u) users))) /\
  get (summary r) "sla_breaches" PNone
    = PInt (Z.of_nat (length (List.filter
              (fun u => is_disabled u && is_breach sla_days term_attr now u) users))) /\
  length logged
    = length (List.filter (fun u => is_disabled u && unparseable term_attr u) users) /\
  (status r = "fail"%string <->
   exists u, In u users /\ is_disabled u = true /\
             is_breach sla_days term_attr now u = true) /\
  (status r = "fail"%string \/ status r = "pass"%string).
Proof.
  intros sla_days term_attr r logged. subst r logged. unfold terminations_sla.
  fold sla_days term_attr.
  destruct (sla_fold sla_days term_attr now (List.filter is_disabled users)
              (mkSlaState [] 0 [])) as (Ht & Hb & Hw).
  cbv zeta in Ht, Hb, Hw. rewrite !filter_filter_and in Ht, Hb, Hw.
  cbn [tracked breaches warnings length] in Ht, Hb, Hw.
  set (final := fold_left (sla_step sla_days term_attr now)
                  (List.filter is_disabled users) (mkSlaState [] 0 [])) in *.
  set (n := length (List.filter
                (fun u => is_disabled u && is_breach sla_days term_attr now u) users)) in *.
  assert (Hex : (0 < n)%nat <->
                exists u, In u users /\ is_disabled u = true /\
                          is_breach sla_days term_attr now u = true).
  { subst n. rewrite filter_nonempty_iff. split.
    - intros (u & Hin & [H1 H2]%andb_prop). eauto.
    - intros (u & Hin & H1 & H2). exists u. rewrite H1, H2. auto. }
  destruct (Z.gtb_spec (Z.of_nat (length (breaches final))) 0) as [Hcount | Hcount];
    cbn [fst snd summary status get lookup_key String.eqb Ascii.eqb Bool.eqb].
  - rewrite Ht, Hb, Hw.
    repeat split; try reflexivity; [intros _; apply Hex; lia | auto].
  - rewrite Ht, Hb, Hw.
    repeat split; try reflexivity; [discriminate | | auto].
    intros Hu. apply Hex in Hu. lia.
Qed.

(** ** What LA.01 counts *)

Lemma length_filter_le {A} (P : A -> bool) (l : list A) :
  (length (List.filter P l) <= length l)%nat.
Proof.
  induction l as [| x l IH]; [reflexivity |]. cbn [List.filter].
  destruct (P x); cbn [length]; lia.
Qed.

Lemma approval_fold_raise (required_attr : string) (l : list Account) (exc : string) :
  fold_left (approval_step required_attr) l (inl exc) = inl exc.
Proof. induction l as [| a l IH]; [reflexivity | exact IH]. Qed.

(** When the loop ends without an exception, it has added one entry for
    each account without the attribute. *)
Lemma approval_fold_inv (required_attr : string) (l : list Account) :
  forall acc non_compliant,
    fold_left (approval_step required_attr) l (inr acc) = inr non_compliant ->
    length non_compliant
    = (length acc
       + length (List.filter (fun a => lacks_attribute required_attr (account_user a)) l))%nat.
Proof.
  induction l as [| a l IH]; intros acc non_compliant; cbn [fold_left List.filter].
  - intros [= <-]. cbn [length]. lia.
  - cbn [approval_step].
    destruct (lacks_attribute required_attr (account_user a)).
    + destruct (createdTimestamp a) as [ts |];
        [| rewrite approval_fold_raise; discriminate].
      destruct (fromtimestamp_isoformat ts) as [exc | text];
        [rewrite approval_fold_raise; discriminate |].
      intros H. apply IH in H. rewrite H, length_app. cbn [length]. lia.
    + apply IH.
Qed.

(** The loop ends without an exception when every account without the
    attribute has a creation time that [fromtimestamp] accepts. *)
Lemma approval_fold_total (required_attr : string) (l : list Account) :
  forall acc,
    (forall a, In a l -> lacks_attribute required_attr (account_user a) = true ->
       exists ts text,
         createdTimestamp a = Some ts /\ fromtimestamp_isoformat ts = inr text) ->
    exists non_compliant,
      fold_left (approval_step required_attr) l (inr acc) = inr non_compliant.
Proof.
  induction l as [| a l IH]; intros acc Hok; cbn [fold_left].
  - eauto.
  - cbn [approval_step].
    destruct (lacks_attribute required_attr (account_user a)) eqn:Hlacks.
    + destruct (Hok a (or_introl eq_refl) Hlacks) as (ts & text & -> & ->).
      apply IH. intros b Hb. apply Hok. right. exact Hb.
    + apply IH. intros b Hb. apply Hok. right. exact Hb.
Qed.

(** The result of the LA.01 check, when it returns one on a list of
    users. *)
Lemma new_access_result (users : list Account) (params : ApprovalParams) (now : Z)
    (r : CheckResult) :
  new_access_no_approval (inr users) params now = inr r ->
  exists cutoff_ms,
    let lookback_days :=
      match param_lookback_days params with Some d => d | None => 30 end in
    let required_attr :=
      match param_required_attribute params with
      | Some a => a
      | None => "approvedBy"%string
      end in
    let checked := Z.of_nat (length (List.filter (is_recent cutoff_ms) users)) in
    let missing :=
      Z.of_nat (length (List.filter (is_unapproved required_attr cutoff_ms) users)) in
    (exists seconds, cutoff_timestamp now lookback_days = inr seconds /\
                     int_of_float (seconds * 1000)%float = inr cutoff_ms) /\
    summary r = [("lookback_days", PInt lookback_days);
                 ("required_attribute", PStr required_attr);
                 ("recent_users_checked", PInt checked);
                 ("missing_approval", PInt missing)]%string /\
    length (findings r) = Z.to_nat missing /\
    0 <= missing <= checked /\
    (status r = "fail"%string /\ 0 < missing \/
     status r = "pass"%string /\ missing = 0).
Proof.
  unfold new_access_no_approval.
  destruct (cutoff_timestamp now _) as [exc | seconds] eqn:Hcut; [discriminate |].
  destruct (int_of_float _) as [exc | cutoff_ms] eqn:Hint; [discriminate |].
  destruct (fold_left _ _ _) as [exc | non_compliant] eqn:Hfold; [discriminate |].
  apply approval_fold_inv in Hfold. rewrite filter_filter_and in Hfold.
  cbn [length Nat.add] in Hfold. fold (is_unapproved
    (match param_required_attribute params with
     | Some a => a
     | None => "approvedBy"%string
     end) cutoff_ms) in Hfold.
  intros Hr. exists cutoff_ms. cbv zeta.
  split; [eauto |].
  assert (Hle : (length (List.filter
                   (is_unapproved
                      (match param_required_attribute params with
                       | Some a => a
                       | None => "approvedBy"%string
                       end) cutoff_ms) users)
                 <= length (List.filter (is_recent cutoff_ms) users))%nat).
  { unfold is_unapproved. rewrite <- filter_filter_and. apply length_filter_le. }
  rewrite <- Hfold in *.
  destruct (Z.gtb_spec (Z.of_nat (length non_compliant)) 0) as [Hpos | Hzero];
    injection Hr as <-; cbn [summary findings status].
  - rewrite length_map, Nat2Z.id.
    split; [reflexivity |]. split; [reflexivity |]. split; [lia |].
    left. split; [reflexivity | lia].
  - split; [reflexivity |]. split; [cbn [length]; lia |]. split; [lia |].
    right. split; [reflexivity | lia].
Qed.

(** X7.  On a list of users, with the cutoff [cutoff_ms] the check
    computes, the result the LA.01 check returns reports
    [recent_users_checked] as the number of enabled users created at or
    after the cutoff (a user without [createdTimestamp] counts as created
    at 0) and [missing_approval] as the number of those whose approval
    attribute is absent or empty, never more than [recent_users_checked];
    it has one finding per such user, and its status is fail iff there is
    one and pass otherwise.  The check returns a result whenever every
    such user has a [createdTimestamp] that [fromtimestamp] accepts, which
    for a positive cutoff is the case of every recent user as far as the
    key is concerned. *)
Theorem new_access_counts
    (users : list Account) (params : ApprovalParams) (now : Z)
    (seconds : float) (cutoff_ms : Z) :
  let lookback_days := match param_lookback_days params with Some d => d | None => 30 end in
  let required_attr :=
    match param_required_attribute params with
    | Some a => a
    | None => "approvedBy"%string
    end in
  let checked := Z.of_nat (length (List.filter (is_recent cutoff_ms) users)) in
  let missing :=
    Z.of_nat (length (List.filter (is_unapproved required_attr cutoff_ms) users)) in
  cutoff_timestamp now lookback_days = inr seconds ->
  int_of_float (seconds * 1000)%float = inr cutoff_ms ->
  (forall r, new_access_no_approval (inr users) params now = inr r ->
     get (summary r) "recent_users_checked" PNone = PInt checked /\
     get (summary r) "missing_approval" PNone = PInt missing /\
     missing <= checked /\
     Z.of_nat (length (findings r)) = missing /\
     (status r = "fail"%string <->
      exists a, In a users /\ is_unapproved required_attr cutoff_ms a = true) /\
     (status r = "fail"%string \/ status r = "pass"%string)) /\
  ((forall a, In a users -> is_unapproved required_attr cutoff_ms a = true ->
      exists ts text,
        createdTimestamp a = Some ts /\ fromtimestamp_isoformat ts = inr text) ->
   exists r, new_access_no_approval (inr users) params now = inr r) /\
  (0 < cutoff_ms ->
   forall a, In a users -> is_recent cutoff_ms a = true -> createdTimestamp a <> None).
Proof.
  intros lookback_days required_attr checked missing Hcut Hint.
  split; [| split].
  - intros r Hr. destruct (new_access_result _ _ _ _ Hr)
      as (cutoff' & (seconds' & Hcut' & Hint') & Hsum & Hfind & Hle & Hstatus).
    fold lookback_days in Hcut'. rewrite Hcut in Hcut'. injection Hcut' as <-.
    rewrite Hint in Hint'. injection Hint' as <-.
    fold required_attr in Hsum, Hfind, Hle, Hstatus. fold checked in Hsum, Hle.
    fold missing in Hsum, Hfind, Hle, Hstatus.
    rewrite Hsum. cbn [get lookup_key String.eqb Ascii.eqb Bool.eqb].
    split; [reflexivity |]. split; [reflexivity |]. split; [lia |]. split; [lia |].
    assert (Hex : 0 < missing <->
                  exists a, In a users /\ is_unapproved required_attr cutoff_ms a = true).
    { unfold missing. rewrite <- filter_nonempty_iff. lia. }
    split.
    + rewrite <- Hex. destruct Hstatus as [[Hs Hm] | [Hs Hm]]; rewrite Hs.
      * split; [intros _; exact Hm | reflexivity].
      * split; [discriminate | lia].
    + destruct Hstatus as [[Hs _] | [Hs _]]; auto.
  - intros Hok. unfold new_access_no_approval.
    fold lookback_days required_attr. rewrite Hcut, Hint.
    destruct (approval_fold_total required_attr
                (List.filter (is_recent cutoff_ms) users) []) as [non_compliant Hfold].
    { intros a [Hin Hrecent]%filter_In Hlacks. apply Hok; [exact Hin |].
      unfold is_unapproved. rewrite Hrecent, Hlacks. reflexivity. }
    rewrite Hfold. destruct (_ >? 0); eauto.
  - intros Hpos a _ Hrecent Habsent. unfold is_recent, created_or_zero in Hrecent.
    rewrite Habsent in Hrecent. apply andb_prop in Hrecent as [_ Hle].
    apply Z.leb_le in Hle. lia.
Qed.

(** ** The results of LA.02 and LA.03 *)

Lemma length_filter_impl {A} (P Q : A -> bool) (l : list A) :
  (forall x, P x = true -> Q x = true) ->
  (length (List.filter P l) <= length (List.filter Q l))%nat.
Proof.
  intros Himpl. induction l as [| x l IH]; [reflexivity |]. cbn [List.filter].
  destruct (P x) eqn:HP.
  - rewrite (Himpl x HP). cbn [length]. lia.
  - destruct (Q x); cbn [length]; lia.
Qed.

(** The result of the LA.02 check on a list of users. *)
Lemma terminations_result (users : list User) (params : SlaParams) (now : Z) :
  let sla_days := match param_sla_days params with Some d => d | None => 1 end in
  let term_attr :=
    match param_termination_attribute params with
    | Some a => a
    | None => "terminationRequestDate"%string
    end in
  let r := fst (terminations_sla (inr users) params now) in
  let n_tracked :=
    Z.of_nat (length (List.filter
      (fun u => is_disabled u && has_tracking term_attr u) users)) in
  let n_breached :=
    Z.of_nat (length (List.filter
      (fun u => is_disabled u && is_breach sla_days term_attr now u) users)) in
  summary r = [("sla_days", PInt sla_days);
               ("disabled_users_with_sla_tracking", PInt n_tracked);
               ("sla_breaches", PInt n_breached)]%string /\
  length (findings r) = Z.to_nat n_breached /\
  0 <= n_breached <= n_tracked /\
  (status r = "fail"%string /\ 0 < n_breached \/
   status r = "pass"%string /\ n_breached = 0).
Proof.
  intros sla_days term_attr r n_tracked n_breached. subst r. unfold terminations_sla.
  fold sla_days term_attr.
  destruct (sla_fold sla_days term_attr now (List.filter is_disabled users)
              (mkSlaState [] 0 [])) as (Ht & Hb & _).
  cbv zeta in Ht, Hb. rewrite !filter_filter_and in Ht, Hb.
  cbn [tracked breaches length] in Ht, Hb.
  fold n_tracked in Ht.
  set (final := fold_left (sla_step sla_days term_attr now)
                  (List.filter is_disabled users) (mkSlaState [] 0 [])) in *.
  assert (Hle : n_breached <= n_tracked).
  { unfold n_breached, n_tracked. apply inj_le, length_filter_impl.
    intros u [Hd Hbreach]%andb_prop. rewrite Hd. cbn [andb].
    unfold is_breach, parsed_date in Hbreach. unfold has_tracking.
    destruct (raw_dates_of term_attr u); [discriminate Hbreach | reflexivity]. }
  assert (Hcount : Z.of_nat (length (breaches final)) = n_breached).
  { unfold n_breached. rewrite Hb. reflexivity. }
  rewrite Hcount, Ht.
  destruct (Z.gtb_spec n_breached 0) as [Hpos | Hzero]; cbn [fst summary findings status].
  - rewrite length_map, <- Hcount, Nat2Z.id.
    split; [rewrite Hcount; reflexivity |]. split; [reflexivity |]. split; [lia |].
    left. split; [reflexivity | lia].
  - split; [reflexivity |]. split; [cbn [length]; lia |]. split; [lia |].
    right. split; [reflexivity | lia].
Qed.

End WithDatetime.

End Checks.

(* ===================================================================== *)
(** * claims.py                                                           *)
(* ===================================================================== *)

Module Claims.
Import Py Checks.

Definition AGENT_ID : string := "meridian-agent".
Definition AGENT_VERSION : string := "2.0.0".
Definition DEFAULT_TTL_SECONDS : Z := 86400.

Inductive ClaimResult :=
| SATISFIED | NOT_SATISFIED | PARTIAL | INDETERMINATE | NOT_APPLICABLE.

(** [ClaimResult.value]. *)
Definition value (r : ClaimResult) : string :=
  match r with
  | SATISFIED => "SATISFIED"
  | NOT_SATISFIED => "NOT_SATISFIED"
  | PARTIAL => "PARTIAL"
  | INDETERMINATE => "INDETERMINATE"
  | NOT_APPLICABLE => "NOT_APPLICABLE"
  end.

Definition CONTROL_DOMAINS : list (string * string) :=
  [("LA.01", "identity_and_access.logical_access.new_access");
   ("LA.02", "identity_and_access.logical_access.terminations");
   ("LA.03", "identity_and_access.logical_access.user_access_review");
   ("LA.04", "identity_and_access.logical_access.admin_access")]%string.

Fixpoint assoc (table : list (string * string)) (key : string) : option string :=
  match table with
  | [] => None
  | (k, v) :: rest => if String.eqb k key then Some v else assoc rest key
  end.

(** The dataclass [Claim]. *)
Record Claim := mkClaim {
  claim_id : string;
  domain : string;
  assertion : string;
  result : ClaimResult;
  confidence : float;
  evidence_refs : list string;
  opinion : string;
  caveats : list string;
  recommendations : list string;
  scope : dict;
  valid_from : string;
  ttl_seconds : Z;
  agent_id : string;
  agent_version : string;
  signature : string
}.

Definition signable_dict (self : Claim) : dict :=
  [("claim_id", PStr (claim_id self));
   ("domain", PStr (domain self));
   ("assertion", PStr (assertion self));
   ("result", PStr (value (result self)));
   ("confidence", PFloat (confidence self));
   ("evidence_refs", PList (map PStr (evidence_refs self)));
   ("opinion", PStr (opinion self));
   ("caveats", PList (map PStr (caveats self)));
   ("recommendations", PList (map PStr (recommendations self)));
   ("scope", PDict (scope self));
   ("valid_from", PStr (valid_from self));
   ("ttl_seconds", PInt (ttl_seconds self));
   ("agent_id", PStr (agent_id self));
   ("agent_version", PStr (agent_version self))]%string.

(** [claim.signature = sig]. *)
Definition set_signature (self : Claim) (sig : string) : Claim :=
  {| claim_id := claim_id self;
     domain := domain self;
     assertion := assertion self;
     result := result self;
     confidence := confidence self;
     evidence_refs := evidence_refs self;
     opinion := opinion self;
     caveats := caveats self;
     recommendations := recommendations self;
     scope := scope self;
     valid_from := valid_from self;
     ttl_seconds := ttl_seconds self;
     agent_id := agent_id self;
     agent_version := agent_version self;
     signature := sig |}.

Definition to_dict (self : Claim) : dict :=
  signable_dict self ++ [("signature"%string, PStr (signature self))].

Definition _build_recommendations (result : CheckResult) (ctrl_id : string) : list string :=
  if String.eqb (status result) "pass" || String.eqb (status result) "error" then []
  else if String.eqb ctrl_id "LA.01" then
    ["Audit provisioning workflow to enforce approval gates before account creation.";
     "Set the required 'approvedBy' attribute for all flagged accounts retroactively.";
     "Enable automated provisioning enforcement that blocks account creation without an approved request."]%string
  else if String.eqb ctrl_id "LA.02" then
    ["Immediately disable access for all accounts past the SLA deadline.";
     "Implement automated deprovisioning triggered by termination events.";
     "Review and tighten the offboarding SLA with HR and IT operations."]%string
  else if String.eqb ctrl_id "LA.03" then
    ["Complete a User Access Review immediately and record the date in realm attributes.";
     "Schedule quarterly UAR reminders and assign a named owner.";
     "Automate UAR initiation and tracking within the IAM platform."]%string
  else if String.eqb ctrl_id "LA.04" then
    ["Immediately remove or downgrade excess privileged accounts.";
     "Implement a Just-in-Time (JIT) privileged access model.";
     "Establish a periodic admin account review cadence."]%string
  else ["Review and remediate the identified control failure."]%string.

Section WithBuiltins.

(** [round(x, ndigits)] on floats. *)
Variable py_round : float -> Z -> float.
(** [str(v)] for the values [str_of] does not spell out (floats, lists,
    dicts). *)
Variable repr_other : pyval -> string.

(** The text an f-string puts for [{v}]. *)
Definition str_of (v : pyval) : string :=
  match v with
  | PNone => "None"
  | PBool true => "True"
  | PBool false => "False"
  | PInt z => str_of_Z z
  | PStr s => s
  | _ => repr_other v
  end.

Definition _compute_confidence (result : CheckResult) (ctrl_id : string) : Py.result float :=
  if String.eqb (status result) "error" then Ok 0.1%float
  else if String.eqb (status result) "pass" then Ok 1.0%float
  else
    let summary := summary result in
    if String.eqb ctrl_id "LA.01" then
      let checked := get summary "recent_users_checked" (PInt 0) in
      let missing := get summary "missing_approval" (PInt 0) in
      bind (gt_zero checked) (fun positive =>
        if positive then
          bind (truediv missing checked) (fun rate => Ok (py_round (1.0 - rate)%float 4))
        else Ok 0.0%float)
    else if String.eqb ctrl_id "LA.02" then
      let tracked := get summary "disabled_users_with_sla_tracking" (PInt 0) in
      let breaches := get summary "sla_breaches" (PInt 0) in
      bind (gt_zero tracked) (fun positive =>
        if positive then
          bind (truediv breaches tracked) (fun rate => Ok (py_round (1.0 - rate)%float 4))
        else Ok 0.0%float)
    else Ok 0.0%float.

Definition _map_result (result : CheckResult) : ClaimResult :=
  if String.eqb (status result) "pass" then SATISFIED
  else if String.eqb (status result) "fail" then NOT_SATISFIED
  else INDETERMINATE.

Definition _build_opinion (result : CheckResult) (ctrl_id ctrl_name : string) : string :=
  if String.eqb (status result) "pass" then
    cat ["All checks for "; ctrl_id; " ("; ctrl_name; ") passed. No issues found."]
  else if String.eqb (status result) "error" then
    let err := get (summary result) "error" (PStr "unknown error") in
    cat ["The agent encountered an error evaluating "; ctrl_id; ": "; str_of err;
         ". Results are inconclusive."]
  else
    let summary := summary result in
    if String.eqb ctrl_id "LA.01" then
      let checked := get summary "recent_users_checked" (PInt 0) in
      let missing := get summary "missing_approval" (PInt 0) in
      cat ["Of "; str_of checked; " account(s) provisioned in the last ";
           str_of (get summary "lookback_days" (PStr "?")); " days, "; str_of missing;
           " lack the '"; str_of (get summary "required_attribute" (PStr "approvedBy"));
           "' approval attribute. ";
           "This indicates accounts provisioned outside the approved workflow."]
    else if String.eqb ctrl_id "LA.02" then
      let breaches := get summary "sla_breaches" (PInt 0) in
      let tracked := get summary "disabled_users_with_sla_tracking" (PInt 0) in
      let sla := get summary "sla_days" (PInt 1) in
      cat [str_of breaches; " of "; str_of tracked;
           " terminated account(s) were not disabled within the "; str_of sla;
           "-day SLA. Delayed revocation leaves residual access active."]
    else if String.eqb ctrl_id "LA.03" then
      let days := get summary "days_since_uar" PNone in
      let max_days := get summary "max_days_since_uar" (PInt 90) in
      match days with
      | PNone => "No User Access Review completion date is recorded. The UAR is overdue."
      | _ =>
          cat ["The last User Access Review was completed "; str_of days; " days ago, ";
               "exceeding the required cadence of every "; str_of max_days; " days."]
      end
    else if String.eqb ctrl_id "LA.04" then
      let count := get summary "admin_count" (PInt 0) in
      let allowed := get summary "max_allowed" (PInt 3) in
      let role := get summary "role_name" (PStr "admin") in
      cat ["There are "; str_of count; " users with the '"; str_of role;
           "' role, exceeding the approved maximum of "; str_of allowed;
           ". Excess privileged accounts expand blast radius."]
    else
      match short_description result with
      | EmptyString => cat [ctrl_id; " control check failed."]
      | text => text
      end.

Definition _build_caveats (result : CheckResult) (ctrl_id : string) : Py.result (list string) :=
  if String.eqb (status result) "error" then
    Ok ["Check failed with an error; evidence may be incomplete."%string]
  else
    let summary := summary result in
    let failed := String.eqb (status result) "fail" in
    let caveats1 :=
      if String.eqb ctrl_id "LA.01" && failed then
        let missing := get summary "missing_approval" (PInt 0) in
        [cat [str_of missing; " account(s) are missing the required approval attribute and ";
              "may represent unauthorised access grants."]]
      else [] in
    let caveats2 :=
      if String.eqb ctrl_id "LA.02" && failed then
        map (fun f =>
               let overdue := get f "days_overdue" (PInt 0) in
               let uname := get f "username" (PStr "?") in
               cat ["User '"; str_of uname; "' is "; str_of overdue;
                    " day(s) overdue for access revocation."])
            (findings result)
      else [] in
    bind (if String.eqb ctrl_id "LA.03" && failed then
            match get summary "days_since_uar" PNone with
            | PNone => Ok ["No UAR completion date found in the realm configuration."%string]
            | days =>
                bind (sub days (get summary "max_days_since_uar" (PInt 90))) (fun over =>
                  Ok [cat ["Access review is "; str_of over; " day(s) overdue."]])
            end
          else Ok []) (fun caveats3 =>
    bind (if String.eqb ctrl_id "LA.04" && failed then
            bind (sub (get summary "admin_count" (PInt 0)) (get summary "max_allowed" (PInt 0)))
              (fun excess =>
                 Ok [cat [str_of excess;
                          " excess privileged account(s) require immediate review and removal."]])
          else Ok []) (fun caveats4 =>
    Ok (caveats1 ++ caveats2 ++ caveats3 ++ caveats4))).

(** The key pair's serialiser and signing primitive (see [Keys]). *)
Context {PrivateKey PublicKey : Type}.
Variable json_dumps : pyval -> string.
Variable ed25519_sign : PrivateKey -> list byte -> list byte.
(** The public key of a private key, and the verification primitive. *)
Variable public_key : PrivateKey -> PublicKey.
Variable ed25519_verify : PublicKey -> list byte -> list byte -> bool.

(** [build_claim]; [uuid4] and [now] are the values of [str(uuid.uuid4())]
    and [datetime.now(timezone.utc).isoformat()] at the call. *)
Definition build_claim (uuid4 now : string) (result : CheckResult) (evidence_id : string)
    (ctrl : Control) (key_pair : @Keys.KeyPair PrivateKey PublicKey)
    (product_ids : list string) : Py.result Claim :=
  let ctrl_id := ctrl_id ctrl in
  let ctrl_name := ctrl_name ctrl in
  bind (_compute_confidence result ctrl_id) (fun confidence =>
  let claim_result :=
    if String.eqb (status result) "pass" then SATISFIED
    else if String.eqb (status result) "error" then INDETERMINATE
    else if (0.0 <? confidence)%float && (confidence <? 1.0)%float then PARTIAL
    else NOT_SATISFIED in
  bind (_build_caveats result ctrl_id) (fun caveats =>
  let claim :=
    {| claim_id := uuid4;
       domain :=
         match assoc CONTROL_DOMAINS ctrl_id with
         | Some d => d
         | None =>
             cat ["identity_and_access.logical_access.";
                  replace_char "." "_" (lower ctrl_id)]
         end;
       assertion :=
         strip match ctrl_description ctrl with Some d => d | None => ctrl_name end;
       result := claim_result;
       confidence := confidence;
       evidence_refs := [evidence_id];
       opinion := _build_opinion result ctrl_id ctrl_name;
       caveats := caveats;
       recommendations := _build_recommendations result ctrl_id;
       scope :=
         [("environment", PStr "production");
          ("products", PList (map PStr product_ids));
          ("systems", PList [PStr "keycloak"]);
          ("realm", PStr "master")]%string;
       valid_from := now;
       ttl_seconds := DEFAULT_TTL_SECONDS;
       agent_id := AGENT_ID;
       agent_version := AGENT_VERSION;
       signature := "" |} in
  Ok (set_signature claim
        (Keys.sign json_dumps ed25519_sign key_pair (PDict (signable_dict claim)))))).

(** ** Confidence and grade *)

(** The grade [build_claim] derives from the status and the confidence. *)
Definition grade (status : string) (confidence : float) : ClaimResult :=
  if String.eqb status "pass" then SATISFIED
  else if String.eqb status "error" then INDETERMINATE
  else if (0.0 <? confidence)%float && (confidence <? 1.0)%float then PARTIAL
  else NOT_SATISFIED.

Lemma build_claim_inv uuid4 now r evidence_id ctrl key_pair product_ids claim :
  build_claim uuid4 now r evidence_id ctrl key_pair product_ids = Ok claim ->
  _compute_confidence r (ctrl_id ctrl) = Ok (confidence claim) /\
  _build_caveats r (ctrl_id ctrl) = Ok (caveats claim) /\
  recommendations claim = _build_recommendations r (ctrl_id ctrl) /\
  result claim = grade (status r) (confidence claim).
Proof.
  unfold build_claim.
  destruct (_compute_confidence r (ctrl_id ctrl)) as [conf | e]; [| discriminate].
  cbn [bind].
  destruct (_build_caveats r (ctrl_id ctrl)) as [cav | e]; [| discriminate].
  cbn [bind]. intros [= <-]. repeat split.
Qed.

Lemma build_claim_total uuid4 now r evidence_id ctrl key_pair product_ids conf cav :
  _compute_confidence r (ctrl_id ctrl) = Ok conf ->
  _build_caveats r (ctrl_id ctrl) = Ok cav ->
  exists claim, build_claim uuid4 now r evidence_id ctrl key_pair product_ids = Ok claim.
Proof.
  intros Hc Hv. unfold build_claim. rewrite Hc. cbn [bind]. rewrite Hv. cbn [bind].
  eexists. reflexivity.
Qed.

(** For LA.01 and LA.02 the caveats are built without arithmetic, so
    without error. *)
Lemma caveats_population (r : CheckResult) (id : string) :
  id = "LA.01"%string \/ id = "LA.02"%string ->
  exists cav, _build_caveats r id = Ok cav.
Proof.
  intros [-> | ->]; unfold _build_caveats;
    destruct (String.eqb (status r) "error"); eauto;
    cbn [String.eqb Ascii.eqb Bool.eqb andb bind]; eauto.
Qed.

(** The confidence of a failed LA.01 or LA.02 control whose two metrics
    are integers: the value of [round(1.0 - (failed / population), 4)],
    the exception of the division included. *)
Lemma population_confidence (r : CheckResult) (id : string) (population failed : Z) :
  status r = "fail"%string ->
  id = "LA.01"%string /\
  get (summary r) "recent_users_checked" (PInt 0) = PInt population /\
  get (summary r) "missing_approval" (PInt 0) = PInt failed \/
  id = "LA.02"%string /\
  get (summary r) "disabled_users_with_sla_tracking" (PInt 0) = PInt population /\
  get (summary r) "sla_breaches" (PInt 0) = PInt failed ->
  _compute_confidence r id
  = if 0 <? population
    then bind (int_truediv failed population)
           (fun rate => Ok (py_round (1.0 - rate)%float 4))
    else Ok 0.0%float.
Proof.
  intros Hs [(-> & Hp & Hf) | (-> & Hp & Hf)];
    unfold _compute_confidence; rewrite Hs, Hp, Hf;
    cbn [String.eqb Ascii.eqb Bool.eqb gt_zero as_number bind truediv];
    destruct (0 <? population); reflexivity.
Qed.

Lemma build_claim_raise uuid4 now r evidence_id ctrl key_pair product_ids e :
  _compute_confidence r (ctrl_id ctrl) = Raise e ->
  build_claim uuid4 now r evidence_id ctrl key_pair product_ids = Raise e.
Proof. intros Hc. unfold build_claim. rewrite Hc. reflexivity. Qed.

(** What [build_claim] returns for a failed LA.01 or LA.02 control with
    integer metrics. *)
Lemma population_claim uuid4 now r evidence_id ctrl key_pair product_ids population failed :
  status r = "fail"%string ->
  ctrl_id ctrl = "LA.01"%string /\
  get (summary r) "recent_users_checked" (PInt 0) = PInt population /\
  get (summary r) "missing_approval" (PInt 0) = PInt failed \/
  ctrl_id ctrl = "LA.02"%string /\
  get (summary r) "disabled_users_with_sla_tracking" (PInt 0) = PInt population /\
  get (summary r) "sla_breaches" (PInt 0) = PInt failed ->
  let built := build_claim uuid4 now r evidence_id ctrl key_pair product_ids in
  (population <= 0 ->
   exists claim, built = Ok claim /\ confidence claim = 0.0%float) /\
  (0 < population ->
   forall rate, int_truediv failed population = Ok rate ->
     exists claim, built = Ok claim /\
       confidence claim = py_round (1.0 - rate)%float 4) /\
  (0 < population ->
   forall e, int_truediv failed population = Raise e -> built = Raise e).
Proof.
  intros Hs Hmetrics built. subst built.
  pose proof (population_confidence r (ctrl_id ctrl) population failed Hs Hmetrics) as Hc.
  assert (Hv : exists cav, _build_caveats r (ctrl_id ctrl) = Ok cav).
  { apply caveats_population. destruct Hmetrics as [(H & _) | (H & _)]; auto. }
  destruct Hv as [cav Hv].
  split; [| split].
  - intros Hle. replace (0 <? population) with false in Hc by (symmetry; apply Z.ltb_ge; lia).
    destruct (build_claim_total uuid4 now r evidence_id ctrl key_pair product_ids _ _ Hc Hv)
      as [claim Hclaim].
    exists claim. split; [exact Hclaim |].
    apply build_claim_inv in Hclaim as (Hc' & _). rewrite Hc in Hc'. congruence.
  - intros Hlt rate Hrate.
    replace (0 <? population) with true in Hc by (symmetry; apply Z.ltb_lt; lia).
    rewrite Hrate in Hc. cbn [bind] in Hc.
    destruct (build_claim_total uuid4 now r evidence_id ctrl key_pair product_ids _ _ Hc Hv)
      as [claim Hclaim].
    exists claim. split; [exact Hclaim |].
    apply build_claim_inv in Hclaim as (Hc' & _). rewrite Hc in Hc'. congruence.
  - intros Hlt e Hrate.
    replace (0 <? population) with true in Hc by (symmetry; apply Z.ltb_lt; lia).
    rewrite Hrate in Hc. cbn [bind] in Hc.
    apply build_claim_raise, Hc.
Qed.

(** C5.  [build_claim] assigns confidence 0.1 on status error and 1.0 on
    status pass; on status fail, for LA.01 it assigns
    [round(1 - missing_approval / recent_users_checked, 4)] when
    [recent_users_checked > 0] and 0.0 otherwise, for LA.02
    [round(1 - sla_breaches / disabled_users_with_sla_tracking, 4)] when
    [disabled_users_with_sla_tracking > 0] and 0.0 otherwise (the metrics
    being the integers of the summary, 0 when absent), and 0.0 for every
    other control id; the claim's result is SATISFIED on pass,
    INDETERMINATE on error, PARTIAL on fail with [0 < confidence < 1] and
    NOT_SATISFIED otherwise.  The quotient is Python's division of two
    integers, [int_truediv]: where it has a value, [build_claim] returns a
    claim with the confidence above, and it has one whenever the metrics
    are counts with [0 <= failed <= population]; where it raises
    (a quotient beyond the range of a float), [build_claim] raises the
    same exception and builds no claim.  On pass, on error and on a failed
    control outside LA.01 to LA.04 [build_claim] returns a claim. *)
Theorem build_claim_confidence_and_grade
    (uuid4 now : string) (r : CheckResult) (evidence_id : string) (ctrl : Control)
    (key_pair : @Keys.KeyPair PrivateKey PublicKey) (product_ids : list string) :
  let id := ctrl_id ctrl in
  let built := build_claim uuid4 now r evidence_id ctrl key_pair product_ids in
  (status r = "error"%string ->
   exists claim, built = Ok claim /\ confidence claim = 0.1%float /\
                 result claim = INDETERMINATE) /\
  (status r = "pass"%string ->
   exists claim, built = Ok claim /\ confidence claim = 1.0%float /\
                 result claim = SATISFIED) /\
  (status r = "fail"%string -> id = "LA.01"%string ->
   forall checked missing,
     get (summary r) "recent_users_checked" (PInt 0) = PInt checked ->
     get (summary r) "missing_approval" (PInt 0) = PInt missing ->
     (checked <= 0 ->
      exists claim, built = Ok claim /\ confidence claim = 0.0%float) /\
     (0 < checked ->
      forall rate, int_truediv missing checked = Ok rate ->
        exists claim, built = Ok claim /\
          confidence claim = py_round (1.0 - rate)%float 4) /\
     (0 < checked ->
      forall e, int_truediv missing checked = Raise e -> built = Raise e) /\
     (0 < checked -> 0 <= missing <= checked ->
      exists rate, int_truediv missing checked = Ok rate)) /\
  (status r = "fail"%string -> id = "LA.02"%string ->
   forall tracked breaches,
     get (summary r) "disabled_users_with_sla_tracking" (PInt 0) = PInt tracked ->
     get (summary r) "sla_breaches" (PInt 0) = PInt breaches ->
     (tracked <= 0 ->
      exists claim, built = Ok claim /\ confidence claim = 0.0%float) /\
     (0 < tracked ->
      forall rate, int_truediv breaches tracked = Ok rate ->
        exists claim, built = Ok claim /\
          confidence claim = py_round (1.0 - rate)%float 4) /\
     (0 < tracked ->
      forall e, int_truediv breaches tracked = Raise e -> built = Raise e) /\
     (0 < tracked -> 0 <= breaches <= tracked ->
      exists rate, int_truediv breaches tracked = Ok rate)) /\
  (status r = "fail"%string -> id <> "LA.01"%string -> id <> "LA.02"%string ->
   forall claim, built = Ok claim -> confidence claim = 0.0%float) /\
  (status r = "fail"%string -> id <> "LA.01"%string -> id <> "LA.02"%string ->
   id <> "LA.03"%string -> id <> "LA.04"%string ->
   exists claim, built = Ok claim /\ confidence claim = 0.0%float /\
                 result claim = NOT_SATISFIED) /\
  (status r = "fail"%string ->
   forall claim, built = Ok claim ->
     result claim
     = if (0.0 <? confidence claim)%float && (confidence claim <? 1.0)%float
       then PARTIAL else NOT_SATISFIED).
Proof.
  intros id built. subst id built.
  split; [| split; [| split; [| split; [| split; [| split]]]]].
  - intros Hs.
    assert (Hc : _compute_confidence r (ctrl_id ctrl) = Ok 0.1%float).
    { unfold _compute_confidence. rewrite Hs. reflexivity. }
    assert (Hv : exists cav, _build_caveats r (ctrl_id ctrl) = Ok cav).
    { unfold _build_caveats. rewrite Hs. cbn. eauto. }
    destruct Hv as [cav Hv].
    destruct (build_claim_total uuid4 now r evidence_id ctrl key_pair product_ids _ _ Hc Hv)
      as [claim Hclaim].
    exists claim. split; [exact Hclaim |].
    apply build_claim_inv in Hclaim as (Hc' & _ & _ & Hg).
    rewrite Hc in Hc'. injection Hc' as Hc'. rewrite Hg, Hs, <- Hc'. split; reflexivity.
  - intros Hs.
    assert (Hc : _compute_confidence r (ctrl_id ctrl) = Ok 1.0%float).
    { unfold _compute_confidence. rewrite Hs. reflexivity. }
    assert (Hv : exists cav, _build_caveats r (ctrl_id ctrl) = Ok cav).
    { unfold _build_caveats. rewrite Hs.
      cbn [String.eqb Ascii.eqb Bool.eqb andb].
      rewrite !andb_false_r. cbn. eauto. }
    destruct Hv as [cav Hv].
    destruct (build_claim_total uuid4 now r evidence_id ctrl key_pair product_ids _ _ Hc Hv)
      as [claim Hclaim].
    exists claim. split; [exact Hclaim |].
    apply build_claim_inv in Hclaim as (Hc' & _ & _ & Hg).
    rewrite Hc in Hc'. injection Hc' as Hc'. rewrite Hg, Hs, <- Hc'. split; reflexivity.
  - intros Hs Hid checked missing Hchecked Hmissing.
    destruct (population_claim uuid4 now r evidence_id ctrl key_pair product_ids
                checked missing Hs (or_introl (conj Hid (conj Hchecked Hmissing))))
      as (Hzero & Hrate & Hraise).
    split; [exact Hzero |]. split; [exact Hrate |]. split; [exact Hraise |].
    intros Hpos Hcounts. apply int_truediv_fraction; assumption.
  - intros Hs Hid tracked breaches Htracked Hbreaches.
    destruct (population_claim uuid4 now r evidence_id ctrl key_pair product_ids
                tracked breaches Hs (or_intror (conj Hid (conj Htracked Hbreaches))))
      as (Hzero & Hrate & Hraise).
    split; [exact Hzero |]. split; [exact Hrate |]. split; [exact Hraise |].
    intros Hpos Hcounts. apply int_truediv_fraction; assumption.
  - intros Hs Hn1 Hn2 claim Hclaim.
    apply build_claim_inv in Hclaim as (Hc & _).
    unfold _compute_confidence in Hc. rewrite Hs in Hc.
    apply String.eqb_neq in Hn1, Hn2. rewrite Hn1, Hn2 in Hc.
    cbn in Hc. congruence.
  - intros Hs Hn1 Hn2 Hn3 Hn4.
    apply String.eqb_neq in Hn1, Hn2, Hn3, Hn4.
    assert (Hc : _compute_confidence r (ctrl_id ctrl) = Ok 0.0%float).
    { unfold _compute_confidence. rewrite Hs, Hn1, Hn2. reflexivity. }
    assert (Hv : _build_caveats r (ctrl_id ctrl) = Ok []).
    { unfold _build_caveats. rewrite Hs, Hn1, Hn2, Hn3, Hn4. reflexivity. }
    destruct (build_claim_total uuid4 now r evidence_id ctrl key_pair product_ids _ _ Hc Hv)
      as [claim Hclaim].
    exists claim. split; [exact Hclaim |].
    apply build_claim_inv in Hclaim as (Hc' & _ & _ & Hg).
    rewrite Hc in Hc'. injection Hc' as Hc'. rewrite Hg, Hs, <- Hc'. split; reflexivity.
  - intros Hs claim Hclaim.
    apply build_claim_inv in Hclaim as (_ & _ & _ & Hg).
    rewrite Hg. unfold grade. rewrite Hs. reflexivity.
Qed.

(** ** Caveats and recommendations *)

(** C8 as amended.  For every check result and control id, the claim
    [build_claim] produces has no recommendations when the status is pass
    or error; its caveats are empty when the status is pass, and are the
    single entry "Check failed with an error; evidence may be incomplete."
    when the status is error. *)
Theorem caveats_on_pass_and_error
    (uuid4 now : string) (r : CheckResult) (evidence_id : string) (ctrl : Control)
    (key_pair : @Keys.KeyPair PrivateKey PublicKey) (product_ids : list string) :
  let built := build_claim uuid4 now r evidence_id ctrl key_pair product_ids in
  (status r = "pass"%string ->
   exists claim, built = Ok claim /\ caveats claim = [] /\ recommendations claim = []) /\
  (status r = "error"%string ->
   exists claim, built = Ok claim /\
     caveats claim = ["Check failed with an error; evidence may be incomplete."%string] /\
     recommendations claim = []).
Proof.
  intros built. subst built. split; intros Hs.
  - assert (Hc : _compute_confidence r (ctrl_id ctrl) = Ok 1.0%float).
    { unfold _compute_confidence. rewrite Hs. reflexivity. }
    assert (Hv : _build_caveats r (ctrl_id ctrl) = Ok []).
    { unfold _build_caveats. rewrite Hs.
      cbn [String.eqb Ascii.eqb Bool.eqb andb].
      rewrite !andb_false_r. reflexivity. }
    destruct (build_claim_total uuid4 now r evidence_id ctrl key_pair product_ids _ _ Hc Hv)
      as [claim Hclaim].
    exists claim. split; [exact Hclaim |].
    apply build_claim_inv in Hclaim as (_ & Hv' & Hr & _).
    rewrite Hv in Hv'. injection Hv' as <-. split; [reflexivity |].
    rewrite Hr. unfold _build_recommendations. rewrite Hs. reflexivity.
  - assert (Hc : _compute_confidence r (ctrl_id ctrl) = Ok 0.1%float).
    { unfold _compute_confidence. rewrite Hs. reflexivity. }
    assert (Hv : _build_caveats r (ctrl_id ctrl)
                 = Ok ["Check failed with an error; evidence may be incomplete."%string]).
    { unfold _build_caveats. rewrite Hs. reflexivity. }
    destruct (build_claim_total uuid4 now r evidence_id ctrl key_pair product_ids _ _ Hc Hv)
      as [claim Hclaim].
    exists claim. split; [exact Hclaim |].
    apply build_claim_inv in Hclaim as (_ & Hv' & Hr & _).
    rewrite Hv in Hv'. injection Hv' as <-. split; [reflexivity |].
    rewrite Hr. unfold _build_recommendations. rewrite Hs. reflexivity.
Qed.

(** The fields [build_claim] copies from its arguments. *)
Lemma build_claim_fields uuid4 now r evidence_id ctrl key_pair product_ids claim :
  build_claim uuid4 now r evidence_id ctrl key_pair product_ids = Ok claim ->
  claim_id claim = uuid4 /\ evidence_refs claim = [evidence_id] /\
  valid_from claim = now /\ ttl_seconds claim = DEFAULT_TTL_SECONDS /\
  lookup_key (scope claim) "products" = Some (PList (map PStr product_ids)).
Proof.
  unfold build_claim.
  destruct (_compute_confidence r (ctrl_id ctrl)) as [conf | e]; [| discriminate].
  cbn [bind].
  destruct (_build_caveats r (ctrl_id ctrl)) as [cav | e]; [| discriminate].
  cbn [bind]. intros [= <-]. repeat split.
Qed.

(** ** The claim's signature *)

Lemma lookup_key_app (d : dict) (k key : string) (v : pyval) :
  lookup_key (d ++ [(k, v)]) key
  = match lookup_key d key with
    | Some x => Some x
    | None => if String.eqb k key then Some v else None
    end.
Proof.
  induction d as [| [k0 v0] d IH]; [reflexivity |]. cbn [app lookup_key].
  destruct (String.eqb k0 key); [reflexivity | exact IH].
Qed.

(** A signature made with a private key verifies under its public key. *)
Hypothesis ed25519_sign_verifies :
  forall k data, ed25519_verify (public_key k) (ed25519_sign k data) data = true.

(** X8.  The signature of a claim [build_claim] returns is the signature
    of its [signable_dict], and [verify] accepts it under the public key
    of the signing key; the signed payload has no ["signature"] entry, and
    [to_dict] is that payload with the signature added under
    ["signature"], every other key unchanged. *)
Theorem claim_signature_verifies
    (uuid4 now : string) (r : CheckResult) (evidence_id : string) (ctrl : Control)
    (private_key : PrivateKey) (product_ids : list string) (claim : Claim) :
  let key_pair := Keys.__init__ public_key private_key in
  build_claim uuid4 now r evidence_id ctrl key_pair product_ids = Ok claim ->
  signature claim = Keys.sign json_dumps ed25519_sign key_pair (PDict (signable_dict claim)) /\
  Keys.verify json_dumps ed25519_verify key_pair (PDict (signable_dict claim))
    (signature claim) = true /\
  lookup_key (signable_dict claim) "signature" = None /\
  lookup_key (to_dict claim) "signature" = Some (PStr (signature claim)) /\
  (forall key, key <> "signature"%string ->
     lookup_key (to_dict claim) key = lookup_key (signable_dict claim) key).
Proof.
  intros key_pair. unfold build_claim.
  destruct (_compute_confidence r (ctrl_id ctrl)) as [conf | e]; [| discriminate].
  cbn [bind].
  destruct (_build_caveats r (ctrl_id ctrl)) as [cav | e]; [| discriminate].
  cbn [bind]. intros [= <-].
  split; [reflexivity |]. split.
  - cbn [signature set_signature].
    change (signable_dict (set_signature ?c ?sig)) with (signable_dict c).
    apply (Keys.sign_then_verify json_dumps public_key ed25519_sign ed25519_verify
             ed25519_sign_verifies).
  - split; [reflexivity |]. unfold to_dict. split.
    + rewrite lookup_key_app. reflexivity.
    + intros key Hkey. rewrite lookup_key_app.
      destruct (lookup_key _ key); [reflexivity |].
      destruct (String.eqb_spec "signature" key) as [<- | _]; [contradiction | reflexivity].
Qed.

(** ** [_map_result] and the grade of a claim *)

(** X9.  The helper [_map_result], which [build_claim] does not call,
    gives the result of the claim [build_claim] returns on status pass and
    on status error; on status fail the two differ exactly when the claim is
    PARTIAL, that is when its confidence lies strictly between 0 and 1;
    and on any other status [_map_result] says INDETERMINATE where
    [build_claim] grades the claim as a failure.  No claim is ever
    NOT_APPLICABLE. *)
Theorem map_result_agrees
    (uuid4 now : string) (r : CheckResult) (evidence_id : string) (ctrl : Control)
    (key_pair : @Keys.KeyPair PrivateKey PublicKey) (product_ids : list string)
    (claim : Claim) :
  build_claim uuid4 now r evidence_id ctrl key_pair product_ids = Ok claim ->
  (status r = "pass"%string \/ status r = "error"%string -> result claim = _map_result r) /\
  (status r = "fail"%string ->
   (result claim = PARTIAL <->
    (0.0 <? confidence claim)%float = true /\ (confidence claim <? 1.0)%float = true) /\
   (result claim <> PARTIAL -> result claim = _map_result r)) /\
  (status r <> "pass"%string -> status r <> "fail"%string -> status r <> "error"%string ->
   _map_result r = INDETERMINATE /\
   (result claim = PARTIAL \/ result claim = NOT_SATISFIED)) /\
  result claim <> NOT_APPLICABLE.
Proof.
  intros Hclaim. apply build_claim_inv in Hclaim as (_ & _ & _ & Hg).
  rewrite Hg. unfold grade, _map_result.
  split; [| split; [| split]].
  - intros [-> | ->]; reflexivity.
  - intros ->. cbn [String.eqb Ascii.eqb Bool.eqb].
    destruct ((0.0 <? confidence claim)%float), ((confidence claim <? 1.0)%float);
      cbn [andb]; intuition (try discriminate; try congruence).
  - intros Hp Hf He. apply String.eqb_neq in Hp, Hf, He. rewrite Hp, Hf, He.
    split; [reflexivity |].
    destruct (_ && _); auto.
  - destruct (String.eqb (status r) "pass"); [discriminate |].
    destruct (String.eqb (status r) "error"); [discriminate |].
    destruct (_ && _); discriminate.
Qed.

End WithBuiltins.
End Claims.

(* ===================================================================== *)
(** * Comparisons of binary64 floats                                      *)
(* ===================================================================== *)

Module FloatOrder.

Lemma SFcompare_swap (x y : spec_float) :
  SFcompare y x = option_map CompOpp (SFcompare x y).
Proof.
  destruct x as [sx | sx | | sx mx ex], y as [sy | sy | | sy my ey]; simpl;
    try reflexivity; try (destruct sx; reflexivity); try (destruct sy; reflexivity);
    try (destruct sx, sy; reflexivity).
  destruct sx, sy; simpl; try reflexivity;
    rewrite (Z.compare_antisym ex ey); destruct (ex ?= ey)%Z; simpl; try reflexivity;
    change (PosDef.Pos.compare_cont Eq my mx) with (Pos.compare my mx);
    change (PosDef.Pos.compare_cont Eq mx my) with (Pos.compare mx my);
    rewrite (Pos.compare_antisym mx my); destruct (mx ?= my)%positive; reflexivity.
Qed.

Ltac cmp_cases :=
  repeat match goal with
  | |- context [Z.compare ?a ?b] => destruct (Z.compare_spec a b); subst
  | |- context [Pos.compare ?a ?b] => destruct (Pos.compare_spec a b); subst
  | |- context [PosDef.Pos.compare_cont Eq ?a ?b] =>
      change (PosDef.Pos.compare_cont Eq a b) with (Pos.compare a b)
  end.

Lemma SFleb_trans (x y z : spec_float) :
  SFleb x y = true -> SFleb y z = true -> SFleb x z = true.
Proof.
  unfold SFleb.
  destruct x as [sx | sx | | sx mx ex], y as [sy | sy | | sy my ey],
           z as [sz | sz | | sz mz ez]; simpl;
    try (intros; discriminate); try (intros; reflexivity);
    try (destruct sx; simpl; intros; (discriminate || reflexivity));
    try (destruct sy; simpl; intros; (discriminate || reflexivity));
    try (destruct sz; simpl; intros; (discriminate || reflexivity));
    try (destruct sx, sy; simpl; intros; (discriminate || reflexivity));
    try (destruct sx, sz; simpl; intros; (discriminate || reflexivity));
    try (destruct sy, sz; simpl; intros; (discriminate || reflexivity)).
  all: destruct sx, sy, sz; simpl; try (intros; (discriminate || reflexivity)).
  all: cmp_cases; simpl; intros; try discriminate; try reflexivity; try lia.
Qed.

(** [<=] is transitive. *)
Lemma leb_trans (x y z : float) :
  (x <=? y)%float = true -> (y <=? z)%float = true -> (x <=? z)%float = true.
Proof. rewrite !leb_spec. apply SFleb_trans. Qed.

(** When neither side is a NaN (each is comparable with something),
    [c < t] is the negation of [t <= c]. *)
Lemma ltb_negb_leb (c t a b : float) :
  (a <=? c)%float = true -> (b <=? t)%float = true ->
  (c <? t)%float = negb (t <=? c)%float.
Proof.
  rewrite ltb_spec, !leb_spec. unfold SFltb, SFleb.
  rewrite (SFcompare_swap (Prim2SF t) (Prim2SF c)).
  intros Hc Ht.
  destruct (SFcompare (Prim2SF t) (Prim2SF c)) as [[| |] |] eqn:E; try reflexivity.
  exfalso.
  destruct (Prim2SF t), (Prim2SF c), (Prim2SF a), (Prim2SF b);
    simpl in *; discriminate.
Qed.

End FloatOrder.

(* ===================================================================== *)
(** * envelope.py                                                         *)
(* ===================================================================== *)

Module Envelope.
Import Py Checks Claims.

Inductive TrustLevel := VERIFIED | HIGH | MEDIUM | LOW | CRITICAL.

Inductive DisclosureLevel := FULL | CLAIMS_ONLY | ZERO_KNOWLEDGE.

Definition trust_level_value (t : TrustLevel) : string :=
  match t with
  | VERIFIED => "VERIFIED"
  | HIGH => "HIGH"
  | MEDIUM => "MEDIUM"
  | LOW => "LOW"
  | CRITICAL => "CRITICAL"
  end.

Definition disclosure_level_value (d : DisclosureLevel) : string :=
  match d with
  | FULL => "FULL"
  | CLAIMS_ONLY => "CLAIMS_ONLY"
  | ZERO_KNOWLEDGE => "ZERO_KNOWLEDGE"
  end.

(** [x >= y] on floats. *)
Definition geb (x y : float) : bool := (y <=? x)%float.

Definition compute_trust_level (composite_confidence : float) : TrustLevel :=
  if geb composite_confidence 0.95 then VERIFIED
  else if geb composite_confidence 0.75 then HIGH
  else if geb composite_confidence 0.55 then MEDIUM
  else if geb composite_confidence 0.30 then LOW
  else CRITICAL.

Record EvidenceSummary := mkEvidenceSummary {
  total_items : Z;
  merkle_root : option string;
  collection_window_start : string;
  collection_window_end : string;
  domains_covered : list string
}.

Definition opt_str (o : option string) : pyval :=
  match o with
  | Some s => PStr s
  | None => PNone
  end.

Definition summary_to_dict (self : EvidenceSummary) : dict :=
  [("total_items", PInt (total_items self));
   ("merkle_root", opt_str (merkle_root self));
   ("collection_window_start", PStr (collection_window_start self));
   ("collection_window_end", PStr (collection_window_end self));
   ("domains_covered", PList (map PStr (domains_covered self)))]%string.

Record TrustEnvelope := mkTrustEnvelope {
  envelope_id : string;
  control_id : string;
  control_name : string;
  product_id : string;
  claims : list dict;
  evidence_summary : EvidenceSummary;
  trust_level : TrustLevel;
  composite_confidence : float;
  domain_scores : dict;
  disclosure_level : DisclosureLevel;
  env_valid_from : string;
  valid_until : string;
  env_agent_id : string;
  env_agent_version : string;
  public_key : string;
  framework_mappings : list (string * list string);
  env_signature : string
}.

Definition signable_dict (self : TrustEnvelope) : dict :=
  [("envelope_id", PStr (envelope_id self));
   ("control_id", PStr (control_id self));
   ("control_name", PStr (control_name self));
   ("product_id", PStr (product_id self));
   ("claims", PList (map PDict (claims self)));
   ("evidence_summary", PDict (summary_to_dict (evidence_summary self)));
   ("trust_level", PStr (trust_level_value (trust_level self)));
   ("composite_confidence", PFloat (composite_confidence self));
   ("domain_scores", PDict (domain_scores self));
   ("disclosure_level", PStr (disclosure_level_value (disclosure_level self)));
   ("valid_from", PStr (env_valid_from self));
   ("valid_until", PStr (valid_until self));
   ("agent_id", PStr (env_agent_id self));
   ("agent_version", PStr (env_agent_version self));
   ("public_key", PStr (public_key self));
   ("framework_mappings",
    PDict (map (fun kv => (fst kv, PList (map PStr (snd kv)))) (framework_mappings self)))
  ]%string.

Definition to_dict (self : TrustEnvelope) : dict :=
  signable_dict self ++ [("signature"%string, PStr (env_signature self))].

(** [envelope.signature = sig]. *)
Definition set_signature (self : TrustEnvelope) (sig : string) : TrustEnvelope :=
  {| envelope_id := envelope_id self;
     control_id := control_id self;
     control_name := control_name self;
     product_id := product_id self;
     claims := claims self;
     evidence_summary := evidence_summary self;
     trust_level := trust_level self;
     composite_confidence := composite_confidence self;
     domain_scores := domain_scores self;
     disclosure_level := disclosure_level self;
     env_valid_from := env_valid_from self;
     valid_until := valid_until self;
     env_agent_id := env_agent_id self;
     env_agent_version := env_agent_version self;
     public_key := public_key self;
     framework_mappings := framework_mappings self;
     env_signature := sig |}.

(** The per-domain accumulator of [_compute_domain_scores]. *)
Record DomainAcc := mkAcc { satisfied : Z; total : Z; confidence_sum : float }.

(** One iteration of the loop over the claims: the domain's entry is
    created on first sight (at the end, as a dict does) and updated in
    place. *)
Fixpoint bump (domains : list (string * DomainAcc)) (claim : Claim)
    : list (string * DomainAcc) :=
  let step (v : DomainAcc) :=
    {| satisfied :=
         match Claims.result claim with
         | SATISFIED => satisfied v + 1
         | _ => satisfied v
         end;
       total := total v + 1;
       confidence_sum := (confidence_sum v + confidence claim)%float |} in
  match domains with
  | [] => [(domain claim, step (mkAcc 0 0 0.0))]
  | (d, v) :: rest =>
      if String.eqb d (domain claim) then (d, step v) :: rest
      else (d, v) :: bump rest claim
  end.

(** The trust levels in their order, CRITICAL lowest. *)
Definition rank (t : TrustLevel) : Z :=
  match t with
  | CRITICAL => 0
  | LOW => 1
  | MEDIUM => 2
  | HIGH => 3
  | VERIFIED => 4
  end.

(** The update [_compute_domain_scores] applies to the entry of the
    claim's domain. *)
Definition bump_entry (claim : Claim) (v : DomainAcc) : DomainAcc :=
  {| satisfied :=
       match Claims.result claim with
       | SATISFIED => satisfied v + 1
       | _ => satisfied v
       end;
     total := total v + 1;
     confidence_sum := (confidence_sum v + confidence claim)%float |}.

(** The claims of one domain, in the order given. *)
Definition in_domain (d : string) (claims : list Claim) : list Claim :=
  List.filter (fun c => String.eqb d (domain c)) claims.

Definition is_satisfied (c : Claim) : bool :=
  match Claims.result c with
  | SATISFIED => true
  | _ => false
  end.

(** The aggregate of one domain: how many of its claims are SATISFIED, how
    many it has, and their confidences added up in order, starting from
    0.0. *)
Definition aggregate (d : string) (claims : list Claim) : DomainAcc :=
  {| satisfied := Z.of_nat (length (List.filter is_satisfied (in_domain d claims)));
     total := Z.of_nat (length (in_domain d claims));
     confidence_sum :=
       fold_left (fun s c => (s + confidence c)%float) (in_domain d claims) 0.0%float |}.

(** The accumulator agrees with the claims processed so far: one entry
    per domain seen, holding the aggregate of that domain. *)
Definition tallies (claims : list Claim) (domains : list (string * DomainAcc)) : Prop :=
  NoDup (map fst domains) /\
  (forall d, In d (map fst domains) <-> In d (map domain claims)) /\
  (forall d v, In (d, v) domains -> v = aggregate d claims).

Section WithBuiltins.

(** [round(x, ndigits)] and [sum(xs)] on floats. *)
Variable py_round : float -> Z -> float.
Variable py_sum : list float -> float.

Definition _compute_domain_scores (claims : list Claim) : dict :=
  let domains := fold_left bump claims [] in
  map (fun dv =>
         let v := snd dv in
         (fst dv,
          PDict [("satisfied"%string, PInt (satisfied v));
                 ("total"%string, PInt (total v));
                 ("avg_confidence"%string,
                  PFloat (if total v =? 0 then 0.0%float
                          else py_round (confidence_sum v / float_of_Z (total v))%float 4))
                ]))
      domains.

(** The hash of the Merkle log and the key pair's primitives. *)
Context {PrivateKey PublicKey : Type}.
Variable sha256_hexdigest : list byte -> string.
Variable json_dumps : pyval -> string.
Variable ed25519_sign : PrivateKey -> list byte -> list byte.
(** [key_pair.public_key_hex]. *)
Variable public_key_hex : @Keys.KeyPair PrivateKey PublicKey -> string.
(** The public key of a private key, and the verification primitive. *)
Variable public_key_of : PrivateKey -> PublicKey.
Variable ed25519_verify : PublicKey -> list byte -> list byte -> bool.

(** [build_trust_envelope]; [uuid4], [valid_from] and [valid_until] are
    the values of [str(uuid.uuid4())], [now.isoformat()] and
    [(now + timedelta(seconds=86_400)).isoformat()] at the call. *)
Definition build_trust_envelope (uuid4 valid_from valid_until : string)
    (ctrl : Control) (product_id : string) (claims : list Claim)
    (merkle_tree : Merkle.MerkleTree) (key_pair : @Keys.KeyPair PrivateKey PublicKey)
    (collection_window_start : string) (disclosure_level : DisclosureLevel)
    : TrustEnvelope :=
  let composite_confidence :=
    match claims with
    | [] => 0.0%float
    | _ =>
        py_round (py_sum (map confidence claims)
                  / float_of_Z (Z.of_nat (length claims)))%float 4
    end in
  let trust_level := compute_trust_level composite_confidence in
  let domain_scores := _compute_domain_scores claims in
  let evidence_summary :=
    {| total_items := Merkle.count merkle_tree;
       merkle_root := Merkle.root sha256_hexdigest merkle_tree;
       collection_window_start := collection_window_start;
       collection_window_end := valid_from;
       domains_covered := map fst domain_scores |} in
  let envelope :=
    {| envelope_id := uuid4;
       control_id := ctrl_id ctrl;
       control_name := ctrl_name ctrl;
       product_id := product_id;
       claims := map Claims.to_dict claims;
       evidence_summary := evidence_summary;
       trust_level := trust_level;
       composite_confidence := composite_confidence;
       domain_scores := domain_scores;
       disclosure_level := disclosure_level;
       env_valid_from := valid_from;
       valid_until := valid_until;
       env_agent_id := AGENT_ID;
       env_agent_version := AGENT_VERSION;
       public_key := public_key_hex key_pair;
       framework_mappings :=
         match ctrl_framework_mappings ctrl with
         | Some m => m
         | None => []
         end;
       env_signature := "" |} in
  set_signature envelope
    (Keys.sign json_dumps ed25519_sign key_pair (PDict (signable_dict envelope))).

(** ** Trust levels *)

Lemma geb_down (c t1 t2 : float) :
  (t1 <=? t2)%float = true -> geb c t2 = true -> geb c t1 = true.
Proof. unfold geb. apply FloatOrder.leb_trans. Qed.

Lemma ltb_negb_geb (c t : float) :
  geb c 0.0 = true -> (t <=? t)%float = true -> (c <? t)%float = negb (geb c t).
Proof. unfold geb. intros Hc Ht. apply (FloatOrder.ltb_negb_leb c t _ _ Hc Ht). Qed.

(** C6.  For every composite confidence [c] with [0.0 <= c <= 1.0],
    [compute_trust_level c] is VERIFIED iff [c >= 0.95], HIGH iff
    [0.75 <= c < 0.95], MEDIUM iff [0.55 <= c < 0.75], LOW iff
    [0.30 <= c < 0.55] and CRITICAL iff [c < 0.30]; the boundary values
    0.0, 0.2999, 0.30, 0.5499, 0.55, 0.7499, 0.75, 0.9499, 0.95 and 1.0
    fall accordingly; and the [trust_level] of every envelope
    [build_trust_envelope] produces is [compute_trust_level] of its
    [composite_confidence]. *)
Theorem trust_level_thresholds :
  (forall c : float,
     geb c 0.0 = true -> geb 1.0 c = true ->
     (compute_trust_level c = VERIFIED <-> geb c 0.95 = true) /\
     (compute_trust_level c = HIGH <-> geb c 0.75 = true /\ (c <? 0.95)%float = true) /\
     (compute_trust_level c = MEDIUM <-> geb c 0.55 = true /\ (c <? 0.75)%float = true) /\
     (compute_trust_level c = LOW <-> geb c 0.30 = true /\ (c <? 0.55)%float = true) /\
     (compute_trust_level c = CRITICAL <-> (c <? 0.30)%float = true)) /\
  (compute_trust_level 0.0 = CRITICAL /\
   compute_trust_level 0.2999 = CRITICAL /\
   compute_trust_level 0.30 = LOW /\
   compute_trust_level 0.5499 = LOW /\
   compute_trust_level 0.55 = MEDIUM /\
   compute_trust_level 0.7499 = MEDIUM /\
   compute_trust_level 0.75 = HIGH /\
   compute_trust_level 0.9499 = HIGH /\
   compute_trust_level 0.95 = VERIFIED /\
   compute_trust_level 1.0 = VERIFIED) /\
  (forall uuid4 valid_from valid_until ctrl product_id claims merkle_tree key_pair
          collection_window_start disclosure_level,
     let envelope :=
       build_trust_envelope uuid4 valid_from valid_until ctrl product_id claims
         merkle_tree key_pair collection_window_start disclosure_level in
     trust_level envelope = compute_trust_level (composite_confidence envelope)).
Proof.
  split; [| split].
  - intros c H0 _.
    rewrite !(ltb_negb_geb c _ H0) by reflexivity.
    pose proof (geb_down c 0.75 0.95 eq_refl) as H75.
    pose proof (geb_down c 0.55 0.75 eq_refl) as H55.
    pose proof (geb_down c 0.30 0.55 eq_refl) as H30.
    unfold compute_trust_level.
    destruct (geb c 0.95), (geb c 0.75), (geb c 0.55), (geb c 0.30);
      cbn [negb]; repeat split; intros; try discriminate; try reflexivity;
      try (destruct_and?; discriminate);
      try (specialize (H75 eq_refl); discriminate);
      try (specialize (H55 eq_refl); discriminate);
      try (specialize (H30 eq_refl); discriminate).
  - repeat split; vm_compute; reflexivity.
  - intros. reflexivity.
Qed.

(** ** The order of the trust levels *)

(** A float that is comparable with something is comparable with itself:
    it is no NaN. *)
Lemma leb_refl_of_leb (t c : float) :
  (t <=? c)%float = true -> (c <=? c)%float = true.
Proof.
  rewrite !leb_spec. unfold SFleb.
  destruct (Prim2SF t) as [st | st | | st mt et], (Prim2SF c) as [sc | sc | | sc mc ec];
    simpl; try discriminate; try reflexivity; intros _;
    try (destruct sc; reflexivity).
  all: destruct sc; rewrite Z.compare_refl;
    change (PosDef.Pos.compare_cont Eq mc mc) with (Pos.compare mc mc);
    rewrite Pos.compare_refl; reflexivity.
Qed.

(** X10.  [compute_trust_level] is monotone: a confidence that is at
    least another one never gets a lower trust level; and a confidence
    that is not comparable with itself (a NaN) is CRITICAL. *)
Theorem trust_level_monotone :
  (forall c1 c2 : float,
     (c1 <=? c2)%float = true ->
     rank (compute_trust_level c1) <= rank (compute_trust_level c2)) /\
  (forall c : float,
     (c <=? c)%float = false -> compute_trust_level c = CRITICAL).
Proof.
  split.
  - intros c1 c2 Hle.
    assert (Hup : forall t, geb c1 t = true -> geb c2 t = true).
    { intros t Ht. unfold geb in *. exact (FloatOrder.leb_trans _ _ _ Ht Hle). }
    pose proof (Hup 0.95%float) as H95. pose proof (Hup 0.75%float) as H75.
    pose proof (Hup 0.55%float) as H55. pose proof (Hup 0.30%float) as H30.
    unfold compute_trust_level.
    destruct (geb c1 0.95); [rewrite (H95 eq_refl); reflexivity |].
    destruct (geb c1 0.75);
      [rewrite (H75 eq_refl); destruct (geb c2 0.95); cbn; lia |].
    destruct (geb c1 0.55);
      [rewrite (H55 eq_refl); destruct (geb c2 0.95), (geb c2 0.75); cbn; lia |].
    destruct (geb c1 0.30);
      [rewrite (H30 eq_refl); destruct (geb c2 0.95), (geb c2 0.75), (geb c2 0.55);
       cbn; lia |].
    destruct (geb c2 0.95), (geb c2 0.75), (geb c2 0.55), (geb c2 0.30); cbn; lia.
  - intros c Hnan.
    assert (Hno : forall t, geb c t = false).
    { intros t. unfold geb. destruct (t <=? c)%float eqn:E; [| reflexivity].
      apply leb_refl_of_leb in E. congruence. }
    unfold compute_trust_level. rewrite !Hno. reflexivity.
Qed.

(** ** Domain scores *)

Lemma in_domain_snoc (d : string) (claims : list Claim) (c : Claim) :
  in_domain d (claims ++ [c])
  = in_domain d claims ++ (if String.eqb d (domain c) then [c] else []).
Proof.
  unfold in_domain. rewrite List.filter_app. cbn [List.filter].
  destruct (String.eqb d (domain c)); reflexivity.
Qed.

Lemma aggregate_other (d : string) (claims : list Claim) (c : Claim) :
  d <> domain c -> aggregate d (claims ++ [c]) = aggregate d claims.
Proof.
  intros Hd. unfold aggregate. rewrite in_domain_snoc.
  apply String.eqb_neq in Hd. rewrite Hd, app_nil_r. reflexivity.
Qed.

Lemma aggregate_same (claims : list Claim) (c : Claim) :
  aggregate (domain c) (claims ++ [c]) = bump_entry c (aggregate (domain c) claims).
Proof.
  unfold aggregate, bump_entry. rewrite in_domain_snoc, String.eqb_refl.
  rewrite List.filter_app, !length_app, fold_left_app.
  cbn [satisfied total confidence_sum List.filter fold_left length].
  unfold is_satisfied at 2.
  destruct (Claims.result c); cbn [length]; f_equal; lia.
Qed.

Lemma aggregate_unseen (d : string) (claims : list Claim) :
  ~ In d (map domain claims) -> aggregate d claims = mkAcc 0 0 0.0.
Proof.
  intros Hd. unfold aggregate.
  assert (Hnil : in_domain d claims = []).
  { unfold in_domain. induction claims as [| c claims IH]; [reflexivity |].
    cbn [List.filter]. destruct (String.eqb_spec d (domain c)) as [-> | Hne].
    - exfalso. apply Hd. left. reflexivity.
    - apply IH. intros Hin. apply Hd. right. exact Hin. }
  rewrite Hnil. reflexivity.
Qed.

(** What one iteration of the loop does to an accumulator with one entry
    per domain: it updates the entry of the claim's domain, or adds one. *)
Lemma bump_spec (domains : list (string * DomainAcc)) (c : Claim) :
  NoDup (map fst domains) ->
  (In (domain c) (map fst domains) -> map fst (bump domains c) = map fst domains) /\
  (~ In (domain c) (map fst domains) ->
     map fst (bump domains c) = map fst domains ++ [domain c]) /\
  (forall d v', In (d, v') (bump domains c) ->
     (d <> domain c /\ In (d, v') domains) \/
     (d = domain c /\
      ((exists v, In (d, v) domains /\ v' = bump_entry c v) \/
       (~ In d (map fst domains) /\ v' = bump_entry c (mkAcc 0 0 0.0))))).
Proof.
  induction domains as [| [d0 v0] rest IH]; intros Hnodup.
  - split; [intros [] |]. split; [reflexivity |].
    intros d v' [[= <- <-] | []]. right. split; [reflexivity |]. right.
    split; [intros [] | reflexivity].
  - cbn [map fst] in Hnodup. apply NoDup_cons in Hnodup as [Hfresh Hrest].
    destruct (IH Hrest) as (IHin & IHout & IHval). clear IH.
    cbn [bump map fst]. fold (bump_entry c).
    destruct (String.eqb_spec d0 (domain c)) as [-> | Hne].
    + split; [reflexivity |]. split; [intros H; exfalso; apply H; left; reflexivity |].
      intros d v' [[= <- <-] | Hin].
      * right. split; [reflexivity |]. left. exists v0. split; [left |]; reflexivity.
      * left. split; [| right; exact Hin].
        intros ->. apply Hfresh. apply list_elem_of_In, in_map_iff.
        exists (domain c, v'). auto.
    + cbn [map fst]. split; [| split].
      * intros [H | H]; [contradiction |]. rewrite (IHin H). reflexivity.
      * intros H. rewrite IHout; [reflexivity |]. intros Hin. apply H. right. exact Hin.
      * intros d v' [[= <- <-] | Hin].
        -- left. split; [exact Hne | left; reflexivity].
        -- destruct (IHval d v' Hin) as [[Hd Hold] | [-> [(v & Hv & ->) | [Hnew ->]]]].
           ++ left. split; [exact Hd | right; exact Hold].
           ++ right. split; [reflexivity |]. left. exists v. split; [right; exact Hv | reflexivity].
           ++ right. split; [reflexivity |]. right. split; [| reflexivity].
              intros [H | H]; [contradiction | exact (Hnew H)].
Qed.

(** One iteration of the loop keeps the accumulator in agreement with
    the claims. *)
Lemma bump_tallies (domains : list (string * DomainAcc)) (claims : list Claim) (c : Claim) :
  tallies claims domains -> tallies (claims ++ [c]) (bump domains c).
Proof.
  intros (Hnodup & Hkeys & Hvals).
  destruct (bump_spec domains c Hnodup) as (Hin & Hout & Hval).
  destruct (in_dec string_dec (domain c) (map fst domains)) as [Hseen | Hunseen].
  - split; [| split].
    + rewrite (Hin Hseen). exact Hnodup.
    + intros d. rewrite (Hin Hseen), Hkeys, map_app, in_app_iff. cbn [map In].
      split; [auto |]. intros [H | [<- | []]]; [exact H |]. apply Hkeys, Hseen.
    + intros d v' Hd. destruct (Hval d v' Hd) as [[Hne Hold] | [-> [(v & Hv & ->) | [Hnew _]]]].
      * rewrite (aggregate_other d claims c Hne). apply Hvals, Hold.
      * rewrite aggregate_same, (Hvals _ _ Hv). reflexivity.
      * contradiction.
  - split; [| split].
    + rewrite (Hout Hunseen). apply NoDup_app. split; [exact Hnodup |].
      split; [| apply NoDup_singleton].
      intros d Hd [<- | []]%list_elem_of_In. apply Hunseen. apply list_elem_of_In, Hd.
    + intros d. rewrite (Hout Hunseen), map_app, !in_app_iff, Hkeys. reflexivity.
    + intros d v' Hd. destruct (Hval d v' Hd) as [[Hne Hold] | [-> [(v & Hv & ->) | [_ ->]]]].
      * rewrite (aggregate_other d claims c Hne). apply Hvals, Hold.
      * exfalso. apply Hunseen. apply in_map_iff. exists (domain c, v). auto.
      * rewrite aggregate_same, (aggregate_unseen (domain c) claims); [reflexivity |].
        intros H. apply Hunseen, Hkeys, H.
Qed.

Lemma fold_bump_tallies (claims : list Claim) : tallies claims (fold_left bump claims []).
Proof.
  induction claims as [| c claims IH] using rev_ind.
  - split; [constructor |]. split; [reflexivity |]. intros d v [].
  - rewrite fold_left_app. cbn [fold_left]. apply bump_tallies, IH.
Qed.

Lemma lookup_key_nodup (d : dict) (key : string) (v : pyval) :
  NoDup (map fst d) -> In (key, v) d -> lookup_key d key = Some v.
Proof.
  induction d as [| [k x] d IH]; intros Hnodup; [intros [] |].
  cbn [map fst] in Hnodup. apply NoDup_cons in Hnodup as [Hfresh Hrest].
  cbn [lookup_key]. intros [[= -> ->] | Hin].
  - rewrite String.eqb_refl. reflexivity.
  - destruct (String.eqb_spec k key) as [-> | _]; [| apply IH; assumption].
    exfalso. apply Hfresh. apply list_elem_of_In, in_map_iff. exists (key, v). auto.
Qed.

(** X11.  [_compute_domain_scores] returns one entry per domain that
    occurs among the claims and none else.  The entry of a domain holds
    [total], the number of claims of that domain (at least 1, so the
    fallback 0.0 of the average is never taken), [satisfied], the number of
    those with result SATISFIED (at most [total]), and [avg_confidence],
    [round] to 4 digits of their confidences, added up in order from 0.0,
    divided by [total]. *)
Theorem domain_scores_aggregate (claims : list Claim) :
  let scores := _compute_domain_scores claims in
  NoDup (map fst scores) /\
  (forall d, In d (map fst scores) <-> In d (map domain claims)) /\
  (forall d, In d (map domain claims) ->
     let mine := in_domain d claims in
     let total := Z.of_nat (length mine) in
     let satisfied := Z.of_nat (length (List.filter is_satisfied mine)) in
     1 <= total /\ 0 <= satisfied <= total /\
     lookup_key scores d
     = Some (PDict
         [("satisfied"%string, PInt satisfied);
          ("total"%string, PInt total);
          ("avg_confidence"%string,
           PFloat (py_round
                     (fold_left (fun s c => (s + confidence c)%float) mine 0.0
                      / float_of_Z total)%float 4))])).
Proof.
  cbv zeta. unfold _compute_domain_scores.
  destruct (fold_bump_tallies claims) as (Hnodup & Hkeys & Hvals).
  set (domains := fold_left bump claims []) in *.
  assert (Hfst : forall l : list (string * DomainAcc),
            map fst (map (fun dv : string * DomainAcc =>
                   (fst dv,
                    PDict [("satisfied"%string, PInt (satisfied (snd dv)));
                           ("total"%string, PInt (total (snd dv)));
                           ("avg_confidence"%string,
                            PFloat (if total (snd dv) =? 0 then 0.0%float
                                    else py_round
                                           (confidence_sum (snd dv)
                                            / float_of_Z (total (snd dv)))%float 4))])) l)
            = map fst l).
  { intros l. rewrite map_map. reflexivity. }
  rewrite Hfst. split; [exact Hnodup |]. split; [exact Hkeys |].
  intros d Hd.
  assert (Hpos : (0 < length (in_domain d claims))%nat).
  { apply filter_nonempty_iff. apply in_map_iff in Hd as (c & <- & Hc).
    exists c. split; [exact Hc | apply String.eqb_refl]. }
  pose proof (length_filter_le is_satisfied (in_domain d claims)) as Hsat.
  split; [lia |]. split; [lia |].
  apply Hkeys in Hd. apply in_map_iff in Hd as ([d' v] & Hfstd & Hin). cbn [fst] in Hfstd.
  subst d'. pose proof (Hvals d v Hin) as Hv.
  apply lookup_key_nodup.
  - rewrite map_map. exact Hnodup.
  - apply in_map_iff. exists (d, v). split; [| exact Hin]. cbn [fst snd].
    rewrite Hv. unfold aggregate. cbn [satisfied total confidence_sum].
    replace (Z.of_nat (length (in_domain d claims)) =? 0) with false
      by (symmetry; apply Z.eqb_neq; lia).
    reflexivity.
Qed.

(** ** The envelope's signature and evidence summary *)

(** A signature made with a private key verifies under its public key. *)
Hypothesis ed25519_sign_verifies :
  forall k data, ed25519_verify (public_key_of k) (ed25519_sign k data) data = true.

(** X12.  The signature of an envelope [build_trust_envelope] returns is
    the signature of its [signable_dict], and [verify] accepts it under the
    public key of the signing key.  The envelope embeds the claims as
    their [to_dict], signatures included, and its evidence summary records
    the count and the root of the Merkle log it was given and the names of
    the domains scored.  Without claims the composite confidence is 0.0,
    the trust level CRITICAL and no domain is scored. *)
Theorem envelope_signature_verifies
    (uuid4 valid_from valid_until : string) (ctrl : Control) (product_id : string)
    (claims : list Claim) (merkle_tree : Merkle.MerkleTree) (private_key : PrivateKey)
    (collection_window_start : string) (disclosure_level : DisclosureLevel) :
  let key_pair := Keys.__init__ public_key_of private_key in
  let envelope :=
    build_trust_envelope uuid4 valid_from valid_until ctrl product_id claims merkle_tree
      key_pair collection_window_start disclosure_level in
  env_signature envelope
    = Keys.sign json_dumps ed25519_sign key_pair (PDict (signable_dict envelope)) /\
  Keys.verify json_dumps ed25519_verify key_pair (PDict (signable_dict envelope))
    (env_signature envelope) = true /\
  lookup_key (signable_dict envelope) "signature" = None /\
  Envelope.claims envelope = map Claims.to_dict claims /\
  total_items (evidence_summary envelope) = Merkle.count merkle_tree /\
  merkle_root (evidence_summary envelope) = Merkle.root sha256_hexdigest merkle_tree /\
  domains_covered (evidence_summary envelope) = map fst (domain_scores envelope) /\
  (claims = [] ->
   composite_confidence envelope = 0.0%float /\ trust_level envelope = CRITICAL /\
   domain_scores envelope = []).
Proof.
  intros key_pair envelope.
  split; [reflexivity |]. split.
  - unfold envelope, build_trust_envelope. cbn [env_signature set_signature].
    change (signable_dict (set_signature ?e ?sig)) with (signable_dict e).
    apply (Keys.sign_then_verify json_dumps public_key_of ed25519_sign ed25519_verify
             ed25519_sign_verifies).
  - split; [reflexivity |]. split; [reflexivity |]. split; [reflexivity |].
    split; [reflexivity |]. split; [reflexivity |].
    intros ->. repeat split.
Qed.

End WithBuiltins.
End Envelope.

(* ===================================================================== *)
(** * signer.py and main.py: the cycle driver                             *)
(* ===================================================================== *)

Module Agent.
Import Py Checks Claims Envelope.

(** A row of the [evidence] table. *)
Record EvidenceRow := mkEvidenceRow {
  ev_id : string;
  ev_control_id : string;
  ev_check_name : string;
  raw_data : dict;
  ev_signature : string;
  merkle_leaf_hash : option string;
  merkle_index : option Z
}.

(** A row of the [control_runs] table. *)
Record RunRow := mkRunRow {
  run_control_id : string;
  run_status : string;
  run_evidence_id : string;
  run_summary : dict;
  ticket_number : option string;
  ticket_sys_id : option string
}.

(** The database: its three tables, rows in insertion order. *)
Record Db := mkDb {
  evidence : list EvidenceRow;
  control_runs : list RunRow;
  trust_envelopes : list TrustEnvelope
}.

(** What [run_cycle] works on and mutates: the in-memory Merkle log and the
    database. *)
Record AgentState := mkState {
  merkle_tree : Merkle.MerkleTree;
  db : Db
}.

(** An entry of [products] in [products.yaml]. *)
Record Product := mkProduct { prod_id : string; prod_controls : list string }.

(** What the outside world does while one product's envelope is built and
    stored. *)
Record EnvelopeWorld := mkEnvelopeWorld {
  ew_uuid4 : string;
  ew_valid_from : string;
  ew_valid_until : string;
  ew_insert_ok : bool
}.

(** What the outside world does while one control is processed: the check
    run against the IdP (its result, or the text of the exception it
    raises), the clock, the database (the id of the new evidence row, or
    [None] when [insert_evidence] raises; whether [insert_run] succeeds)
    and the ticketing service. *)
Record World := mkWorld {
  w_check : string + CheckResult;
  w_collected_at : string;
  w_insert_evidence : option string;
  w_claim_uuid4 : string;
  w_claim_now : string;
  w_envelope : string -> EnvelopeWorld;
  w_is_ticket_open : Py.result bool;
  w_create_ticket : option (string * string);
  w_insert_run_ok : bool
}.

Definition REGISTRY : list string :=
  ["new_access_no_approval"; "terminations_sla"; "quarterly_uar"; "admin_access_count"]%string.

Definition registered (check_name : string) : bool :=
  existsb (String.eqb check_name) REGISTRY.

(** [ctrl_products.get(ctrl_id, [])]: the ids of the products that list
    the control, in file order. *)
Definition product_ids_of (products : list Product) (ctrl_id : string) : list string :=
  flat_map (fun p =>
              map (fun _ => prod_id p)
                  (List.filter (String.eqb ctrl_id) (prod_controls p)))
           products.

(** [db.get_last_ticket]: the newest run of the control with a ticket
    number. *)
Definition get_last_ticket (d : Db) (ctrl_id : string) : option string :=
  match List.filter (fun r => String.eqb (run_control_id r) ctrl_id
                              && bool_decide (is_Some (ticket_number r)))
                    (rev (control_runs d)) with
  | r :: _ => ticket_number r
  | [] => None
  end.

(** The query of [run_cycle] for the newest [ticket_sys_id] of the control. *)
Definition last_sys_id (d : Db) (ctrl_id : string) : option string :=
  match List.filter (fun r => String.eqb (run_control_id r) ctrl_id
                              && bool_decide (is_Some (ticket_sys_id r)))
                    (rev (control_runs d)) with
  | r :: _ => ticket_sys_id r
  | [] => None
  end.

Section WithPrimitives.

Context {PrivateKey PublicKey : Type}.
Variable sha256_hexdigest : list byte -> string.
Variable json_dumps : pyval -> string.
Variable ed25519_sign : PrivateKey -> list byte -> list byte.
Variable public_key_hex : @Keys.KeyPair PrivateKey PublicKey -> string.
Variable py_round : float -> Z -> float.
Variable py_sum : list float -> float.
Variable repr_other : pyval -> string.
(** The public key of a private key, and the verification primitive. *)
Variable public_key_of : PrivateKey -> PublicKey.
Variable ed25519_verify : PublicKey -> list byte -> list byte -> bool.

(** [signer.sign]; [_keypair] is the module-level singleton. *)
Definition signer_sign (_keypair : option (@Keys.KeyPair PrivateKey PublicKey))
    (payload : dict) : Py.result string :=
  match _keypair with
  | None => Raise (RuntimeError "signer.init() must be called before signer.sign()")
  | Some kp => Ok (Keys.sign json_dumps ed25519_sign kp (PDict payload))
  end.

(** The loop over [product_ids]: an exception while an envelope is built
    or stored is logged and the loop goes on. *)
Definition store_envelopes (w : World) (ctrl : Control) (claim : Claim)
    (key_pair : @Keys.KeyPair PrivateKey PublicKey) (run_start : string)
    (tree : Merkle.MerkleTree) (product_ids : list string)
    (envelopes : list TrustEnvelope) : list TrustEnvelope :=
  fold_left
    (fun stored pid =>
       let ew := w_envelope w pid in
       let envelope :=
         build_trust_envelope py_round py_sum sha256_hexdigest json_dumps ed25519_sign
           public_key_hex (ew_uuid4 ew) (ew_valid_from ew) (ew_valid_until ew)
           ctrl pid [claim] tree key_pair run_start FULL in
       if ew_insert_ok ew then stored ++ [envelope] else stored)
    product_ids envelopes.

(** The ticketing logic of one control: the ticket number and sys id the
    run row records. *)
Definition ticket_for (w : World) (d : Db) (ctrl_id : string) (result : CheckResult)
    : Py.result (option string * option string) :=
  if String.eqb (status result) "fail" then
    let create :=
      match w_create_ticket w with
      | Some (number, sys_id) => (Some number, Some sys_id)
      | None => (None, None)
      end in
    match get_last_ticket d ctrl_id with
    | Some last_ticket_number =>
        if String.eqb last_ticket_number "" then Ok create
        else
          match last_sys_id d ctrl_id with
          | Some sys_id =>
              if String.eqb sys_id "" then Ok create
              else
                bind (w_is_ticket_open w) (fun open =>
                  if open then Ok (Some last_ticket_number, Some sys_id) else Ok create)
          | None => Ok create
          end
    | None => Ok create
    end
  else Ok (None, None).

(** The body of [for ctrl in controls] in [run_cycle].  The state it
    returns is the state at the point an exception leaves the body, or
    at its end. *)
Definition run_control (realm : string) (products : list Product) (run_start : string)
    (_keypair : option (@Keys.KeyPair PrivateKey PublicKey))
    (key_pair : @Keys.KeyPair PrivateKey PublicKey)
    (st : AgentState) (ctrl : Control) (w : World) : AgentState * option exn :=
  let ctrl_id := ctrl_id ctrl in
  let ctrl_name := ctrl_name ctrl in
  let check_name := ctrl_check ctrl in
  let product_ids := product_ids_of products ctrl_id in
  if negb (registered check_name) then (st, None)
  else
    let result :=
      match w_check w with
      | inr r => r
      | inl exc => mkCheckResult "error" [("error"%string, PStr exc)] [] "" ""
      end in
    let evidence_payload : dict :=
      [("control_id", PStr ctrl_id);
       ("control_name", PStr ctrl_name);
       ("check", PStr check_name);
       ("collected_at", PStr (w_collected_at w));
       ("collector", PStr "meridian-agent");
       ("realm", PStr realm);
       ("status", PStr (status result));
       ("summary", PDict (summary result))]%string in
    match signer_sign _keypair evidence_payload with
    | Raise e => (st, Some e)
    | Ok sig =>
        let '(leaf_hash, tree1) :=
          Merkle.append sha256_hexdigest json_dumps (merkle_tree st) (PDict evidence_payload) in
        let leaf_index := Merkle.count tree1 - 1 in
        let st1 := {| merkle_tree := tree1; db := db st |} in
        match w_insert_evidence w with
        | None => (st1, Some OperationalError)
        | Some evidence_id =>
            let row :=
              {| ev_id := evidence_id;
                 ev_control_id := ctrl_id;
                 ev_check_name := check_name;
                 raw_data := evidence_payload;
                 ev_signature := sig;
                 merkle_leaf_hash := Some leaf_hash;
                 merkle_index := Some leaf_index |} in
            let db2 :=
              {| evidence := evidence (db st) ++ [row];
                 control_runs := control_runs (db st);
                 trust_envelopes := trust_envelopes (db st) |} in
            let st2 := {| merkle_tree := tree1; db := db2 |} in
            match build_claim py_round repr_other json_dumps ed25519_sign
                    (w_claim_uuid4 w) (w_claim_now w) result evidence_id ctrl key_pair
                    product_ids with
            | Raise e => (st2, Some e)
            | Ok claim =>
                let db3 :=
                  {| evidence := evidence db2;
                     control_runs := control_runs db2;
                     trust_envelopes :=
                       store_envelopes w ctrl claim key_pair run_start tree1 product_ids
                         (trust_envelopes db2) |} in
                let st3 := {| merkle_tree := tree1; db := db3 |} in
                match ticket_for w db3 ctrl_id result with
                | Raise e => (st3, Some e)
                | Ok (number, sys_id) =>
                    if w_insert_run_ok w then
                      ({| merkle_tree := tree1;
                          db :=
                            {| evidence := evidence db3;
                               control_runs :=
                                 control_runs db3
                                 ++ [{| run_control_id := ctrl_id;
                                        run_status := status result;
                                        run_evidence_id := evidence_id;
                                        run_summary := summary result;
                                        ticket_number := number;
                                        ticket_sys_id := sys_id |}];
                               trust_envelopes := trust_envelopes db3 |} |},
                       None)
                    else (st3, Some OperationalError)
                end
            end
        end
    end.

(** [run_cycle]: the controls in order, each with what the world does
    meanwhile; an exception leaves the loop and the function. *)
Fixpoint run_cycle (realm : string) (products : list Product) (run_start : string)
    (_keypair : option (@Keys.KeyPair PrivateKey PublicKey))
    (key_pair : @Keys.KeyPair PrivateKey PublicKey)
    (controls : list (Control * World)) (st : AgentState) : AgentState * option exn :=
  match controls with
  | [] => (st, None)
  | (ctrl, w) :: rest =>
      match run_control realm products run_start _keypair key_pair st ctrl w with
      | (st1, None) => run_cycle realm products run_start _keypair key_pair rest st1
      | (st1, Some e) => (st1, Some e)
      end
  end.

(** The [while True] loop of [main], one iteration per element of
    [cycles]: an exception of [run_cycle] is logged, the connection is
    reopened, and the next cycle runs on the same Merkle log and
    database. *)
Definition main_loop (realm : string) (products : list Product)
    (_keypair : option (@Keys.KeyPair PrivateKey PublicKey))
    (key_pair : @Keys.KeyPair PrivateKey PublicKey)
    (cycles : list (string * list (Control * World))) (st : AgentState) : AgentState :=
  fold_left
    (fun st cycle =>
       fst (run_cycle realm products (fst cycle) _keypair key_pair (snd cycle) st))
    cycles st.

(** The database and the in-memory log agree: the persisted leaf hashes,
    in insertion order, are the leaves of the log, and the persisted
    indices are [0, 1, ..., count - 1]. *)
Definition consistent (st : AgentState) : Prop :=
  map merkle_leaf_hash (evidence (db st)) = map Some (Merkle._leaves (merkle_tree st)) /\
  map merkle_index (evidence (db st))
    = map (fun i => Some (Z.of_nat i)) (seq 0 (length (evidence (db st)))).

(** ** The rest of [signer.py] and of [db.py] *)

(** [signer.init]: the singleton after the call. *)
Definition signer_init (keypair : @Keys.KeyPair PrivateKey PublicKey)
    : option (@Keys.KeyPair PrivateKey PublicKey) :=
  Some keypair.

(** [signer.verify]. *)
Definition signer_verify (_keypair : option (@Keys.KeyPair PrivateKey PublicKey))
    (payload : dict) (signature : string) : Py.result bool :=
  match _keypair with
  | None => Raise (RuntimeError "signer.init() must be called before signer.verify()")
  | Some kp => Ok (Keys.verify json_dumps ed25519_verify kp (PDict payload) signature)
  end.

(** [ORDER BY merkle_index ASC]: a row comes before another when its
    index is not larger; rows without an index come last. *)
Definition index_le (a b : EvidenceRow) : bool :=
  match merkle_index a, merkle_index b with
  | Some x, Some y => x <=? y
  | Some _, None => true
  | None, Some _ => false
  | None, None => true
  end.

Fixpoint insert_by_index (row : EvidenceRow) (sorted : list EvidenceRow)
    : list EvidenceRow :=
  match sorted with
  | [] => [row]
  | r :: rest =>
      if index_le row r then row :: sorted else r :: insert_by_index row rest
  end.

(** The rows in ascending order of [merkle_index]; rows with the same
    index, whose order the query leaves open, stay in insertion order. *)
Definition order_by_merkle_index (rows : list EvidenceRow) : list EvidenceRow :=
  fold_right insert_by_index [] rows.

(** [db.get_evidence_leaf_hashes]. *)
Definition get_evidence_leaf_hashes (d : Db) : list string :=
  omap merkle_leaf_hash
    (order_by_merkle_index
       (List.filter (fun row => bool_decide (is_Some (merkle_leaf_hash row))) (evidence d))).

(** The start of [main]: the log is rebuilt from the persisted leaf
    hashes before the first cycle runs. *)
Definition startup (d : Db) : AgentState :=
  {| merkle_tree := Merkle.reconstruct (get_evidence_leaf_hashes d); db := d |}.

(** ** The parts of one control's run *)

(** The result [run_cycle] works with: the check's, or the error result
    it builds when the check raises. *)
Definition check_result (w : World) : CheckResult :=
  match w_check w with
  | inr r => r
  | inl exc => mkCheckResult "error" [("error"%string, PStr exc)] [] "" ""
  end.

(** The evidence payload of a control. *)
Definition evidence_payload (realm : string) (ctrl : Control) (w : World) : dict :=
  [("control_id", PStr (ctrl_id ctrl));
   ("control_name", PStr (ctrl_name ctrl));
   ("check", PStr (ctrl_check ctrl));
   ("collected_at", PStr (w_collected_at w));
   ("collector", PStr "meridian-agent");
   ("realm", PStr realm);
   ("status", PStr (status (check_result w)));
   ("summary", PDict (summary (check_result w)))]%string.

(** The evidence row of a control, appended to the log [tree]. *)
Definition evidence_row (realm : string) (tree : Merkle.MerkleTree) (ctrl : Control)
    (w : World) (sig evidence_id : string) : EvidenceRow :=
  {| ev_id := evidence_id;
     ev_control_id := ctrl_id ctrl;
     ev_check_name := ctrl_check ctrl;
     raw_data := evidence_payload realm ctrl w;
     ev_signature := sig;
     merkle_leaf_hash :=
       Some (Merkle._hash_leaf sha256_hexdigest json_dumps
               (PDict (evidence_payload realm ctrl w)));
     merkle_index := Some (Merkle.count tree) |}.

(** The run row of a control. *)
Definition run_row (ctrl : Control) (w : World) (evidence_id : string)
    (ticket : option string * option string) : RunRow :=
  {| run_control_id := ctrl_id ctrl;
     run_status := status (check_result w);
     run_evidence_id := evidence_id;
     run_summary := summary (check_result w);
     ticket_number := fst ticket;
     ticket_sys_id := snd ticket |}.

(** The controls of a cycle that name a registered check. *)
Definition processed (controls : list (Control * World)) : list (Control * World) :=
  List.filter (fun cw => registered (ctrl_check (fst cw))) controls.

(** The stored hash of a row is the leaf hash of its payload, and its
    signature verifies over that payload. *)
Definition row_verifies (key_pair : @Keys.KeyPair PrivateKey PublicKey)
    (row : EvidenceRow) : Prop :=
  merkle_leaf_hash row
  = Some (Merkle._hash_leaf sha256_hexdigest json_dumps (PDict (raw_data row))) /\
  Keys.verify json_dumps ed25519_verify key_pair (PDict (raw_data row)) (ev_signature row)
  = true.

(** The index of a row points at its leaf hash in the log. *)
Definition row_in_log (tree : Merkle.MerkleTree) (row : EvidenceRow) : Prop :=
  exists (i : nat) (h : string),
    merkle_index row = Some (Z.of_nat i) /\
    merkle_leaf_hash row = Some h /\
    Merkle._leaves tree !! i = Some h.

(** ** Failures of the load-bearing steps *)

Lemma run_cycle_app realm products run_start _keypair key_pair pre rest st :
  run_cycle realm products run_start _keypair key_pair (pre ++ rest) st
  = match run_cycle realm products run_start _keypair key_pair pre st with
    | (st1, None) => run_cycle realm products run_start _keypair key_pair rest st1
    | (st1, Some e) => (st1, Some e)
    end.
Proof.
  revert st. induction pre as [| [ctrl w] pre IH]; intros st; [reflexivity |].
  cbn [app run_cycle].
  destruct (run_control realm products run_start _keypair key_pair st ctrl w)
    as [st1 [e |]]; [reflexivity | apply IH].
Qed.

(** A control that is processed to its end keeps the database and the
    log in agreement. *)
Lemma run_control_consistent realm products run_start _keypair key_pair st ctrl w st1 :
  consistent st ->
  run_control realm products run_start _keypair key_pair st ctrl w = (st1, None) ->
  consistent st1.
Proof.
  intros [Hleaves Hindex]. unfold run_control.
  destruct (negb (registered (ctrl_check ctrl))); [intros [= <-]; split; assumption |].
  destruct (signer_sign _ _) as [sig | e]; [| discriminate].
  cbn [Merkle.append].
  destruct (w_insert_evidence w) as [evidence_id |]; [| discriminate].
  destruct (build_claim _ _ _ _ _ _ _ _ _ _ _) as [claim | e]; [| discriminate].
  destruct (ticket_for _ _ _ _) as [[number sys_id] | e]; [| discriminate].
  destruct (w_insert_run_ok w); [| discriminate].
  intros [= <-]. unfold consistent. cbn [db merkle_tree evidence Merkle._leaves].
  assert (Hlen : length (evidence (db st)) = length (Merkle._leaves (merkle_tree st))).
  { apply (f_equal (@length _)) in Hleaves. rewrite !length_map in Hleaves. exact Hleaves. }
  rewrite !map_app, length_app, Hleaves, Hindex. cbn [map length].
  rewrite Nat.add_1_r, seq_S, map_app. cbn [map].
  unfold Merkle.count. cbn [Merkle._leaves]. rewrite length_app. cbn [length].
  split; [reflexivity |]. cbn [merkle_index]. rewrite Hlen. do 3 f_equal. lia.
Qed.

Lemma run_cycle_consistent realm products run_start _keypair key_pair controls :
  forall st st1,
    consistent st ->
    run_cycle realm products run_start _keypair key_pair controls st = (st1, None) ->
    consistent st1.
Proof.
  induction controls as [| [ctrl w] rest IH]; intros st st1 Hst; cbn [run_cycle].
  - intros [= <-]. exact Hst.
  - destruct (run_control realm products run_start _keypair key_pair st ctrl w)
      as [st2 [e |]] eqn:Hstep; [discriminate |].
    apply IH. eapply run_control_consistent; eassumption.
Qed.

(** Without a registered key pair, signing fails at the first control
    whose check is registered, before anything is appended or written. *)
Lemma run_cycle_unsigned realm products run_start key_pair controls st :
  run_cycle realm products run_start None key_pair controls st
  = (st, match processed controls with
         | [] => None
         | _ :: _ => Some (RuntimeError "signer.init() must be called before signer.sign()")
         end).
Proof.
  induction controls as [| [ctrl w] rest IH]; [reflexivity |].
  cbn [run_cycle]. unfold processed in *. cbn [List.filter fst]. unfold run_control.
  destruct (registered (ctrl_check ctrl)); cbn [negb signer_sign]; [reflexivity | exact IH].
Qed.

(** C4 as amended.  In the cycle driver, when persisting the evidence row
    fails for a control, the exception leaves [run_cycle]: that control
    and every control after it are abandoned for this cycle, and [main]
    goes on with the next cycle from the state the failure left.  Nothing
    is written to the database for the failed control or the ones after
    it: the tables are as the controls before it left them.  The append is
    not rolled back: the log keeps the leaf of the failed control, one leaf
    more than the controls before it left; so a log that agreed with the
    evidence table when the cycle started still agrees with it after the
    controls before the failure and no longer after it, holding one leaf
    more than there are rows.  When signing fails because no key pair has
    been registered with [signer.init], the one failure [signer.sign]
    raises itself, it fails at the first control whose check is registered:
    no control before it has been processed, and the cycle ends with the
    log and the database as they were when it started. *)
Theorem load_bearing_failure_aborts_cycle
    realm products run_start _keypair key_pair pre ctrl w post later st st1 :
  run_cycle realm products run_start _keypair key_pair pre st = (st1, None) ->
  registered (ctrl_check ctrl) = true ->
  let controls := pre ++ (ctrl, w) :: post in
  let leaf :=
    Merkle._hash_leaf sha256_hexdigest json_dumps (PDict (evidence_payload realm ctrl w)) in
  (forall kp, _keypair = Some kp -> w_insert_evidence w = None ->
     exists st2,
       run_cycle realm products run_start _keypair key_pair controls st
       = (st2, Some OperationalError) /\
       db st2 = db st1 /\
       Merkle._leaves (merkle_tree st2) = Merkle._leaves (merkle_tree st1) ++ [leaf] /\
       (consistent st ->
        consistent st1 /\ ~ consistent st2 /\
        Merkle.count (merkle_tree st2) = Z.of_nat (length (evidence (db st2))) + 1) /\
       main_loop realm products _keypair key_pair ((run_start, controls) :: later) st
       = main_loop realm products _keypair key_pair later st2) /\
  (_keypair = None ->
   st1 = st /\ processed pre = [] /\
   run_cycle realm products run_start _keypair key_pair controls st
   = (st, Some (RuntimeError "signer.init() must be called before signer.sign()")) /\
   main_loop realm products _keypair key_pair ((run_start, controls) :: later) st
   = main_loop realm products _keypair key_pair later st).
Proof.
  intros Hpre Hreg controls leaf. split.
  - intros kp -> Hinsert.
    set (st2 := {| merkle_tree :=
                     snd (Merkle.append sha256_hexdigest json_dumps (merkle_tree st1)
                            (PDict (evidence_payload realm ctrl w)));
                   db := db st1 |}).
    assert (Hstep : run_control realm products run_start (Some kp) key_pair st1 ctrl w
                    = (st2, Some OperationalError)).
    { unfold run_control. rewrite Hreg. cbn [negb signer_sign Merkle.append].
      rewrite Hinsert. reflexivity. }
    assert (Hrun : run_cycle realm products run_start (Some kp) key_pair controls st
                   = (st2, Some OperationalError)).
    { unfold controls. rewrite run_cycle_app, Hpre. cbn [run_cycle]. rewrite Hstep.
      reflexivity. }
    exists st2. split; [exact Hrun |]. split; [reflexivity |]. split; [reflexivity |].
    split.
    + intros Hst.
      pose proof (run_cycle_consistent _ _ _ _ _ _ _ _ Hst Hpre) as Hst1.
      assert (Hlen : length (evidence (db st1)) = length (Merkle._leaves (merkle_tree st1))).
      { destruct Hst1 as [Hleaves _]. apply (f_equal (@length _)) in Hleaves.
        rewrite !length_map in Hleaves. exact Hleaves. }
      split; [exact Hst1 |]. split.
      * intros [Hleaves _]. apply (f_equal (@length _)) in Hleaves.
        rewrite !length_map in Hleaves. subst st2.
        cbn [db merkle_tree Merkle.append snd Merkle._leaves] in Hleaves.
        rewrite length_app in Hleaves. cbn [length] in Hleaves. lia.
      * subst st2. unfold Merkle.count.
        cbn [db merkle_tree Merkle.append snd Merkle._leaves].
        rewrite length_app. cbn [length]. lia.
    + unfold main_loop. cbn [fold_left fst snd]. rewrite Hrun. reflexivity.
  - intros ->.
    rewrite run_cycle_unsigned in Hpre.
    assert (Hst : st1 = st) by congruence.
    assert (Hnone : processed pre = []).
    { destruct (processed pre); [reflexivity | discriminate Hpre]. }
    assert (Hrun : run_cycle realm products run_start None key_pair controls st
                   = (st, Some (RuntimeError
                                  "signer.init() must be called before signer.sign()"))).
    { rewrite run_cycle_unsigned. unfold controls, processed in *.
      rewrite List.filter_app, Hnone. cbn [List.filter fst app]. rewrite Hreg.
      reflexivity. }
    split; [exact Hst |]. split; [exact Hnone |]. split; [exact Hrun |].
    unfold main_loop. cbn [fold_left fst snd]. rewrite Hrun. reflexivity.
Qed.

(** ** What one control leaves behind *)

Lemma count_append (tree : Merkle.MerkleTree) (item : pyval) :
  Merkle.count (snd (Merkle.append sha256_hexdigest json_dumps tree item)) - 1
  = Merkle.count tree.
Proof.
  unfold Merkle.count. cbn [Merkle.append snd Merkle._leaves].
  rewrite length_app. cbn [length]. lia.
Qed.

(** The ticketing logic reads the run rows only. *)
Lemma ticket_for_runs (w : World) (d1 d2 : Db) (id : string) (r : CheckResult) :
  control_runs d1 = control_runs d2 -> ticket_for w d1 id r = ticket_for w d2 id r.
Proof.
  intros H. unfold ticket_for, get_last_ticket, last_sys_id. rewrite H. reflexivity.
Qed.

(** A control that is processed to its end: what was computed on the way
    and what the state holds afterwards. *)
Lemma run_control_completed realm products run_start _keypair key_pair st ctrl w st1 :
  registered (ctrl_check ctrl) = true ->
  run_control realm products run_start _keypair key_pair st ctrl w = (st1, None) ->
  exists sig evidence_id claim ticket,
    signer_sign _keypair (evidence_payload realm ctrl w) = Ok sig /\
    w_insert_evidence w = Some evidence_id /\
    build_claim py_round repr_other json_dumps ed25519_sign (w_claim_uuid4 w)
      (w_claim_now w) (check_result w) evidence_id ctrl key_pair
      (product_ids_of products (ctrl_id ctrl)) = Ok claim /\
    ticket_for w (db st) (ctrl_id ctrl) (check_result w) = Ok ticket /\
    w_insert_run_ok w = true /\
    merkle_tree st1
    = snd (Merkle.append sha256_hexdigest json_dumps (merkle_tree st)
             (PDict (evidence_payload realm ctrl w))) /\
    evidence (db st1)
    = evidence (db st) ++ [evidence_row realm (merkle_tree st) ctrl w sig evidence_id] /\
    control_runs (db st1) = control_runs (db st) ++ [run_row ctrl w evidence_id ticket] /\
    trust_envelopes (db st1)
    = store_envelopes w ctrl claim key_pair run_start (merkle_tree st1)
        (product_ids_of products (ctrl_id ctrl)) (trust_envelopes (db st)).
Proof.
  intros Hreg. unfold run_control. rewrite Hreg. cbn [negb].
  fold (check_result w). fold (evidence_payload realm ctrl w).
  destruct (signer_sign _keypair (evidence_payload realm ctrl w)) as [sig | e];
    [| discriminate].
  destruct (Merkle.append sha256_hexdigest json_dumps (merkle_tree st)
              (PDict (evidence_payload realm ctrl w))) as [leaf_hash tree1] eqn:Happend.
  destruct (w_insert_evidence w) as [evidence_id |]; [| discriminate].
  destruct (build_claim _ _ _ _ _ _ _ _ _ _ _) as [claim | e] eqn:Hclaim; [| discriminate].
  destruct (ticket_for _ _ _ _) as [[number sys_id] | e] eqn:Hticket; [| discriminate].
  destruct (w_insert_run_ok w); [| discriminate].
  intros [= <-]. exists sig, evidence_id, claim, (number, sys_id).
  split; [reflexivity |]. split; [reflexivity |]. split; [exact Hclaim |].
  split; [rewrite <- Hticket; apply ticket_for_runs; reflexivity |].
  split; [reflexivity |].
  cbn [merkle_tree db evidence control_runs trust_envelopes snd].
  split; [reflexivity |]. split; [| split; reflexivity].
  unfold evidence_row. rewrite <- (count_append (merkle_tree st)
    (PDict (evidence_payload realm ctrl w))), Happend.
  injection Happend as <- <-. reflexivity.
Qed.

(** Whatever the outcome of a control's run, the log and the evidence
    table are left untouched, or the log has the payload's leaf appended and
    the table is untouched or has the control's row appended. *)
Lemma run_control_evidence realm products run_start _keypair key_pair st ctrl w st1 e :
  run_control realm products run_start _keypair key_pair st ctrl w = (st1, e) ->
  (merkle_tree st1 = merkle_tree st /\ evidence (db st1) = evidence (db st)) \/
  (exists sig,
     signer_sign _keypair (evidence_payload realm ctrl w) = Ok sig /\
     merkle_tree st1
     = snd (Merkle.append sha256_hexdigest json_dumps (merkle_tree st)
              (PDict (evidence_payload realm ctrl w))) /\
     (evidence (db st1) = evidence (db st) \/
      exists evidence_id,
        evidence (db st1)
        = evidence (db st) ++ [evidence_row realm (merkle_tree st) ctrl w sig evidence_id])).
Proof.
  unfold run_control.
  destruct (negb (registered (ctrl_check ctrl))); [intros [= <- _]; left; auto |].
  fold (check_result w). fold (evidence_payload realm ctrl w).
  destruct (signer_sign _keypair (evidence_payload realm ctrl w)) as [sig | err];
    [| intros [= <- _]; left; auto].
  destruct (Merkle.append sha256_hexdigest json_dumps (merkle_tree st)
              (PDict (evidence_payload realm ctrl w))) as [leaf_hash tree1] eqn:Happend.
  assert (Hrow : forall evidence_id,
            {| ev_id := evidence_id;
               ev_control_id := ctrl_id ctrl;
               ev_check_name := ctrl_check ctrl;
               raw_data := evidence_payload realm ctrl w;
               ev_signature := sig;
               merkle_leaf_hash := Some leaf_hash;
               merkle_index := Some (Merkle.count tree1 - 1) |}
            = evidence_row realm (merkle_tree st) ctrl w sig evidence_id).
  { intros evidence_id. unfold evidence_row.
    rewrite <- (count_append (merkle_tree st) (PDict (evidence_payload realm ctrl w))),
      Happend.
    injection Happend as <- <-. reflexivity. }
  intros Hrun. right. exists sig. split; [reflexivity |]. cbn [snd].
  destruct (w_insert_evidence w) as [evidence_id |];
    [| injection Hrun as <- _; cbn [merkle_tree db]; auto].
  rewrite Hrow in Hrun.
  destruct (build_claim _ _ _ _ _ _ _ _ _ _ _) as [claim | err];
    [| injection Hrun as <- _; cbn [merkle_tree db evidence]; eauto].
  destruct (ticket_for _ _ _ _) as [[number sys_id] | err];
    [| injection Hrun as <- _; cbn [merkle_tree db evidence]; eauto].
  destruct (w_insert_run_ok w); injection Hrun as <- _;
    cbn [merkle_tree db evidence]; eauto.
Qed.

Lemma run_control_skipped realm products run_start _keypair key_pair st ctrl w :
  registered (ctrl_check ctrl) = false ->
  run_control realm products run_start _keypair key_pair st ctrl w = (st, None).
Proof. intros H. unfold run_control. rewrite H. reflexivity. Qed.

(** X13.  A cycle that ends without an exception has processed the
    controls that name a registered check, in order, and skipped the
    others: it has appended one evidence row and one run row per processed
    control, with that control's id, the status of its check and the id of
    its evidence row in the run row, and the Merkle log has grown by exactly
    the leaf hashes of the new evidence rows, in the same order. *)
Theorem completed_cycle_rows realm products run_start _keypair key_pair controls :
  forall st st1,
    run_cycle realm products run_start _keypair key_pair controls st = (st1, None) ->
    exists new_evidence new_runs,
      evidence (db st1) = evidence (db st) ++ new_evidence /\
      control_runs (db st1) = control_runs (db st) ++ new_runs /\
      map ev_control_id new_evidence = map (fun cw => ctrl_id (fst cw)) (processed controls) /\
      map run_control_id new_runs = map (fun cw => ctrl_id (fst cw)) (processed controls) /\
      map run_status new_runs
      = map (fun cw => status (check_result (snd cw))) (processed controls) /\
      map run_evidence_id new_runs = map ev_id new_evidence /\
      map Some (Merkle._leaves (merkle_tree st1))
      = map Some (Merkle._leaves (merkle_tree st)) ++ map merkle_leaf_hash new_evidence /\
      Merkle.count (merkle_tree st1)
      = Merkle.count (merkle_tree st) + Z.of_nat (length (processed controls)).
Proof.
  induction controls as [| [ctrl w] rest IH]; intros st st1; cbn [run_cycle].
  - intros [= <-]. exists [], []. rewrite !app_nil_r. cbn [processed List.filter map length].
    repeat split; lia.
  - destruct (run_control realm products run_start _keypair key_pair st ctrl w)
      as [st2 [e |]] eqn:Hstep; [discriminate |].
    intros Hrest. destruct (IH _ _ Hrest)
      as (ev & runs & Hev & Hruns & Hids & Hrids & Hstat & Hrefs & Hleaves & Hcount).
    unfold processed in *. cbn [List.filter fst snd].
    destruct (registered (ctrl_check ctrl)) eqn:Hreg.
    + destruct (run_control_completed _ _ _ _ _ _ _ _ _ Hreg Hstep)
        as (sig & evidence_id & claim & ticket & _ & _ & _ & _ & _ & Htree & Hev2 & Hruns2 & _).
      exists (evidence_row realm (merkle_tree st) ctrl w sig evidence_id :: ev),
             (run_row ctrl w evidence_id ticket :: runs).
      rewrite Hev, Hev2, Hruns, Hruns2, <- !app_assoc. cbn [app map fst snd length].
      rewrite Hids, Hrids, Hstat, Hrefs, Hleaves, Hcount, Htree.
      cbn [ev_control_id run_control_id run_status run_evidence_id ev_id evidence_row run_row
           merkle_leaf_hash Merkle.append snd Merkle._leaves].
      rewrite map_app, <- app_assoc. cbn [map app].
      repeat split; try reflexivity.
      unfold Merkle.count. cbn [Merkle._leaves]. rewrite length_app. cbn [length]. lia.
    + rewrite (run_control_skipped _ _ _ _ _ _ _ _ Hreg) in Hstep. injection Hstep as <-.
      exists ev, runs. repeat split; assumption.
Qed.

(** ** Signatures and hashes of the persisted rows *)

(** A signature made with a private key verifies under its public key. *)
Hypothesis ed25519_sign_verifies :
  forall k data, ed25519_verify (public_key_of k) (ed25519_sign k data) data = true.

(** X14.  Once [signer.init] has registered the key pair of a private
    key, [signer.verify] accepts what [signer.sign] returns for the same
    payload, and for any signature text it answers as the key pair's own
    [verify]; before [init], both functions raise [RuntimeError]. *)
Theorem signer_round_trip (private_key : PrivateKey) (payload : dict) (signature : string) :
  let keypair := Keys.__init__ public_key_of private_key in
  (exists sig,
     signer_sign (signer_init keypair) payload = Ok sig /\
     signer_verify (signer_init keypair) payload sig = Ok true) /\
  signer_verify (signer_init keypair) payload signature
  = Ok (Keys.verify json_dumps ed25519_verify keypair (PDict payload) signature) /\
  signer_sign None payload
  = Raise (RuntimeError "signer.init() must be called before signer.sign()") /\
  signer_verify None payload signature
  = Raise (RuntimeError "signer.init() must be called before signer.verify()").
Proof.
  intros keypair. split; [| repeat split].
  eexists. split; [reflexivity |]. cbn [signer_verify signer_init]. f_equal.
  apply (Keys.sign_then_verify json_dumps public_key_of ed25519_sign ed25519_verify
           ed25519_sign_verifies).
Qed.

Lemma run_control_rows_verify realm products run_start private_key st ctrl w st1 e :
  let kp := Keys.__init__ public_key_of private_key in
  run_control realm products run_start (signer_init kp) kp st ctrl w = (st1, e) ->
  Forall (row_verifies kp) (evidence (db st)) ->
  Forall (row_verifies kp) (evidence (db st1)).
Proof.
  intros kp Hrun Hold.
  destruct (run_control_evidence _ _ _ _ _ _ _ _ _ _ Hrun)
    as [[_ Hev] | (sig & Hsig & _ & [Hev | [evidence_id Hev]])]; rewrite Hev; try exact Hold.
  apply Forall_app. split; [exact Hold |]. constructor; [| constructor].
  cbn [signer_sign signer_init] in Hsig. injection Hsig as <-.
  split; [reflexivity |]. cbn [raw_data ev_signature evidence_row].
  apply (Keys.sign_then_verify json_dumps public_key_of ed25519_sign ed25519_verify
           ed25519_sign_verifies).
Qed.

Lemma run_cycle_rows_verify realm products run_start private_key controls :
  let kp := Keys.__init__ public_key_of private_key in
  forall st,
    Forall (row_verifies kp) (evidence (db st)) ->
    Forall (row_verifies kp)
      (evidence (db (fst (run_cycle realm products run_start (signer_init kp) kp controls st)))).
Proof.
  intros kp. induction controls as [| [ctrl w] rest IH]; intros st Hst; cbn [run_cycle].
  - exact Hst.
  - destruct (run_control realm products run_start (signer_init kp) kp st ctrl w)
      as [st1 [e |]] eqn:Hstep.
    + cbn [fst]. eapply run_control_rows_verify; eassumption.
    + apply IH. eapply run_control_rows_verify; eassumption.
Qed.

(** X15.  Through any number of cycles of [main], whether they complete
    or are cut short by an exception, every row of the evidence table keeps
    checking out: the stored leaf hash is the leaf hash of the stored
    payload, and the stored signature verifies over that payload under the
    agent's key pair (the one [main] hands to [signer.init] and to
    [run_cycle]). *)
Theorem persisted_rows_verify realm products private_key cycles :
  let kp := Keys.__init__ public_key_of private_key in
  forall st,
    Forall (row_verifies kp) (evidence (db st)) ->
    Forall (row_verifies kp)
      (evidence (db (main_loop realm products (signer_init kp) kp cycles st))).
Proof.
  intros kp. unfold main_loop.
  induction cycles as [| [run_start controls] rest IH]; intros st Hst; cbn [fold_left].
  - exact Hst.
  - apply IH. cbn [fst snd]. apply run_cycle_rows_verify. exact Hst.
Qed.

(** ** Inclusion proofs of the persisted rows *)

Lemma row_in_log_append (tree : Merkle.MerkleTree) (item : pyval) (row : EvidenceRow) :
  row_in_log tree row ->
  row_in_log (snd (Merkle.append sha256_hexdigest json_dumps tree item)) row.
Proof.
  intros (i & h & Hi & Hh & Hleaf). exists i, h. split; [exact Hi |]. split; [exact Hh |].
  cbn [Merkle.append snd Merkle._leaves]. apply lookup_app_l_Some. exact Hleaf.
Qed.

Lemma run_control_rows_in_log realm products run_start _keypair key_pair st ctrl w st1 e :
  run_control realm products run_start _keypair key_pair st ctrl w = (st1, e) ->
  Forall (row_in_log (merkle_tree st)) (evidence (db st)) ->
  Forall (row_in_log (merkle_tree st1)) (evidence (db st1)).
Proof.
  intros Hrun Hold.
  destruct (run_control_evidence _ _ _ _ _ _ _ _ _ _ Hrun)
    as [[Htree Hev] | (sig & _ & Htree & Hev)]; rewrite Htree.
  - rewrite Hev. exact Hold.
  - assert (Hkept : Forall (row_in_log
               (snd (Merkle.append sha256_hexdigest json_dumps (merkle_tree st)
                       (PDict (evidence_payload realm ctrl w))))) (evidence (db st))).
    { eapply Forall_impl; [exact Hold |]. intros row. apply row_in_log_append. }
    destruct Hev as [Hev | [evidence_id Hev]]; rewrite Hev; [exact Hkept |].
    apply Forall_app. split; [exact Hkept |]. constructor; [| constructor].
    exists (length (Merkle._leaves (merkle_tree st))), 
           (Merkle._hash_leaf sha256_hexdigest json_dumps
              (PDict (evidence_payload realm ctrl w))).
    split; [reflexivity |]. split; [reflexivity |].
    cbn [Merkle.append snd Merkle._leaves]. rewrite lookup_app_r by lia.
    rewrite Nat.sub_diag. reflexivity.
Qed.

Lemma run_cycle_rows_in_log realm products run_start _keypair key_pair controls :
  forall st,
    Forall (row_in_log (merkle_tree st)) (evidence (db st)) ->
    let st1 := fst (run_cycle realm products run_start _keypair key_pair controls st) in
    Forall (row_in_log (merkle_tree st1)) (evidence (db st1)).
Proof.
  induction controls as [| [ctrl w] rest IH]; intros st Hst; cbn [run_cycle].
  - exact Hst.
  - destruct (run_control realm products run_start _keypair key_pair st ctrl w)
      as [st1 [e |]] eqn:Hstep.
    + cbn [fst]. eapply run_control_rows_in_log; eassumption.
    + apply IH. eapply run_control_rows_in_log; eassumption.
Qed.

(** X16.  Through any number of cycles of [main], complete or cut short,
    the [merkle_index] of every row of the evidence table keeps pointing at
    the row's leaf hash in the in-memory log; so for every persisted row
    [get_proof] at its [merkle_index] returns a proof of the row's leaf hash
    that [verify_proof] accepts against the current root. *)
Theorem persisted_rows_have_proofs realm products _keypair key_pair cycles :
  forall st,
    Forall (row_in_log (merkle_tree st)) (evidence (db st)) ->
    let st1 := main_loop realm products _keypair key_pair cycles st in
    forall row, In row (evidence (db st1)) ->
      exists i p,
        merkle_index row = Some i /\
        Merkle.get_proof sha256_hexdigest (merkle_tree st1) i = inr p /\
        merkle_leaf_hash row = Some (Merkle.leaf_hash p) /\
        Merkle.root sha256_hexdigest (merkle_tree st1) = Some (Merkle.root_hash p) /\
        Merkle.verify_proof sha256_hexdigest (Merkle.leaf_hash p) (Merkle.proof_hashes p)
          (Merkle.root_hash p) = true.
Proof.
  intros st Hst st1.
  assert (Hinv : Forall (row_in_log (merkle_tree st1)) (evidence (db st1))).
  { subst st1. unfold main_loop. revert st Hst.
    induction cycles as [| [run_start controls] rest IH]; intros st Hst; cbn [fold_left].
    - exact Hst.
    - apply IH. cbn [fst snd]. apply run_cycle_rows_in_log. exact Hst. }
  intros row Hrow. rewrite Forall_forall in Hinv.
  destruct (Hinv row (proj2 (list_elem_of_In _ _) Hrow)) as (i & h & Hi & Hh & Hleaf).
  assert (Hrange : (i < length (Merkle._leaves (merkle_tree st1)))%nat).
  { apply lookup_lt_is_Some. eauto. }
  destruct (Merkle.get_proof_in_range sha256_hexdigest (merkle_tree st1) i Hrange)
    as (p & Hp & Hpleaf & Hroot & Hverify).
  exists (Z.of_nat i), p. rewrite Hleaf in Hpleaf. injection Hpleaf as ->.
  repeat split; assumption.
Qed.

(** ** Tickets *)

(** The newest ticket of a control after one more run row. *)
Lemma get_last_ticket_snoc (d0 d1 : Db) (row : RunRow) (id : string) :
  control_runs d1 = control_runs d0 ++ [row] ->
  get_last_ticket d1 id
  = (if String.eqb (run_control_id row) id && bool_decide (is_Some (ticket_number row))
     then ticket_number row else get_last_ticket d0 id) /\
  last_sys_id d1 id
  = (if String.eqb (run_control_id row) id && bool_decide (is_Some (ticket_sys_id row))
     then ticket_sys_id row else last_sys_id d0 id).
Proof.
  intros H. unfold get_last_ticket, last_sys_id. rewrite H, rev_app_distr.
  cbn [rev app List.filter].
  split; destruct (String.eqb (run_control_id row) id); cbn [andb]; try reflexivity.
  - destruct (bool_decide (is_Some (ticket_number row))); reflexivity.
  - destruct (bool_decide (is_Some (ticket_sys_id row))); reflexivity.
Qed.

(** The runs of other controls leave the newest ticket of a control as it
    is. *)
Lemma run_cycle_keeps_ticket realm products run_start _keypair key_pair (id : string)
    controls :
  Forall (fun cw => ctrl_id (fst cw) <> id) controls ->
  forall st st1,
    run_cycle realm products run_start _keypair key_pair controls st = (st1, None) ->
    get_last_ticket (db st1) id = get_last_ticket (db st) id /\
    last_sys_id (db st1) id = last_sys_id (db st) id.
Proof.
  induction controls as [| [ctrl w] rest IH]; intros Hids st st1; cbn [run_cycle].
  - intros [= <-]. split; reflexivity.
  - apply Forall_cons in Hids as [Hid Hrest]. cbn [fst] in Hid.
    destruct (run_control realm products run_start _keypair key_pair st ctrl w)
      as [st2 [e |]] eqn:Hstep; [discriminate |].
    intros Hrun. destruct (IH Hrest _ _ Hrun) as [-> ->].
    destruct (registered (ctrl_check ctrl)) eqn:Hreg.
    + destruct (run_control_completed _ _ _ _ _ _ _ _ _ Hreg Hstep)
        as (sig & evidence_id & claim & ticket & _ & _ & _ & _ & _ & _ & _ & Hruns & _).
      destruct (get_last_ticket_snoc (db st) (db st2) _ id Hruns) as [-> ->].
      cbn [run_control_id run_row]. apply String.eqb_neq in Hid. rewrite Hid.
      split; reflexivity.
    + rewrite (run_control_skipped _ _ _ _ _ _ _ _ Hreg) in Hstep. injection Hstep as <-.
      split; reflexivity.
Qed.

(** X17.  A control fails and its run row records a ticket, created or
    taken over, with a number and a sys id; later, after the runs of any
    other controls, the same control fails again while the ticketing service
    reports that ticket as open.  Then the new run row records the same
    ticket number and sys id: the ticket is reused, and whatever
    [create_ticket] would return is not used. *)
Theorem open_ticket_is_reused
    realm products run_start1 run_start2 run_start3 _keypair key_pair
    ctrl w1 between w2 st st1 st2 st3 number sys_id :
  registered (ctrl_check ctrl) = true ->
  run_control realm products run_start1 _keypair key_pair st ctrl w1 = (st1, None) ->
  ticket_for w1 (db st) (ctrl_id ctrl) (check_result w1) = Ok (Some number, Some sys_id) ->
  number <> ""%string -> sys_id <> ""%string ->
  Forall (fun cw => ctrl_id (fst cw) <> ctrl_id ctrl) between ->
  run_cycle realm products run_start2 _keypair key_pair between st1 = (st2, None) ->
  status (check_result w2) = "fail"%string ->
  w_is_ticket_open w2 = Ok true ->
  run_control realm products run_start3 _keypair key_pair st2 ctrl w2 = (st3, None) ->
  get_last_ticket (db st2) (ctrl_id ctrl) = Some number /\
  exists evidence_id,
    control_runs (db st3)
    = control_runs (db st2) ++ [run_row ctrl w2 evidence_id (Some number, Some sys_id)].
Proof.
  intros Hreg Hrun1 Hticket1 Hnumber Hsys Hothers Hbetween Hfail Hopen Hrun3.
  destruct (run_control_completed _ _ _ _ _ _ _ _ _ Hreg Hrun1)
    as (sig1 & eid1 & claim1 & ticket1 & _ & _ & _ & Ht1 & _ & _ & _ & Hruns1 & _).
  rewrite Hticket1 in Ht1. injection Ht1 as <-.
  destruct (get_last_ticket_snoc (db st) (db st1) _ (ctrl_id ctrl) Hruns1) as [Hlast1 Hsys1].
  cbn [run_control_id ticket_number ticket_sys_id run_row fst snd] in Hlast1, Hsys1.
  rewrite String.eqb_refl in Hlast1, Hsys1.
  rewrite bool_decide_eq_true_2 in Hlast1 by eauto.
  rewrite bool_decide_eq_true_2 in Hsys1 by eauto.
  cbn [andb] in Hlast1, Hsys1.
  destruct (run_cycle_keeps_ticket _ _ _ _ _ (ctrl_id ctrl) _ Hothers _ _ Hbetween)
    as [Hlast2 Hsys2].
  rewrite Hlast1 in Hlast2. rewrite Hsys1 in Hsys2.
  split; [exact Hlast2 |].
  destruct (run_control_completed _ _ _ _ _ _ _ _ _ Hreg Hrun3)
    as (sig3 & eid3 & claim3 & ticket3 & _ & _ & _ & Ht3 & _ & _ & _ & Hruns3 & _).
  exists eid3. rewrite Hruns3. do 3 f_equal.
  unfold ticket_for in Ht3. rewrite Hfail, Hlast2, Hsys2, Hopen in Ht3.
  cbn [String.eqb Ascii.eqb Bool.eqb bind] in Ht3.
  apply String.eqb_neq in Hnumber, Hsys. rewrite Hnumber, Hsys in Ht3.
  injection Ht3 as <-. reflexivity.
Qed.

(** ** Restart *)

Lemma order_by_index_sorted (rows : list EvidenceRow) :
  forall k,
    map merkle_index rows = map (fun i => Some (Z.of_nat i)) (seq k (length rows)) ->
    order_by_merkle_index rows = rows.
Proof.
  unfold order_by_merkle_index.
  induction rows as [| row rest IH]; intros k; [reflexivity |].
  cbn [length seq map fold_right]. intros [= Hrow Hrest].
  rewrite (IH _ Hrest). destruct rest as [| next rest]; [reflexivity |].
  cbn [length seq map] in Hrest. injection Hrest as Hnext _.
  cbn [insert_by_index]. unfold index_le. rewrite Hrow, Hnext.
  replace (Z.of_nat k <=? Z.of_nat (S k)) with true by (symmetry; apply Z.leb_le; lia).
  reflexivity.
Qed.

Lemma leaf_hashes_of_rows (rows : list EvidenceRow) :
  forall leaves,
    map merkle_leaf_hash rows = map Some leaves ->
    List.filter (fun row => bool_decide (is_Some (merkle_leaf_hash row))) rows = rows /\
    omap merkle_leaf_hash rows = leaves.
Proof.
  induction rows as [| row rest IH]; intros [| leaf leaves]; try discriminate.
  - split; reflexivity.
  - cbn [map]. intros [= Hrow Hrest]. destruct (IH _ Hrest) as [Hfilter Homap].
    cbn [List.filter omap list_omap]. rewrite Hrow.
    rewrite bool_decide_eq_true_2 by eauto.
    fold (omap merkle_leaf_hash rest). rewrite Hfilter, Homap. split; reflexivity.
Qed.

Lemma startup_consistent (st : AgentState) : consistent st -> startup (db st) = st.
Proof.
  intros [Hleaves Hindex]. destruct st as [tree d]. cbn [db merkle_tree] in *.
  unfold startup. f_equal. apply Merkle.same_leaves.
  unfold Merkle.reconstruct. rewrite Merkle.fold_append_leaf_hash.
  cbn [Merkle._leaves Merkle.__init__ app]. unfold get_evidence_leaf_hashes.
  destruct (leaf_hashes_of_rows _ _ Hleaves) as [-> Homap].
  rewrite (order_by_index_sorted _ 0%nat Hindex). exact Homap.
Qed.

(** X18.  When the database and the in-memory log agree, the log [main]
    rebuilds at startup from [get_evidence_leaf_hashes], appending the
    persisted leaf hashes in order of [merkle_index], is the in-memory log
    itself; a cycle that completes keeps them in agreement, so a restart
    after it finds the same leaves, the same count and the same root. *)
Theorem restart_rebuilds_log realm products run_start _keypair key_pair controls st st1 :
  consistent st ->
  run_cycle realm products run_start _keypair key_pair controls st = (st1, None) ->
  startup (db st) = st /\
  startup (db st1) = st1 /\
  Merkle._leaves (merkle_tree (startup (db st1))) = Merkle._leaves (merkle_tree st1) /\
  Merkle.root sha256_hexdigest (merkle_tree (startup (db st1)))
  = Merkle.root sha256_hexdigest (merkle_tree st1).
Proof.
  intros Hst Hrun.
  assert (Hst1 : consistent st1) by (eapply run_cycle_consistent; eassumption).
  split; [apply startup_consistent, Hst |].
  rewrite (startup_consistent st1 Hst1). repeat split.
Qed.

(** ** Envelopes *)

(** The loop over the products stores one envelope per product id for
    which the insert succeeds, after the ones already there. *)
Lemma store_envelopes_spec w ctrl claim key_pair run_start tree product_ids :
  forall envelopes,
    store_envelopes w ctrl claim key_pair run_start tree product_ids envelopes
    = envelopes
      ++ map (fun pid =>
                build_trust_envelope py_round py_sum sha256_hexdigest json_dumps ed25519_sign
                  public_key_hex (ew_uuid4 (w_envelope w pid))
                  (ew_valid_from (w_envelope w pid)) (ew_valid_until (w_envelope w pid))
                  ctrl pid [claim] tree key_pair run_start FULL)
             (List.filter (fun pid => ew_insert_ok (w_envelope w pid)) product_ids).
Proof.
  unfold store_envelopes.
  induction product_ids as [| pid rest IH]; intros envelopes; cbn [fold_left List.filter].
  - cbn [map]. rewrite app_nil_r. reflexivity.
  - rewrite IH. destruct (ew_insert_ok (w_envelope w pid)); [| reflexivity].
    cbn [map]. rewrite <- app_assoc. reflexivity.
Qed.

Lemma in_product_ids_of (products : list Product) (id pid : string) :
  In pid (product_ids_of products id) <->
  exists p, In p products /\ prod_id p = pid /\ In id (prod_controls p).
Proof.
  unfold product_ids_of. rewrite in_flat_map. split.
  - intros (p & Hp & Hin). apply in_map_iff in Hin as (c & <- & Hc).
    apply filter_In in Hc as [Hc Heq]. apply String.eqb_eq in Heq. subst c. eauto.
  - intros (p & Hp & <- & Hin). exists p. split; [exact Hp |].
    apply in_map_iff. exists id. split; [reflexivity |].
    apply filter_In. split; [exact Hin | apply String.eqb_refl].
Qed.

(** X19.  When a control is processed to its end, the envelopes stored
    for it are one per product id of the control for which the insert
    succeeded, in order, after the envelopes already there.  Each belongs to
    a product that lists the control, wraps the one claim built for the
    control, whose [evidence_refs] is the id of the evidence row just
    persisted, and carries in its evidence summary the start of the cycle,
    the count and the root of the Merkle log as it is after this control's
    append; and [get_proof] at the row's [merkle_index] proves the row's
    leaf hash against that root. *)
Theorem stored_envelopes_provenance realm products run_start _keypair key_pair st ctrl w st1 :
  registered (ctrl_check ctrl) = true ->
  run_control realm products run_start _keypair key_pair st ctrl w = (st1, None) ->
  exists row claim new,
    last (evidence (db st1)) = Some row /\
    ev_control_id row = ctrl_id ctrl /\
    evidence_refs claim = [ev_id row] /\
    trust_envelopes (db st1) = trust_envelopes (db st) ++ new /\
    map product_id new
    = List.filter (fun pid => ew_insert_ok (w_envelope w pid))
        (product_ids_of products (ctrl_id ctrl)) /\
    Forall (fun envelope =>
              control_id envelope = ctrl_id ctrl /\
              Envelope.claims envelope = [Claims.to_dict claim] /\
              (exists p, In p products /\ prod_id p = product_id envelope /\
                         In (ctrl_id ctrl) (prod_controls p)) /\
              collection_window_start (evidence_summary envelope) = run_start /\
              total_items (evidence_summary envelope) = Merkle.count (merkle_tree st1) /\
              merkle_root (evidence_summary envelope)
              = Merkle.root sha256_hexdigest (merkle_tree st1) /\
              exists i proof,
                merkle_index row = Some i /\
                Merkle.get_proof sha256_hexdigest (merkle_tree st1) i = inr proof /\
                merkle_leaf_hash row = Some (Merkle.leaf_hash proof) /\
                merkle_root (evidence_summary envelope) = Some (Merkle.root_hash proof) /\
                Merkle.verify_proof sha256_hexdigest (Merkle.leaf_hash proof)
                  (Merkle.proof_hashes proof) (Merkle.root_hash proof) = true)
           new.
Proof.
  intros Hreg Hrun.
  destruct (run_control_completed _ _ _ _ _ _ _ _ _ Hreg Hrun)
    as (sig & evidence_id & claim & ticket & _ & _ & Hclaim & _ & _ & Htree & Hev & _ & Henv).
  apply build_claim_fields in Hclaim as (_ & Hrefs & _).
  rewrite store_envelopes_spec in Henv.
  eexists (evidence_row realm (merkle_tree st) ctrl w sig evidence_id), claim, _.
  split; [rewrite Hev; apply last_snoc |]. split; [reflexivity |].
  split; [exact Hrefs |]. split; [exact Henv |].
  split; [rewrite map_map; cbn; apply map_id |].
  assert (Hrange : (length (Merkle._leaves (merkle_tree st))
                    < length (Merkle._leaves (merkle_tree st1)))%nat).
  { rewrite Htree. cbn [Merkle.append snd Merkle._leaves]. rewrite length_app.
    cbn [length]. lia. }
  destruct (Merkle.get_proof_in_range sha256_hexdigest (merkle_tree st1) _ Hrange)
    as (proof & Hproof & Hleaf & Hroot & Hverify).
  assert (Hnew : Merkle._leaves (merkle_tree st1) !! length (Merkle._leaves (merkle_tree st))
                 = Some (Merkle._hash_leaf sha256_hexdigest json_dumps
                           (PDict (evidence_payload realm ctrl w)))).
  { rewrite Htree. cbn [Merkle.append snd Merkle._leaves].
    rewrite lookup_app_r by lia. rewrite Nat.sub_diag. reflexivity. }
  rewrite Hnew in Hleaf. injection Hleaf as Hleaf.
  apply Forall_forall. intros envelope Hin.
  apply list_elem_of_In, in_map_iff in Hin as (pid & <- & Hpid).
  apply filter_In in Hpid as [Hpid _]. apply in_product_ids_of in Hpid.
  split; [reflexivity |]. split; [reflexivity |]. split; [exact Hpid |].
  split; [reflexivity |]. split; [reflexivity |]. split; [reflexivity |].
  exists (Z.of_nat (length (Merkle._leaves (merkle_tree st)))), proof.
  split; [reflexivity |]. split; [exact Hproof |].
  split; [cbn [merkle_leaf_hash evidence_row]; rewrite Hleaf; reflexivity |].
  split; [exact Hroot | exact Hverify].
Qed.

(** ** Failures of the ticketing service *)

(** X20.  For a failed control whose evidence is signed and persisted
    and whose claim is built, the two calls to the ticketing service fail
    differently.  When no earlier ticket is on record and [create_ticket]
    raises, the failure is logged and the run row is written without a
    ticket: the control completes.  When an earlier ticket is on record and
    [is_ticket_open] raises, the exception leaves the loop: the evidence row
    of the control stays, no run row is written for it, and the cycle is
    abandoned. *)
Theorem ticketing_failures
    realm products run_start _keypair key_pair st ctrl w sig evidence_id claim :
  registered (ctrl_check ctrl) = true ->
  signer_sign _keypair (evidence_payload realm ctrl w) = Ok sig ->
  w_insert_evidence w = Some evidence_id ->
  build_claim py_round repr_other json_dumps ed25519_sign (w_claim_uuid4 w)
    (w_claim_now w) (check_result w) evidence_id ctrl key_pair
    (product_ids_of products (ctrl_id ctrl)) = Ok claim ->
  status (check_result w) = "fail"%string ->
  let outcome := run_control realm products run_start _keypair key_pair st ctrl w in
  (get_last_ticket (db st) (ctrl_id ctrl) = None ->
   w_create_ticket w = None ->
   w_insert_run_ok w = true ->
   snd outcome = None /\
   control_runs (db (fst outcome))
   = control_runs (db st) ++ [run_row ctrl w evidence_id (None, None)]) /\
  (forall number sys_id e,
     get_last_ticket (db st) (ctrl_id ctrl) = Some number -> number <> ""%string ->
     last_sys_id (db st) (ctrl_id ctrl) = Some sys_id -> sys_id <> ""%string ->
     w_is_ticket_open w = Raise e ->
     snd outcome = Some e /\
     control_runs (db (fst outcome)) = control_runs (db st) /\
     evidence (db (fst outcome))
     = evidence (db st) ++ [evidence_row realm (merkle_tree st) ctrl w sig evidence_id] /\
     forall rest cycles,
       main_loop realm products _keypair key_pair
         ((run_start, (ctrl, w) :: rest) :: cycles) st
       = main_loop realm products _keypair key_pair cycles (fst outcome)).
Proof.
  intros Hreg Hsig Hins Hclaim Hfail outcome.
  assert (Hrow : evidence_row realm (merkle_tree st) ctrl w sig evidence_id
                 = {| ev_id := evidence_id;
                      ev_control_id := ctrl_id ctrl;
                      ev_check_name := ctrl_check ctrl;
                      raw_data := evidence_payload realm ctrl w;
                      ev_signature := sig;
                      merkle_leaf_hash :=
                        Some (fst (Merkle.append sha256_hexdigest json_dumps (merkle_tree st)
                                     (PDict (evidence_payload realm ctrl w))));
                      merkle_index :=
                        Some (Merkle.count
                                (snd (Merkle.append sha256_hexdigest json_dumps
                                        (merkle_tree st)
                                        (PDict (evidence_payload realm ctrl w)))) - 1) |}).
  { unfold evidence_row. rewrite count_append. reflexivity. }
  assert (Hout : forall ticket_result,
            ticket_for w (db st) (ctrl_id ctrl) (check_result w) = ticket_result ->
            outcome
            = match ticket_result with
              | Raise e =>
                  ({| merkle_tree :=
                        snd (Merkle.append sha256_hexdigest json_dumps (merkle_tree st)
                               (PDict (evidence_payload realm ctrl w)));
                      db :=
                        {| evidence :=
                             evidence (db st)
                             ++ [evidence_row realm (merkle_tree st) ctrl w sig evidence_id];
                           control_runs := control_runs (db st);
                           trust_envelopes :=
                             store_envelopes w ctrl claim key_pair run_start
                               (snd (Merkle.append sha256_hexdigest json_dumps
                                       (merkle_tree st)
                                       (PDict (evidence_payload realm ctrl w))))
                               (product_ids_of products (ctrl_id ctrl))
                               (trust_envelopes (db st)) |} |},
                   Some e)
              | Ok ticket =>
                  if w_insert_run_ok w then
                    ({| merkle_tree :=
                          snd (Merkle.append sha256_hexdigest json_dumps (merkle_tree st)
                                 (PDict (evidence_payload realm ctrl w)));
                        db :=
                          {| evidence :=
                               evidence (db st)
                               ++ [evidence_row realm (merkle_tree st) ctrl w sig evidence_id];
                             control_runs :=
                               control_runs (db st) ++ [run_row ctrl w evidence_id ticket];
                             trust_envelopes :=
                               store_envelopes w ctrl claim key_pair run_start
                                 (snd (Merkle.append sha256_hexdigest json_dumps
                                         (merkle_tree st)
                                         (PDict (evidence_payload realm ctrl w))))
                                 (product_ids_of products (ctrl_id ctrl))
                                 (trust_envelopes (db st)) |} |},
                     None)
                  else
                    ({| merkle_tree :=
                          snd (Merkle.append sha256_hexdigest json_dumps (merkle_tree st)
                                 (PDict (evidence_payload realm ctrl w)));
                        db :=
                          {| evidence :=
                               evidence (db st)
                               ++ [evidence_row realm (merkle_tree st) ctrl w sig evidence_id];
                             control_runs := control_runs (db st);
                             trust_envelopes :=
                               store_envelopes w ctrl claim key_pair run_start
                                 (snd (Merkle.append sha256_hexdigest json_dumps
                                         (merkle_tree st)
                                         (PDict (evidence_payload realm ctrl w))))
                                 (product_ids_of products (ctrl_id ctrl))
                                 (trust_envelopes (db st)) |} |},
                     Some OperationalError)
              end).
  { intros ticket_result Hticket. subst outcome. unfold run_control.
    rewrite Hreg. cbn [negb].
    fold (check_result w). fold (evidence_payload realm ctrl w).
    rewrite Hsig, Hrow.
    destruct (Merkle.append sha256_hexdigest json_dumps (merkle_tree st)
                (PDict (evidence_payload realm ctrl w))) as [leaf_hash tree1].
    cbn [fst snd]. rewrite Hins, Hclaim.
    cbn [evidence control_runs trust_envelopes].
    match goal with
    | |- context [ticket_for w ?d _ _] =>
        rewrite (ticket_for_runs w d (db st) (ctrl_id ctrl) (check_result w) eq_refl)
    end.
    rewrite Hticket. destruct ticket_result as [[number sys_id] | e]; reflexivity. }
  split.
  - intros Hnone Hcreate Hrun.
    rewrite (Hout (Ok (None, None))).
    + rewrite Hrun. split; reflexivity.
    + unfold ticket_for. rewrite Hfail, Hnone, Hcreate. reflexivity.
  - intros number sys_id e Hlast Hnumber Hsys Hsysid Hopen.
    assert (Hrun : outcome = (fst outcome, Some e) /\
                   control_runs (db (fst outcome)) = control_runs (db st) /\
                   evidence (db (fst outcome))
                   = evidence (db st)
                     ++ [evidence_row realm (merkle_tree st) ctrl w sig evidence_id]).
    { rewrite (Hout (Raise e)).
      - repeat split.
      - unfold ticket_for. rewrite Hfail, Hlast, Hsys, Hopen.
        apply String.eqb_neq in Hnumber, Hsysid. rewrite Hnumber, Hsysid. reflexivity. }
    destruct Hrun as (Hrun & Hruns & Hev).
    split; [rewrite Hrun; reflexivity |]. split; [exact Hruns |]. split; [exact Hev |].
    intros rest cycles. unfold main_loop. cbn [fold_left fst snd run_cycle].
    fold outcome. rewrite Hrun. reflexivity.
Qed.

(** ** The log and the evidence table only grow *)

Lemma run_control_grows realm products run_start _keypair key_pair st ctrl w st1 e :
  run_control realm products run_start _keypair key_pair st ctrl w = (st1, e) ->
  exists new_leaves new_rows,
    Merkle._leaves (merkle_tree st1) = Merkle._leaves (merkle_tree st) ++ new_leaves /\
    evidence (db st1) = evidence (db st) ++ new_rows /\
    sublist (map merkle_leaf_hash new_rows) (map Some new_leaves).
Proof.
  intros Hrun.
  destruct (run_control_evidence _ _ _ _ _ _ _ _ _ _ Hrun)
    as [[Htree Hev] | (sig & _ & Htree & [Hev | [evidence_id Hev]])].
  - exists [], []. rewrite Htree, Hev, !app_nil_r. repeat split. constructor.
  - eexists [_], []. rewrite Htree, Hev, app_nil_r. cbn [Merkle.append snd Merkle._leaves].
    split; [reflexivity |]. split; [reflexivity |]. apply sublist_nil_l.
  - eexists [_], [_]. rewrite Htree, Hev. cbn [Merkle.append snd Merkle._leaves].
    split; [reflexivity |]. split; [reflexivity |]. reflexivity.
Qed.

Lemma run_cycle_grows realm products run_start _keypair key_pair controls :
  forall st,
    let st1 := fst (run_cycle realm products run_start _keypair key_pair controls st) in
    exists new_leaves new_rows,
      Merkle._leaves (merkle_tree st1) = Merkle._leaves (merkle_tree st) ++ new_leaves /\
      evidence (db st1) = evidence (db st) ++ new_rows /\
      sublist (map merkle_leaf_hash new_rows) (map Some new_leaves).
Proof.
  induction controls as [| [ctrl w] rest IH]; intros st; cbn [run_cycle].
  - exists [], []. rewrite !app_nil_r. repeat split. constructor.
  - destruct (run_control realm products run_start _keypair key_pair st ctrl w)
      as [st1 [e |]] eqn:Hstep.
    + cbn [fst]. eapply run_control_grows. exact Hstep.
    + destruct (run_control_grows _ _ _ _ _ _ _ _ _ _ Hstep) as (l1 & r1 & Hl1 & Hr1 & Hs1).
      destruct (IH st1) as (l2 & r2 & Hl2 & Hr2 & Hs2).
      exists (l1 ++ l2), (r1 ++ r2). rewrite Hl2, Hr2, Hl1, Hr1, <- !app_assoc.
      split; [reflexivity |]. split; [reflexivity |].
      rewrite !map_app. apply sublist_app; assumption.
Qed.

(** X21.  Through any number of cycles of [main], complete or cut short,
    the in-memory log and the evidence table only grow at their ends: the
    earlier leaves and rows stay as they are, and the leaf hashes recorded
    in the rows added are, in order, among the leaves added.  Every new row
    has its leaf, while a leaf may be left without a row. *)
Theorem log_is_append_only realm products _keypair key_pair cycles :
  forall st,
    let st1 := main_loop realm products _keypair key_pair cycles st in
    exists new_leaves new_rows,
      Merkle._leaves (merkle_tree st1) = Merkle._leaves (merkle_tree st) ++ new_leaves /\
      evidence (db st1) = evidence (db st) ++ new_rows /\
      sublist (map merkle_leaf_hash new_rows) (map Some new_leaves) /\
      (length new_rows <= length new_leaves)%nat.
Proof.
  unfold main_loop.
  induction cycles as [| [run_start controls] rest IH]; intros st; cbn [fold_left].
  - exists [], []. rewrite !app_nil_r. repeat split; [constructor | reflexivity].
  - cbn [fst snd].
    destruct (run_cycle_grows realm products run_start _keypair key_pair controls st)
      as (l1 & r1 & Hl1 & Hr1 & Hs1).
    destruct (IH (fst (run_cycle realm products run_start _keypair key_pair controls st)))
      as (l2 & r2 & Hl2 & Hr2 & Hs2 & _).
    exists (l1 ++ l2), (r1 ++ r2). rewrite Hl2, Hr2, Hl1, Hr1, <- !app_assoc.
    split; [reflexivity |]. split; [reflexivity |].
    assert (Hsub : sublist (map merkle_leaf_hash (r1 ++ r2)) (map Some (l1 ++ l2))).
    { rewrite !map_app. apply sublist_app; assumption. }
    split; [exact Hsub |].
    apply sublist_length in Hsub. rewrite !length_map in Hsub. exact Hsub.
Qed.

End WithPrimitives.
End Agent.

(* ===================================================================== *)
(** * checks.py into claims.py: the claims of the four checks             *)
(* ===================================================================== *)

Module Pipeline.
Import Py Checks Claims.

Section WithLibraries.

(** The library functions of [Checks] and [Claims]. *)
Variable fromisoformat : string -> option datetime.
Variable isoformat : datetime -> string.
Variable cutoff_timestamp : Z -> Z -> string + float.
Variable fromtimestamp_isoformat : Z -> string + string.
Variable em_dash : string.
Variable py_round : float -> Z -> float.
Variable repr_other : pyval -> string.
Context {PrivateKey PublicKey : Type}.
Variable json_dumps : pyval -> string.
Variable ed25519_sign : PrivateKey -> list byte -> list byte.

(** [build_claim(result, evidence_id, ctrl, key_pair, product_ids)], as
    [run_cycle] calls it on the result of a check. *)
Definition claim_of (uuid4 now : string) (r : CheckResult) (evidence_id : string)
    (ctrl : Control) (key_pair : @Keys.KeyPair PrivateKey PublicKey)
    (product_ids : list string) : Py.result Claim :=
  build_claim py_round repr_other json_dumps ed25519_sign uuid4 now r evidence_id ctrl
    key_pair product_ids.

(** What a claim says of a check that passed, and of one that could not
    be evaluated. *)
Definition says_satisfied (claim : Claim) : Prop :=
  confidence claim = 1.0%float /\ result claim = SATISFIED /\
  caveats claim = [] /\ recommendations claim = [].

Definition says_indeterminate (claim : Claim) : Prop :=
  confidence claim = 0.1%float /\ result claim = INDETERMINATE /\
  caveats claim = ["Check failed with an error; evidence may be incomplete."%string] /\
  recommendations claim = [].

Lemma claim_on_pass uuid4 now r evidence_id ctrl key_pair product_ids :
  status r = "pass"%string ->
  exists claim,
    claim_of uuid4 now r evidence_id ctrl key_pair product_ids = Ok claim /\
    says_satisfied claim.
Proof.
  intros Hs. unfold claim_of.
  assert (Hc : _compute_confidence py_round r (ctrl_id ctrl) = Ok 1.0%float).
  { unfold _compute_confidence. rewrite Hs. reflexivity. }
  assert (Hv : _build_caveats repr_other r (ctrl_id ctrl) = Ok []).
  { unfold _build_caveats. rewrite Hs.
    cbn [String.eqb Ascii.eqb Bool.eqb andb].
    rewrite !andb_false_r. reflexivity. }
  destruct (build_claim_total py_round repr_other json_dumps ed25519_sign
              uuid4 now r evidence_id ctrl key_pair product_ids _ _ Hc Hv)
    as [claim Hclaim].
  exists claim. split; [exact Hclaim |].
  apply build_claim_inv in Hclaim as (Hc' & Hv' & Hr & Hg).
  rewrite Hc in Hc'. injection Hc' as Hc'. rewrite Hv in Hv'. injection Hv' as Hv'.
  unfold says_satisfied. rewrite Hg, Hr, Hs, <- Hc', <- Hv'.
  unfold _build_recommendations. rewrite Hs. repeat split.
Qed.

Lemma claim_on_error uuid4 now r evidence_id ctrl key_pair product_ids :
  status r = "error"%string ->
  exists claim,
    claim_of uuid4 now r evidence_id ctrl key_pair product_ids = Ok claim /\
    says_indeterminate claim.
Proof.
  intros Hs. unfold claim_of.
  assert (Hc : _compute_confidence py_round r (ctrl_id ctrl) = Ok 0.1%float).
  { unfold _compute_confidence. rewrite Hs. reflexivity. }
  assert (Hv : _build_caveats repr_other r (ctrl_id ctrl)
               = Ok ["Check failed with an error; evidence may be incomplete."%string]).
  { unfold _build_caveats. rewrite Hs. reflexivity. }
  destruct (build_claim_total py_round repr_other json_dumps ed25519_sign
              uuid4 now r evidence_id ctrl key_pair product_ids _ _ Hc Hv)
    as [claim Hclaim].
  exists claim. split; [exact Hclaim |].
  apply build_claim_inv in Hclaim as (Hc' & Hv' & Hr & Hg).
  rewrite Hc in Hc'. injection Hc' as Hc'. rewrite Hv in Hv'. injection Hv' as Hv'.
  unfold says_indeterminate. rewrite Hg, Hr, Hs, <- Hc', <- Hv'.
  unfold _build_recommendations. rewrite Hs. repeat split.
Qed.

Lemma claim_on_fail uuid4 now r evidence_id ctrl key_pair product_ids conf cav :
  status r = "fail"%string ->
  _compute_confidence py_round r (ctrl_id ctrl) = Ok conf ->
  _build_caveats repr_other r (ctrl_id ctrl) = Ok cav ->
  exists claim,
    claim_of uuid4 now r evidence_id ctrl key_pair product_ids = Ok claim /\
    confidence claim = conf /\ caveats claim = cav /\
    result claim
    = (if (0.0 <? conf)%float && (conf <? 1.0)%float then PARTIAL else NOT_SATISFIED) /\
    recommendations claim = _build_recommendations r (ctrl_id ctrl).
Proof.
  intros Hs Hc Hv. unfold claim_of.
  destruct (build_claim_total py_round repr_other json_dumps ed25519_sign
              uuid4 now r evidence_id ctrl key_pair product_ids _ _ Hc Hv)
    as [claim Hclaim].
  exists claim. split; [exact Hclaim |].
  apply build_claim_inv in Hclaim as (Hc' & Hv' & Hr & Hg).
  rewrite Hc in Hc'. injection Hc' as Hc'. rewrite Hv in Hv'. injection Hv' as Hv'.
  rewrite Hg, Hr, <- Hc', <- Hv'. unfold grade. rewrite Hs. repeat split.
Qed.

(** What [build_claim] returns for a failed LA.01 or LA.02 control whose
    metrics are counts, the first positive and at most the second. *)
Lemma claim_of_counts uuid4 now r evidence_id ctrl key_pair product_ids population failed cav :
  status r = "fail"%string ->
  ctrl_id ctrl = "LA.01"%string /\
  get (summary r) "recent_users_checked" (PInt 0) = PInt population /\
  get (summary r) "missing_approval" (PInt 0) = PInt failed \/
  ctrl_id ctrl = "LA.02"%string /\
  get (summary r) "disabled_users_with_sla_tracking" (PInt 0) = PInt population /\
  get (summary r) "sla_breaches" (PInt 0) = PInt failed ->
  0 < failed <= population ->
  _build_caveats repr_other r (ctrl_id ctrl) = Ok cav ->
  exists claim,
    claim_of uuid4 now r evidence_id ctrl key_pair product_ids = Ok claim /\
    (exists rate,
       int_truediv failed population = Ok rate /\
       confidence claim = py_round (1.0 - rate)%float 4) /\
    caveats claim = cav /\
    recommendations claim = _build_recommendations r (ctrl_id ctrl).
Proof.
  intros Hs Hmetrics Hcounts Hv.
  destruct (int_truediv_fraction failed population) as [rate Hrate]; [lia | lia |].
  assert (Hc : _compute_confidence py_round r (ctrl_id ctrl)
               = Ok (py_round (1.0 - rate)%float 4)).
  { rewrite (population_confidence py_round r (ctrl_id ctrl) population failed Hs Hmetrics).
    replace (0 <? population) with true by (symmetry; apply Z.ltb_lt; lia).
    rewrite Hrate. reflexivity. }
  destruct (claim_on_fail uuid4 now r evidence_id ctrl key_pair product_ids _ _ Hs Hc Hv)
    as (claim & Hclaim & Hconf & Hcav & _ & Hrec).
  exists claim. split; [exact Hclaim |]. split; [eauto |]. split; assumption.
Qed.

(** ** LA.01 *)

(** X22.  For the LA.01 control, [build_claim] returns a claim on every
    result the check [new_access_no_approval] returns, never raising.  When
    the check could not list the users the result is an error and the claim
    is INDETERMINATE with confidence 0.1; when it passed, SATISFIED with
    confidence 1.0 and no caveats; when it failed, the summary holds
    integers [0 < missing_approval <= recent_users_checked], so the
    confidence is [round(1 - missing_approval / recent_users_checked, 4)],
    the quotient being Python's division of the two integers, which has a
    value here: never the fallback 0.0 of an empty population, never a
    division by zero and never an overflow; and the claim carries the one
    caveat that names the number of accounts and three recommendations. *)
Theorem new_access_claim
    (list_users : string + list Account) (params : ApprovalParams) (now : Z)
    (r : CheckResult) (uuid4 now_text evidence_id : string) (ctrl : Control)
    (key_pair : @Keys.KeyPair PrivateKey PublicKey) (product_ids : list string) :
  ctrl_id ctrl = "LA.01"%string ->
  new_access_no_approval cutoff_timestamp fromtimestamp_isoformat list_users params now
  = inr r ->
  exists claim,
    claim_of uuid4 now_text r evidence_id ctrl key_pair product_ids = Ok claim /\
    (forall exc, list_users = inl exc ->
       status r = "error"%string /\ says_indeterminate claim) /\
    (status r = "error"%string /\ (exists exc, list_users = inl exc) /\
     says_indeterminate claim \/
     status r = "pass"%string /\ says_satisfied claim \/
     status r = "fail"%string /\
     exists checked missing,
       get (summary r) "recent_users_checked" PNone = PInt checked /\
       get (summary r) "missing_approval" PNone = PInt missing /\
       0 < missing <= checked /\
       (exists rate,
          int_truediv missing checked = Ok rate /\
          confidence claim = py_round (1.0 - rate)%float 4) /\
       caveats claim
       = [cat [str_of_Z missing;
               " account(s) are missing the required approval attribute and ";
               "may represent unauthorised access grants."]] /\
       length (recommendations claim) = 3%nat).
Proof.
  intros Hid Hr. destruct list_users as [exc | users].
  - assert (Hs : status r = "error"%string).
    { unfold new_access_no_approval in Hr.
      destruct (cutoff_timestamp now _); [discriminate |].
      destruct (int_of_float _); [discriminate |]. injection Hr as <-. reflexivity. }
    destruct (claim_on_error uuid4 now_text r evidence_id ctrl key_pair product_ids Hs)
      as [claim [Hclaim Hsays]].
    exists claim. split; [exact Hclaim |]. split; [auto |]. left. eauto.
  - destruct (new_access_result _ _ _ _ _ _ Hr)
      as (cutoff_ms & _ & Hsum & _ & Hle & [[Hs Hpos] | [Hs _]]).
    + set (checked := Z.of_nat (length (List.filter (is_recent cutoff_ms) users))) in *.
      set (missing := Z.of_nat (length (List.filter (is_unapproved _ cutoff_ms) users))) in *.
      assert (Hv : _build_caveats repr_other r (ctrl_id ctrl)
                   = Ok [cat [str_of_Z missing;
                              " account(s) are missing the required approval attribute and ";
                              "may represent unauthorised access grants."]]).
      { unfold _build_caveats. rewrite Hs, Hid, Hsum. reflexivity. }
      destruct (claim_of_counts uuid4 now_text r evidence_id ctrl key_pair product_ids
                  checked missing _ Hs
                  (or_introl (conj Hid (conj (f_equal (fun d => get d _ _) Hsum)
                                             (f_equal (fun d => get d _ _) Hsum))))
                  ltac:(lia) Hv) as (claim & Hclaim & Hconf & Hcav & Hrec).
      exists claim. split; [exact Hclaim |]. split; [intros exc [=] |].
      right. right. split; [exact Hs |].
      exists checked, missing. rewrite Hsum.
      split; [reflexivity |]. split; [reflexivity |]. split; [lia |].
      split; [exact Hconf |]. split; [exact Hcav |].
      rewrite Hrec. unfold _build_recommendations. rewrite Hs, Hid. reflexivity.
    + destruct (claim_on_pass uuid4 now_text r evidence_id ctrl key_pair product_ids Hs)
        as [claim [Hclaim Hsays]].
      exists claim. split; [exact Hclaim |]. split; [intros exc [=] |]. right. left. auto.
Qed.

(** ** LA.02 *)

(** X23.  For the LA.02 control, [build_claim] returns a claim on every
    result of [terminations_sla], never raising.  A failure to list the
    users gives an error result and an INDETERMINATE claim.  On a list of
    users the summary holds the number of disabled users with the tracking
    attribute and, at most that, the number of breaches among them; without
    a breach the result is a pass and the claim SATISFIED; with one the
    result is a failure, the confidence is
    [round(1 - sla_breaches / disabled_users_with_sla_tracking, 4)], the
    quotient being Python's division of the two integers, which has a value
    here, and the claim has one caveat per breach and three
    recommendations. *)
Theorem terminations_claim
    (list_users : string + list User) (params : SlaParams) (now : Z)
    (uuid4 now_text evidence_id : string) (ctrl : Control)
    (key_pair : @Keys.KeyPair PrivateKey PublicKey) (product_ids : list string) :
  ctrl_id ctrl = "LA.02"%string ->
  let sla_days := match param_sla_days params with Some d => d | None => 1 end in
  let term_attr :=
    match param_termination_attribute params with
    | Some a => a
    | None => "terminationRequestDate"%string
    end in
  let r := fst (terminations_sla fromisoformat isoformat list_users params now) in
  exists claim,
    claim_of uuid4 now_text r evidence_id ctrl key_pair product_ids = Ok claim /\
    (forall exc, list_users = inl exc ->
       status r = "error"%string /\ says_indeterminate claim) /\
    (forall users, list_users = inr users ->
       let tracked :=
         Z.of_nat (length (List.filter
           (fun u => is_disabled u && has_tracking term_attr u) users)) in
       let breached :=
         Z.of_nat (length (List.filter
           (fun u => is_disabled u && is_breach fromisoformat sla_days term_attr now u)
           users)) in
       get (summary r) "disabled_users_with_sla_tracking" PNone = PInt tracked /\
       get (summary r) "sla_breaches" PNone = PInt breached /\
       0 <= breached <= tracked /\
       (breached = 0 -> status r = "pass"%string /\ says_satisfied claim) /\
       (0 < breached ->
        status r = "fail"%string /\
        (exists rate,
           int_truediv breached tracked = Ok rate /\
           confidence claim = py_round (1.0 - rate)%float 4) /\
        Z.of_nat (length (caveats claim)) = breached /\
        length (recommendations claim) = 3%nat)).
Proof.
  intros Hid sla_days term_attr r. destruct list_users as [exc | users].
  - assert (Hs : status r = "error"%string) by reflexivity.
    destruct (claim_on_error uuid4 now_text r evidence_id ctrl key_pair product_ids Hs)
      as [claim [Hclaim Hsays]].
    exists claim. split; [exact Hclaim |]. split; [auto | intros users [=]].
  - destruct (terminations_result fromisoformat isoformat users params now)
      as (Hsum & Hfind & Hle & [[Hs Hpos] | [Hs Hzero]]);
      fold r sla_days term_attr in Hsum, Hfind, Hs, Hle, Hpos ||
      fold r sla_days term_attr in Hsum, Hfind, Hs, Hle, Hzero.
    + set (tracked := Z.of_nat (length (List.filter
                         (fun u => is_disabled u && has_tracking _ u) users))) in *.
      set (breached := Z.of_nat (length (List.filter
                          (fun u => is_disabled u && is_breach _ _ _ _ u) users))) in *.
      assert (Hv : exists cav, _build_caveats repr_other r (ctrl_id ctrl) = Ok cav /\
                               length cav = length (findings r)).
      { unfold _build_caveats. rewrite Hs, Hid.
        cbn [String.eqb Ascii.eqb Bool.eqb andb bind app].
        eexists. split; [reflexivity |]. rewrite app_nil_r, length_map. reflexivity. }
      destruct Hv as (cav & Hv & Hlen).
      destruct (claim_of_counts uuid4 now_text r evidence_id ctrl key_pair product_ids
                  tracked breached cav Hs
                  (or_intror (conj Hid (conj (f_equal (fun d => get d _ _) Hsum)
                                             (f_equal (fun d => get d _ _) Hsum))))
                  ltac:(lia) Hv) as (claim & Hclaim & Hconf & Hcav & Hrec).
      exists claim. split; [exact Hclaim |]. split; [intros exc [=] |].
      intros users' [= <-]. cbv zeta. fold tracked breached. rewrite Hsum.
      split; [reflexivity |]. split; [reflexivity |]. split; [lia |].
      split; [lia |]. intros _.
      split; [exact Hs |]. split; [exact Hconf |].
      split; [rewrite Hcav, Hlen, Hfind; lia |].
      rewrite Hrec. unfold _build_recommendations. rewrite Hs, Hid. reflexivity.
    + destruct (claim_on_pass uuid4 now_text r evidence_id ctrl key_pair product_ids Hs)
        as [claim [Hclaim Hsays]].
      exists claim. split; [exact Hclaim |]. split; [intros exc [=] |].
      intros users' [= <-]. cbv zeta. rewrite Hsum.
      split; [reflexivity |]. split; [reflexivity |]. split; [lia |].
      split; [auto | lia].
Qed.

(** ** LA.03 *)

(** X24.  For the LA.03 control, [build_claim] returns a claim on every
    result of [quarterly_uar], never raising.  When the realm cannot be
    read the result is an error (INDETERMINATE claim).  When it is read:
    without a recorded date, or with an empty one, the result is a failure
    with [days_since_uar] None and the caveat that no completion date was
    found; with a recorded text that does not parse it is an error
    (INDETERMINATE claim); with a date, [days_since_uar] is the number of
    whole days since it, the result is a pass (SATISFIED claim) when that is
    at most [max_days_since_uar], and otherwise a failure with the caveat
    naming the positive number of days overdue.  A failed LA.03 claim has
    confidence 0.0, result NOT_SATISFIED and three recommendations. *)
Theorem uar_claim
    (get_realm : string + Realm) (params : UarParams) (now : Z)
    (uuid4 now_text evidence_id : string) (ctrl : Control)
    (key_pair : @Keys.KeyPair PrivateKey PublicKey) (product_ids : list string) :
  ctrl_id ctrl = "LA.03"%string ->
  let max_days := match param_max_days_since_uar params with Some d => d | None => 90 end in
  let uar_attr :=
    match param_uar_attribute params with
    | Some a => a
    | None => "lastUarCompletedDate"%string
    end in
  let r := quarterly_uar fromisoformat em_dash get_realm params now in
  let failed (claim : Claim) :=
    status r = "fail"%string /\
    confidence claim = 0.0%float /\ result claim = NOT_SATISFIED /\
    length (recommendations claim) = 3%nat in
  exists claim,
    claim_of uuid4 now_text r evidence_id ctrl key_pair product_ids = Ok claim /\
    (forall exc, get_realm = inl exc ->
       status r = "error"%string /\ says_indeterminate claim) /\
    (forall realm, get_realm = inr realm ->
       let recorded :=
         realm_attr_get (match realm_attributes realm with Some a => a | None => [] end)
           uar_attr in
       (recorded = None \/ recorded = Some ""%string ->
        failed claim /\
        get (summary r) "days_since_uar" (PInt 0) = PNone /\
        caveats claim
        = ["No UAR completion date found in the realm configuration."%string]) /\
       (forall uar_val,
          recorded = Some uar_val -> uar_val <> ""%string ->
          fromisoformat uar_val = None ->
          status r = "error"%string /\ says_indeterminate claim) /\
       (forall uar_val parsed,
          recorded = Some uar_val -> uar_val <> ""%string ->
          fromisoformat uar_val = Some parsed ->
          get (summary r) "days_since_uar" PNone = PInt (days_between now parsed) /\
          (days_between now parsed <= max_days ->
           status r = "pass"%string /\ says_satisfied claim) /\
          (max_days < days_between now parsed ->
           failed claim /\
           caveats claim
           = [cat ["Access review is "; str_of_Z (days_between now parsed - max_days);
                   " day(s) overdue."]]))).
Proof.
  intros Hid max_days uar_attr r failed.
  assert (Hfail : forall cav,
            status r = "fail"%string ->
            _build_caveats repr_other r (ctrl_id ctrl) = Ok cav ->
            exists claim,
              claim_of uuid4 now_text r evidence_id ctrl key_pair product_ids = Ok claim /\
              failed claim /\ caveats claim = cav).
  { intros cav Hs Hv.
    assert (Hc : _compute_confidence py_round r (ctrl_id ctrl) = Ok 0.0%float).
    { unfold _compute_confidence. rewrite Hs, Hid. reflexivity. }
    destruct (claim_on_fail uuid4 now_text r evidence_id ctrl key_pair product_ids _ _
                Hs Hc Hv) as (claim & Hclaim & Hconf & Hcav & Hres & Hrec).
    exists claim. split; [exact Hclaim |]. split; [| exact Hcav].
    split; [exact Hs |]. split; [exact Hconf |]. split; [exact Hres |].
    rewrite Hrec. unfold _build_recommendations. rewrite Hs, Hid. reflexivity. }
  subst failed r. unfold quarterly_uar in *. fold max_days uar_attr in Hfail |- *.
  destruct get_realm as [exc | realm].
  - destruct (claim_on_error uuid4 now_text
                (mkCheckResult "error" [("error"%string, PStr exc)] [] "" "")
                evidence_id ctrl key_pair product_ids eq_refl) as [claim [Hclaim Hsays]].
    exists claim. split; [exact Hclaim |]. split; [| intros realm [=]].
    intros exc' _. split; [reflexivity | exact Hsays].
  - cbv zeta in Hfail |- *.
    destruct (realm_attr_get _ uar_attr) as [[| c uar_val] |] eqn:Hrecorded.
    + destruct (Hfail ["No UAR completion date found in the realm configuration."%string]
                  eq_refl) as (claim & Hclaim & Hfailed & Hcav).
      { unfold _build_caveats. cbn [status summary]. rewrite Hid. reflexivity. }
      exists claim. split; [exact Hclaim |]. split; [intros exc [=] |].
      intros realm' [= <-]. rewrite Hrecorded.
      split; [intros _; split; [exact Hfailed |]; split; [reflexivity | exact Hcav] |].
      split; intros uar_val; [intros [= <-] Hne; contradiction |].
      intros parsed [= <-] Hne. contradiction.
    + destruct (fromisoformat (String c uar_val)) as [parsed |] eqn:Hparse.
      * rewrite days_between_as_utc in *.
        destruct (Z.gtb_spec (days_between now parsed) max_days) as [Hover | Hin].
        -- destruct (Hfail [cat ["Access review is ";
                                 str_of_Z (days_between now parsed - max_days);
                                 " day(s) overdue."]] eq_refl)
             as (claim & Hclaim & Hfailed & Hcav).
           { unfold _build_caveats. cbn [status summary]. rewrite Hid. reflexivity. }
           exists claim. split; [exact Hclaim |]. split; [intros exc [=] |].
           intros realm' [= <-]. rewrite Hrecorded.
           split; [intros [[=] | [=]] |].
           split; [intros v [= <-] _ Hnone; congruence |].
           intros v parsed' [= <-] _ Hsome.
           assert (parsed' = parsed) by congruence. subst parsed'.
           split; [reflexivity |]. split; [lia |]. intros _.
           split; [exact Hfailed | exact Hcav].
        -- match goal with
           | |- context [claim_of _ _ ?res _ _ _ _] =>
               destruct (claim_on_pass uuid4 now_text res evidence_id ctrl key_pair
                           product_ids eq_refl) as [claim [Hclaim Hsays]]
           end.
           exists claim. split; [exact Hclaim |]. split; [intros exc [=] |].
           intros realm' [= <-]. rewrite Hrecorded.
           split; [intros [[=] | [=]] |].
           split; [intros v [= <-] _ Hnone; congruence |].
           intros v parsed' [= <-] _ Hsome.
           assert (parsed' = parsed) by congruence. subst parsed'.
           split; [reflexivity |].
           split; [intros _; split; [reflexivity | exact Hsays] | lia].
      * match goal with
        | |- context [claim_of _ _ ?res _ _ _ _] =>
            destruct (claim_on_error uuid4 now_text res evidence_id ctrl key_pair
                        product_ids eq_refl) as [claim [Hclaim Hsays]]
        end.
        exists claim. split; [exact Hclaim |]. split; [intros exc [=] |].
        intros realm' [= <-]. rewrite Hrecorded.
        split; [intros [[=] | [=]] |].
        split; [intros v [= <-] _ _; split; [reflexivity | exact Hsays] |].
        intros v parsed [= <-] _ Hsome. congruence.
    + destruct (Hfail ["No UAR completion date found in the realm configuration."%string]
                  eq_refl) as (claim & Hclaim & Hfailed & Hcav).
      { unfold _build_caveats. cbn [status summary]. rewrite Hid. reflexivity. }
      exists claim. split; [exact Hclaim |]. split; [intros exc [=] |].
      intros realm' [= <-]. rewrite Hrecorded.
      split; [intros _; split; [exact Hfailed |]; split; [reflexivity | exact Hcav] |].
      split; [intros uar_val [=] |]. intros uar_val parsed [=].
Qed.

(** ** LA.04 *)

(** X25.  For the LA.04 control, [build_claim] returns a claim on every
    result of [admin_access_count], never raising.  When the members of the
    role cannot be fetched the result is an error that keeps the role name
    (INDETERMINATE claim); with at most [max_admins] members it is a pass
    without findings (SATISFIED claim); with more it is a failure with one
    finding per member, and the claim has confidence 0.0, result
    NOT_SATISFIED, three recommendations and the one caveat naming the
    positive excess [admin_count - max_allowed]. *)
Theorem admin_claim
    (get_role_users : string -> string + list User) (params : AdminParams)
    (uuid4 now_text evidence_id : string) (ctrl : Control)
    (key_pair : @Keys.KeyPair PrivateKey PublicKey) (product_ids : list string) :
  ctrl_id ctrl = "LA.04"%string ->
  let role_name :=
    match param_role_name params with Some r => r | None => "admin"%string end in
  let max_admins := match param_max_admins params with Some m => m | None => 3 end in
  let r := admin_access_count get_role_users params in
  exists claim,
    claim_of uuid4 now_text r evidence_id ctrl key_pair product_ids = Ok claim /\
    (forall exc, get_role_users role_name = inl exc ->
       status r = "error"%string /\ says_indeterminate claim /\
       get (summary r) "role_name" PNone = PStr role_name) /\
    (forall admins, get_role_users role_name = inr admins ->
       let count := Z.of_nat (length admins) in
       get (summary r) "admin_count" PNone = PInt count /\
       get (summary r) "max_allowed" PNone = PInt max_admins /\
       (count <= max_admins ->
        status r = "pass"%string /\ findings r = [] /\ says_satisfied claim) /\
       (max_admins < count ->
        status r = "fail"%string /\ length (findings r) = length admins /\
        confidence claim = 0.0%float /\ result claim = NOT_SATISFIED /\
        length (recommendations claim) = 3%nat /\
        caveats claim
        = [cat [str_of_Z (count - max_admins);
                " excess privileged account(s) require immediate review and removal."]])).
Proof.
  intros Hid role_name max_admins r. subst r. unfold admin_access_count.
  fold role_name max_admins.
  destruct (get_role_users role_name) as [exc | admins].
  - match goal with
    | |- context [claim_of _ _ ?res _ _ _ _] =>
        destruct (claim_on_error uuid4 now_text res evidence_id ctrl key_pair
                    product_ids eq_refl) as [claim [Hclaim Hsays]]
    end.
    exists claim. split; [exact Hclaim |]. split; [| intros admins [=]].
    intros exc' _. split; [reflexivity |]. split; [exact Hsays | reflexivity].
  - destruct (Z.gtb_spec (Z.of_nat (length admins)) max_admins) as [Hover | Hin].
    + match goal with
      | |- context [claim_of _ _ ?res _ _ _ _] => set (r := res)
      end.
      assert (Hc : _compute_confidence py_round r (ctrl_id ctrl) = Ok 0.0%float).
      { unfold _compute_confidence. rewrite Hid. reflexivity. }
      assert (Hv : _build_caveats repr_other r (ctrl_id ctrl)
                   = Ok [cat [str_of_Z (Z.of_nat (length admins) - max_admins);
                              " excess privileged account(s) require immediate review and removal."]]).
      { unfold _build_caveats. rewrite Hid. reflexivity. }
      destruct (claim_on_fail uuid4 now_text r evidence_id ctrl key_pair product_ids _ _
                  eq_refl Hc Hv) as (claim & Hclaim & Hconf & Hcav & Hres & Hrec).
      exists claim. split; [exact Hclaim |]. split; [intros exc [=] |].
      intros admins' [= <-]. cbv zeta.
      split; [reflexivity |]. split; [reflexivity |]. split; [lia |]. intros _.
      split; [reflexivity |]. split; [apply length_map |]. split; [exact Hconf |].
      split; [exact Hres |]. split; [| exact Hcav].
      rewrite Hrec. unfold _build_recommendations. rewrite Hid. reflexivity.
    + match goal with
      | |- context [claim_of _ _ ?res _ _ _ _] =>
          destruct (claim_on_pass uuid4 now_text res evidence_id ctrl key_pair
                      product_ids eq_refl) as [claim [Hclaim Hsays]]
      end.
      exists claim. split; [exact Hclaim |]. split; [intros exc [=] |].
      intros admins' [= <-]. cbv zeta.
      split; [reflexivity |]. split; [reflexivity |].
      split; [intros _; split; [reflexivity |]; split; [reflexivity | exact Hsays] | lia].
Qed.

End WithLibraries.
End Pipeline.

(* ===================================================================== *)
(** * Sample instances of the library functions                           *)
(* ===================================================================== *)

(** Concrete stand-ins for the functions the modules above take as
    parameters, to run the model on concrete inputs. *)
Module Sample.
Import Py.

(** A stand-in for SHA-256 that keeps its preimage readable. *)
Definition digest (data : list byte) : string :=
  cat ["h("; string_of_list_byte data; ")"].

Definition quote : string := String (ascii_of_nat 34) EmptyString.

Definition float_text (f : float) : string :=
  match Prim2SF f with
  | S754_zero _ => "0.0"
  | S754_infinity _ => "Infinity"
  | S754_nan => "NaN"
  | S754_finite s m e =>
      cat [if s then "-" else ""; str_of_Z (Z.pos m); "p"; str_of_Z e]
  end.

(** A plain JSON printer (keys in dict order, no escaping). *)
Fixpoint dumps (v : pyval) : string :=
  match v with
  | PNone => "null"
  | PBool true => "true"
  | PBool false => "false"
  | PInt z => str_of_Z z
  | PFloat f => float_text f
  | PStr s => cat [quote; s; quote]
  | PList l => cat ["["; String.concat "," (map dumps l); "]"]
  | PDict d =>
      cat ["{";
           String.concat ","
             (map (fun kv => let '(k, x) := kv in cat [quote; k; quote; ":"; dumps x]) d);
           "}"]
  end.

(** A stand-in for Ed25519 with the two properties the signer relies on:
    signatures are 64 bytes long and verify under the signing key. *)
Definition sign_bytes (key data : list byte) : list byte :=
  take 64 (key ++ data ++ repeat x00 64).

Fixpoint bytes_eqb (a b : list byte) : bool :=
  match a, b with
  | [], [] => true
  | x :: a', y :: b' => Byte.eqb x y && bytes_eqb a' b'
  | _, _ => false
  end.

Definition verify_bytes (key signature data : list byte) : bool :=
  bytes_eqb signature (sign_bytes key data).

Definition public_of (key : list byte) : list byte := key.

Definition key_pair : @Keys.KeyPair (list byte) (list byte) :=
  Keys.__init__ public_of [x2a].

Definition key_hex (kp : @Keys.KeyPair (list byte) (list byte)) : string := "2a".

(** [round(x, ndigits)] for [ndigits >= 0]: the multiple of
    [10**-ndigits] nearest to the exact value of [x], ties to even, as the
    nearest float. *)
Definition round_half_even (x : float) (ndigits : Z) : float :=
  match Prim2SF x with
  | S754_finite s m e =>
      let scale := 10 ^ ndigits in
      let num := Z.pos m * scale * 2 ^ Z.max e 0 in
      let den := 2 ^ Z.max (- e) 0 in
      let q := num / den in
      let r := num mod den in
      let k :=
        if 2 * r <? den then q
        else if den <? 2 * r then q + 1
        else if Z.even q then q else q + 1 in
      match int_truediv k scale with
      | Ok y => if s then (- y)%float else y
      | Raise _ => x
      end
  | _ => x
  end.

(** [sum(xs)] by plain left-to-right addition. *)
Definition sum_floats (xs : list float) : float :=
  fold_left (fun acc x => (acc + x)%float) xs 0%float.

Definition repr_any (v : pyval) : string := dumps v.

(** [datetime.fromisoformat] on the date-only form [YYYY-MM-DD]. *)
Definition digit (c : ascii) : option Z :=
  let n := Z.of_N (N_of_ascii c) in
  if (48 <=? n) && (n <=? 57) then Some (n - 48) else None.

Definition is_leap (y : Z) : bool :=
  (y mod 4 =? 0) && (negb (y mod 100 =? 0) || (y mod 400 =? 0)).

Definition days_in_month (y m : Z) : Z :=
  if m =? 2 then (if is_leap y then 29 else 28)
  else if (m =? 4) || (m =? 6) || (m =? 9) || (m =? 11) then 30 else 31.

(** Days from 1970-01-01 to the given civil date. *)
Definition days_from_civil (y m d : Z) : Z :=
  let y1 := if m <=? 2 then y - 1 else y in
  let era := y1 / 400 in
  let yoe := y1 - era * 400 in
  let mp := if 2 <? m then m - 3 else m + 9 in
  let doy := (153 * mp + 2) / 5 + d - 1 in
  let doe := yoe * 365 + yoe / 4 - yoe / 100 + doy in
  era * 146097 + doe - 719468.

Definition fromisoformat (raw : string) : option Checks.datetime :=
  match list_ascii_of_string raw with
  | [y1; y2; y3; y4; "-"%char; m1; m2; "-"%char; d1; d2] =>
      match digit y1, digit y2, digit y3, digit y4, digit m1, digit m2, digit d1, digit d2 with
      | Some a, Some b, Some c, Some d, Some e, Some f, Some g, Some h =>
          let y := 1000 * a + 100 * b + 10 * c + d in
          let m := 10 * e + f in
          let dd := 10 * g + h in
          if (1 <=? y) && (1 <=? m) && (m <=? 12) && (1 <=? dd) && (dd <=? days_in_month y m)
          then Some {| Checks.wall := days_from_civil y m dd * 86400000000;
                       Checks.tzoffset := None |}
          else None
      | _, _, _, _, _, _, _, _ => None
      end
  | _ => None
  end.

(** A stand-in for [isoformat]: the instant in microseconds. *)
Definition isoformat (d : Checks.datetime) : string :=
  cat ["@"; str_of_Z (Checks.instant d)].

(** A stand-in for PEM: the key bytes after a one-byte header. *)
Definition private_pem (key : list byte) : list byte := x2d :: key.

Definition public_pem (key : list byte) : list byte := x2b :: key.

Definition load_pem (data : list byte) : option (list byte) :=
  match data with
  | x2d :: key => Some key
  | _ => None
  end.

(** A stand-in for [(now - timedelta(days)).timestamp()]: the seconds of
    the instant, without the range checks of [datetime]. *)
Definition cutoff_seconds (now days : Z) : string + float :=
  inr (float_of_Z (now - days * 86400000000) / float_of_Z 1000000)%float.

(** A stand-in for [fromtimestamp(...).isoformat()]: the milliseconds. *)
Definition created_text (ts : Z) : string + string := inr (cat ["@"; str_of_Z ts]).

Definition dash : string := "--".

(** A stand-in for the disk: the directories that exist, the current one
    apart, and the files with their contents, the newest first. *)
Record Disk := mkDisk { disk_dirs : list string; disk_files : list (string * list byte) }.

(** [p[:p.rfind("/") + 1]]. *)
Fixpoint through_last_slash (p : string) : string :=
  match p with
  | EmptyString => EmptyString
  | String c rest =>
      match through_last_slash rest with
      | EmptyString => if Ascii.eqb c "/"%char then String c EmptyString else EmptyString
      | head => String c head
      end
  end.

(** [s.rstrip("/")]. *)
Fixpoint rstrip_slash (s : string) : string :=
  match s with
  | EmptyString => EmptyString
  | String c rest =>
      match rstrip_slash rest with
      | EmptyString => if Ascii.eqb c "/"%char then EmptyString else String c EmptyString
      | rest' => String c rest'
      end
  end.

(** [posixpath.dirname]. *)
Definition dirname (p : string) : string :=
  let head := through_last_slash p in
  match rstrip_slash head with
  | EmptyString => head
  | stripped => stripped
  end.

Definition is_dir (fs : Disk) (name : string) : bool :=
  String.eqb name "" || existsb (String.eqb name) (disk_dirs fs).

Definition file_contents (fs : Disk) (path : string) : option (list byte) :=
  option_map snd (List.find (fun entry => String.eqb path (fst entry)) (disk_files fs)).

Definition path_exists (fs : Disk) (path : string) : bool :=
  match file_contents fs path with
  | Some _ => true
  | None => existsb (String.eqb path) (disk_dirs fs)
  end.

Definition read_file (fs : Disk) (path : string) : Py.result (list byte) :=
  match file_contents fs path with
  | Some data => Ok data
  | None => Raise FileNotFoundError
  end.

(** [os.makedirs(name, exist_ok=True)] on this disk: the empty name is not
    found, any other directory is there afterwards. *)
Definition makedirs (fs : Disk) (name : string) : Disk * option exn :=
  if String.eqb name "" then (fs, Some FileNotFoundError)
  else (mkDisk (name :: disk_dirs fs) (disk_files fs), None).

(** Writing a file needs its directory. *)
Definition write_file (fs : Disk) (path : string) (data : list byte) : Disk * option exn :=
  if is_dir fs (dirname path)
  then (mkDisk (disk_dirs fs) ((path, data) :: disk_files fs), None)
  else (fs, Some FileNotFoundError).

Lemma sign_bytes_length (key data : list byte) : length (sign_bytes key data) = 64%nat.
Proof.
  unfold sign_bytes. rewrite length_take, !length_app, repeat_length. lia.
Qed.

Lemma bytes_eqb_refl (a : list byte) : bytes_eqb a a = true.
Proof.
  induction a as [| x a IH]; [reflexivity |]. cbn [bytes_eqb].
  rewrite IH, andb_true_r. apply Byte.byte_dec_lb. reflexivity.
Qed.

Lemma disk_write_then_read (fs : Disk) (path : string) (data : list byte) (fs1 : Disk) :
  write_file fs path data = (fs1, None) ->
  path_exists fs1 path = true /\ read_file fs1 path = Ok data.
Proof.
  unfold write_file. destruct (is_dir fs (dirname path)); intros [= <-].
  unfold path_exists, read_file, file_contents.
  cbn [disk_files List.find fst]. rewrite String.eqb_refl. split; reflexivity.
Qed.

Lemma sign_bytes_verifies (key data : list byte) :
  verify_bytes (public_of key) (sign_bytes key data) data = true.
Proof. apply bytes_eqb_refl. Qed.

End Sample.

(* ===================================================================== *)
(** * The properties on concrete inputs                                   *)
(* ===================================================================== *)

Module Scenarios.
Import Py.

(** ** Inputs *)

Definition three_leaves : Merkle.MerkleTree := Merkle.mkTree ["a"; "b"; "c"]%string.

Definition la01 : Checks.Control :=
  {| Checks.ctrl_id := "LA.01";
     Checks.ctrl_name := "New access approval";
     Checks.ctrl_description := Some "  New access requires a recorded approval.  "%string;
     Checks.ctrl_check := "new_access_no_approval";
     Checks.ctrl_params := None;
     Checks.ctrl_severity := Some "high"%string;
     Checks.ctrl_framework_mappings := Some [("SOC2", ["CC6.1"; "CC6.2"])]%string |}.

Definition la04 : Checks.Control :=
  {| Checks.ctrl_id := "LA.04";
     Checks.ctrl_name := "Admin access count";
     Checks.ctrl_description := None;
     Checks.ctrl_check := "admin_access_count";
     Checks.ctrl_params := None;
     Checks.ctrl_severity := None;
     Checks.ctrl_framework_mappings := None |}.

(** Scenario B of the specification: six recent accounts, two without
    approval. *)
Definition two_of_six : Checks.CheckResult :=
  {| Checks.status := "fail";
     Checks.summary :=
       [("lookback_days", PInt 30); ("required_attribute", PStr "approvedBy");
        ("recent_users_checked", PInt 6); ("missing_approval", PInt 2)]%string;
     Checks.findings := [];
     Checks.short_description := "LA.01: 2 new account(s) provisioned without approval record";
     Checks.description := "" |}.

(** A failed LA.01 result with the two metrics given. *)
Definition failed_with (checked missing : Z) : Checks.CheckResult :=
  {| Checks.status := "fail";
     Checks.summary :=
       [("recent_users_checked", PInt checked); ("missing_approval", PInt missing)]%string;
     Checks.findings := [];
     Checks.short_description := "";
     Checks.description := "" |}.

Definition check_error : Checks.CheckResult :=
  {| Checks.status := "error";
     Checks.summary := [("error"%string, PStr "connection refused")];
     Checks.findings := [];
     Checks.short_description := "";
     Checks.description := "" |}.

Definition all_approved : Checks.CheckResult :=
  {| Checks.status := "pass";
     Checks.summary :=
       [("lookback_days", PInt 30); ("required_attribute", PStr "approvedBy");
        ("recent_users_checked", PInt 3); ("missing_approval", PInt 0)]%string;
     Checks.findings := [];
     Checks.short_description := "";
     Checks.description := "" |}.

Definition sample_claim (r : Checks.CheckResult) (ctrl : Checks.Control)
    : Py.result Claims.Claim :=
  Claims.build_claim Sample.round_half_even Sample.repr_any Sample.dumps Sample.sign_bytes
    "1b4e28ba-2fa1-41d2-883f-0016d3cca427" "2024-01-08T01:00:00+00:00"
    r "0f8fad5b-d9cb-469f-a165-70867728950e" ctrl Sample.key_pair ["P1"]%string.

Definition unparseable_user : Checks.User :=
  {| Checks.user_id := "7c9e6679-7425-40de-944b-e07fc1f90ae7";
     Checks.username := "alice";
     Checks.enabled := Some false;
     Checks.attributes := Some [("terminationRequestDate", ["not-a-date"])]%string |}.

Definition overdue_user : Checks.User :=
  {| Checks.user_id := "e4eaaaf2-d142-11e1-b3e4-080027620cdd";
     Checks.username := "bob";
     Checks.enabled := Some false;
     Checks.attributes := Some [("terminationRequestDate", ["2024-01-01"])]%string |}.

(** 2024-01-08T01:00:00Z, in microseconds since the epoch. *)
Definition sample_now : Z := 1704675600000000.

Definition default_params : Checks.SlaParams := Checks.mkSlaParams None None.

Definition admins_ok : Checks.CheckResult :=
  {| Checks.status := "pass";
     Checks.summary :=
       [("role_name", PStr "admin"); ("admin_count", PInt 1); ("max_allowed", PInt 3)]%string;
     Checks.findings := [];
     Checks.short_description := "";
     Checks.description := "" |}.

Definition products : list Agent.Product :=
  [{| Agent.prod_id := "P1"; Agent.prod_controls := ["LA.01"; "LA.04"] |}]%string.

Definition envelope_world (pid : string) : Agent.EnvelopeWorld :=
  {| Agent.ew_uuid4 := cat ["6fa459ea-ee8a-3ca4-894e-db77e160355e/"; pid];
     Agent.ew_valid_from := "2024-01-08T01:00:01+00:00";
     Agent.ew_valid_until := "2024-01-09T01:00:01+00:00";
     Agent.ew_insert_ok := true |}.

(** A world in which everything works; the database gives the new
    evidence row the id [evidence_id]. *)
Definition world_ok (check : Checks.CheckResult) (evidence_id : string) : Agent.World :=
  {| Agent.w_check := inr check;
     Agent.w_collected_at := "2024-01-08T01:00:00+00:00";
     Agent.w_insert_evidence := Some evidence_id;
     Agent.w_claim_uuid4 := "1b4e28ba-2fa1-41d2-883f-0016d3cca427";
     Agent.w_claim_now := "2024-01-08T01:00:00+00:00";
     Agent.w_envelope := envelope_world;
     Agent.w_is_ticket_open := Ok false;
     Agent.w_create_ticket := Some ("INC0000001", "9d2b0228-4d0d-4c23-8b49-01a698857709")%string;
     Agent.w_insert_run_ok := true |}.

(** The same world, except that [insert_evidence] raises. *)
Definition world_insert_fails (check : Checks.CheckResult) : Agent.World :=
  {| Agent.w_check := inr check;
     Agent.w_collected_at := "2024-01-08T01:00:00+00:00";
     Agent.w_insert_evidence := None;
     Agent.w_claim_uuid4 := "1b4e28ba-2fa1-41d2-883f-0016d3cca427";
     Agent.w_claim_now := "2024-01-08T01:00:00+00:00";
     Agent.w_envelope := envelope_world;
     Agent.w_is_ticket_open := Ok false;
     Agent.w_create_ticket := Some ("INC0000001", "9d2b0228-4d0d-4c23-8b49-01a698857709")%string;
     Agent.w_insert_run_ok := true |}.

Definition empty_state : Agent.AgentState :=
  {| Agent.merkle_tree := Merkle.__init__; Agent.db := Agent.mkDb [] [] [] |}.

Definition run_start : string := "2024-01-08T01:00:00+00:00".

Definition cycle (controls : list (Checks.Control * Agent.World)) (st : Agent.AgentState)
    : Agent.AgentState * option exn :=
  Agent.run_cycle Sample.digest Sample.dumps Sample.sign_bytes Sample.key_hex
    Sample.round_half_even Sample.sum_floats Sample.repr_any
    "master" products run_start (Some Sample.key_pair) Sample.key_pair controls st.

Definition loop (cycles : list (string * list (Checks.Control * Agent.World)))
    (st : Agent.AgentState) : Agent.AgentState :=
  Agent.main_loop Sample.digest Sample.dumps Sample.sign_bytes Sample.key_hex
    Sample.round_half_even Sample.sum_floats Sample.repr_any
    "master" products (Some Sample.key_pair) Sample.key_pair cycles st.

(** The cycle in which persisting the evidence of the first control fails. *)
Definition failing_cycle : list (Checks.Control * Agent.World) :=
  [(la01, world_insert_fails all_approved); (la04, world_ok admins_ok "ev-2")].

(** ** Further inputs *)

Definition key_files : Sample.Disk :=
  Sample.mkDisk ["/tmp"%string] [("/tmp/README"%string, [x2a])].

Definition sample_load_or_generate (fs : Sample.Disk) (generated : list byte)
    (private_path public_path : string) : Py.result Keys.KeyPair * Sample.Disk :=
  Keys.load_or_generate Sample.public_of Sample.load_pem Sample.private_pem
    Sample.public_pem Sample.path_exists Sample.read_file Sample.dirname Sample.makedirs
    Sample.write_file fs generated private_path public_path.

Definition new_account (name : string) (approved : bool) (ts : option Z) : Checks.Account :=
  {| Checks.account_user :=
       {| Checks.user_id := cat ["id-"; name];
          Checks.username := name;
          Checks.enabled := Some true;
          Checks.attributes :=
            Some (if approved then [("approvedBy", ["carol"])]%string else []) |};
     Checks.createdTimestamp := ts |}.

(** Two accounts created a week before [sample_now], one of them without
    approval, and one created long before the cutoff. *)
Definition accounts : list Checks.Account :=
  [new_account "dave" true (Some 1704070800000);
   new_account "erin" false (Some 1704070800000);
   new_account "frank" false (Some 1600000000000)].

Definition approval_defaults : Checks.ApprovalParams := Checks.mkApprovalParams None None.

Definition la02 : Checks.Control :=
  {| Checks.ctrl_id := "LA.02";
     Checks.ctrl_name := "Terminations";
     Checks.ctrl_description := None;
     Checks.ctrl_check := "terminations_sla";
     Checks.ctrl_params := None;
     Checks.ctrl_severity := Some "critical"%string;
     Checks.ctrl_framework_mappings := None |}.

Definition la03 : Checks.Control :=
  {| Checks.ctrl_id := "LA.03";
     Checks.ctrl_name := "Quarterly user access review";
     Checks.ctrl_description := None;
     Checks.ctrl_check := "quarterly_uar";
     Checks.ctrl_params := None;
     Checks.ctrl_severity := None;
     Checks.ctrl_framework_mappings := None |}.

Definition unknown_control : Checks.Control :=
  {| Checks.ctrl_id := "LA.99";
     Checks.ctrl_name := "Not implemented";
     Checks.ctrl_description := None;
     Checks.ctrl_check := "password_rotation";
     Checks.ctrl_params := None;
     Checks.ctrl_severity := None;
     Checks.ctrl_framework_mappings := None |}.

(** A world in which the ticketing service reports the last ticket as
    open, and would hand out a second ticket if asked. *)
Definition world_ticket_open (check : Checks.CheckResult) (evidence_id : string)
    : Agent.World :=
  {| Agent.w_check := inr check;
     Agent.w_collected_at := "2024-01-08T01:05:00+00:00";
     Agent.w_insert_evidence := Some evidence_id;
     Agent.w_claim_uuid4 := "c9bf9e57-1685-4c89-bafb-ff5af830be8a";
     Agent.w_claim_now := "2024-01-08T01:05:00+00:00";
     Agent.w_envelope := envelope_world;
     Agent.w_is_ticket_open := Ok true;
     Agent.w_create_ticket := Some ("INC0000002", "16fd2706-8baf-433b-82eb-8c7fada847da")%string;
     Agent.w_insert_run_ok := true |}.

(** A world in which the ticketing service is down: looking up a ticket
    fails with an HTTP error and no ticket can be created. *)
Definition world_ticketing_down (check : Checks.CheckResult) (evidence_id : string)
    : Agent.World :=
  {| Agent.w_check := inr check;
     Agent.w_collected_at := "2024-01-08T01:10:00+00:00";
     Agent.w_insert_evidence := Some evidence_id;
     Agent.w_claim_uuid4 := "7c9e6679-7425-40de-944b-e07fc1f90ae7";
     Agent.w_claim_now := "2024-01-08T01:10:00+00:00";
     Agent.w_envelope := envelope_world;
     Agent.w_is_ticket_open := Raise HTTPError;
     Agent.w_create_ticket := None;
     Agent.w_insert_run_ok := true |}.

Definition control_step (st : Agent.AgentState) (ctrl : Checks.Control) (w : Agent.World)
    : Agent.AgentState * option exn :=
  Agent.run_control Sample.digest Sample.dumps Sample.sign_bytes Sample.key_hex
    Sample.round_half_even Sample.sum_floats Sample.repr_any
    "master" products run_start (Some Sample.key_pair) Sample.key_pair st ctrl w.

Definition sample_row_verifies : Agent.EvidenceRow -> Prop :=
  Agent.row_verifies Sample.digest Sample.dumps Sample.verify_bytes Sample.key_pair.

Definition two_cycles : list (string * list (Checks.Control * Agent.World)) :=
  [(run_start, failing_cycle); (run_start, [(la04, world_ok admins_ok "ev-2")])].

Definition realm_without_uar : Checks.Realm := Checks.mkRealm (Some []).

Definition four_admins (role : string) : string + list Checks.User :=
  inr (map (fun name =>
              {| Checks.user_id := cat ["id-"; name];
                 Checks.username := name;
                 Checks.enabled := Some true;
                 Checks.attributes := None |})
           ["root"; "ops"; "dba"; "audit"]%string).

Definition sample_claim_of (r : Checks.CheckResult) (ctrl : Checks.Control)
    : Py.result Claims.Claim :=
  Pipeline.claim_of Sample.round_half_even Sample.repr_any Sample.dumps Sample.sign_bytes
    "1b4e28ba-2fa1-41d2-883f-0016d3cca427" "2024-01-08T01:00:00+00:00"
    r "0f8fad5b-d9cb-469f-a165-70867728950e" ctrl Sample.key_pair ["P1"]%string.

(** ** Merkle log *)

(** The proof of the third of three leaves verifies. *)
Lemma get_proof_verifies_witness :
  0 <= 2 < Merkle.count three_leaves /\
  exists p,
    Merkle.get_proof Sample.digest three_leaves 2 = inr p /\
    Merkle._leaves three_leaves !! Z.to_nat 2 = Some (Merkle.leaf_hash p) /\
    Merkle.index p = 2 /\
    Merkle.root Sample.digest three_leaves = Some (Merkle.root_hash p) /\
    Merkle.verify_proof Sample.digest (Merkle.leaf_hash p) (Merkle.proof_hashes p)
      (Merkle.root_hash p) = true.
Proof.
  assert (H : 0 <= 2 < Merkle.count three_leaves) by (unfold Merkle.count; simpl; lia).
  split; [exact H |].
  exact (proj1 (Merkle.get_proof_verifies Sample.digest three_leaves 2) H).
Defined.


(** ** Signatures *)

(** With the sample signature scheme, a signature verifies with and
    without its padding. *)
Lemma verify_ignores_padding_witness :
  let signed := Keys.sign Sample.dumps Sample.sign_bytes Sample.key_pair (PInt 7) in
  Keys.verify Sample.dumps Sample.verify_bytes Sample.key_pair (PInt 7) "AQI="
  = Keys.verify Sample.dumps Sample.verify_bytes Sample.key_pair (PInt 7)
      (Py.rstrip_eq "AQI=") /\
  Keys.verify Sample.dumps Sample.verify_bytes Sample.key_pair (PInt 7) signed = true /\
  Keys.verify Sample.dumps Sample.verify_bytes Sample.key_pair (PInt 7)
    (Py.rstrip_eq signed) = true /\
  Keys.ends_with_pad signed = true.
Proof.
  exact (Keys.verify_ignores_padding Sample.dumps Sample.public_of Sample.sign_bytes
           Sample.verify_bytes Sample.sign_bytes_length Sample.sign_bytes_verifies
           Sample.key_pair [x2a] (PInt 7) "AQI=").
Defined.

(** With the sample signature scheme, the text [sign] returns ends in
    [==]. *)
Lemma sign_keeps_padding_witness :
  let signed := Keys.sign Sample.dumps Sample.sign_bytes Sample.key_pair (PDict []) in
  signed = (Py.rstrip_eq signed ++ "==")%string /\
  String.length signed = 88%nat /\
  Keys.ends_with_pad signed = true /\
  Py.rstrip_eq signed <> signed.
Proof.
  exact (Keys.sign_keeps_padding Sample.dumps Sample.sign_bytes Sample.sign_bytes_length
           Sample.key_pair (PDict [])).
Defined.

(** ** Claims *)

(** On scenario B the claim has the confidence the LA.01 rule gives; on
    metrics whose quotient is beyond the floats, no claim is built. *)
Lemma build_claim_confidence_witness :
  Checks.status two_of_six = "fail"%string /\
  Checks.ctrl_id la01 = "LA.01"%string /\
  int_truediv 2 6 = Ok (2.0 / 6.0)%float /\
  (exists claim,
     sample_claim two_of_six la01 = Ok claim /\
     Claims.confidence claim = Sample.round_half_even (1.0 - 2.0 / 6.0)%float 4) /\
  int_truediv (10 ^ 400) 3 = Raise OverflowError /\
  sample_claim (failed_with 3 (10 ^ 400)) la01 = Raise OverflowError.
Proof.
  split; [reflexivity |]. split; [reflexivity |].
  assert (Hrate : int_truediv 2 6 = Ok (2.0 / 6.0)%float) by (vm_compute; reflexivity).
  assert (Hhuge : int_truediv (10 ^ 400) 3 = Raise OverflowError)
    by (vm_compute; reflexivity).
  split; [exact Hrate |].
  pose proof (fun r =>
    proj1 (proj2 (proj2
      (Claims.build_claim_confidence_and_grade Sample.round_half_even
         Sample.repr_any Sample.dumps Sample.sign_bytes
         "1b4e28ba-2fa1-41d2-883f-0016d3cca427" "2024-01-08T01:00:00+00:00"
         r "0f8fad5b-d9cb-469f-a165-70867728950e" la01 Sample.key_pair
         ["P1"]%string)))) as H.
  destruct (H two_of_six eq_refl eq_refl 6 2 eq_refl eq_refl) as (_ & Hvalue & _).
  destruct (H (failed_with 3 (10 ^ 400)) eq_refl eq_refl 3 (10 ^ 400) eq_refl eq_refl)
    as (_ & _ & Hraise & _).
  split; [exact (Hvalue eq_refl _ Hrate) |].
  split; [exact Hhuge | exact (Hraise eq_refl _ Hhuge)].
Defined.

(** Python's division of two integers rounds the exact quotient: beyond
    2**53 it differs from the quotient of the two operands rounded first. *)
Example int_truediv_rounds_once :
  int_truediv (2 ^ 53 + 1) 3 = Ok 3002399751580331.0%float /\
  (float_of_Z (2 ^ 53 + 1) / float_of_Z 3 <? 3002399751580331.0)%float = true /\
  int_truediv (10 ^ 400) (10 ^ 399) = Ok 10.0%float /\
  int_truediv 0 (-5) = Ok (-0.0)%float /\
  int_truediv 1 0 = Raise ZeroDivisionError.
Proof. repeat split; vm_compute; reflexivity. Qed.

(** Metrics beyond 2**53: the confidence is computed from the exact
    quotient. *)
Example confidence_of_huge_metrics :
  exists claim,
    sample_claim (failed_with 3 (2 ^ 53 + 1)) la01 = Ok claim /\
    Claims.confidence claim = (-3002399751580330.0)%float.
Proof. eexists. split; [vm_compute; reflexivity | reflexivity]. Qed.

(** Scenario B in numbers: confidence 0.6667, result PARTIAL. *)
Example scenario_b_claim :
  exists claim,
    sample_claim two_of_six la01 = Ok claim /\
    Claims.confidence claim = 0.6667%float /\
    Claims.result claim = Claims.PARTIAL.
Proof. eexists. split; [vm_compute; reflexivity |]. split; reflexivity. Qed.

(** An errored check gives a claim with one caveat: its caveats list is
    not empty. *)
Lemma error_claim_has_caveat :
  Checks.status check_error = "error"%string /\
  exists claim,
    sample_claim check_error la01 = Ok claim /\
    Claims.caveats claim <> [].
Proof.
  split; [reflexivity |].
  eexists. split; [vm_compute; reflexivity |]. discriminate.
Defined.

(** A passed check gives a claim without caveats and recommendations. *)
Lemma caveats_on_pass_witness :
  Checks.status all_approved = "pass"%string /\
  exists claim,
    sample_claim all_approved la01 = Ok claim /\
    Claims.caveats claim = [] /\ Claims.recommendations claim = [].
Proof.
  split; [reflexivity |].
  exact (proj1
           (Claims.caveats_on_pass_and_error Sample.round_half_even
              Sample.repr_any Sample.dumps Sample.sign_bytes
              "1b4e28ba-2fa1-41d2-883f-0016d3cca427" "2024-01-08T01:00:00+00:00"
              all_approved "0f8fad5b-d9cb-469f-a165-70867728950e" la01 Sample.key_pair
              ["P1"]%string)
           eq_refl).
Defined.

(** ** Trust levels *)

(** The composite confidence of scenario B is MEDIUM, as the thresholds
    say. *)
Lemma trust_level_thresholds_witness :
  Envelope.geb 0.6667 0.0 = true /\ Envelope.geb 1.0 0.6667 = true /\
  (Envelope.compute_trust_level 0.6667 = Envelope.MEDIUM <->
   Envelope.geb 0.6667 0.55 = true /\ (0.6667 <? 0.75)%float = true).
Proof.
  assert (H0 : Envelope.geb 0.6667 0.0 = true) by reflexivity.
  assert (H1 : Envelope.geb 1.0 0.6667 = true) by reflexivity.
  split; [exact H0 |]. split; [exact H1 |].
  exact (proj1 (proj2 (proj2
           (proj1 (Envelope.trust_level_thresholds Sample.round_half_even
                     Sample.sum_floats Sample.digest Sample.dumps Sample.sign_bytes
                     Sample.key_hex)
              0.6667%float H0 H1)))).
Defined.

(** ** LA.02 *)

(** A disabled user whose termination date does not parse is counted in
    [disabled_users_with_sla_tracking]: the check reports 1 where the
    number of disabled users with a parseable attribute is 0. *)
Lemma unparseable_date_is_tracked :
  let r := fst (Checks.terminations_sla Sample.fromisoformat Sample.isoformat
                  (inr [unparseable_user]) default_params sample_now) in
  Checks.parsed_date Sample.fromisoformat "terminationRequestDate" unparseable_user = None /\
  get (Checks.summary r) "disabled_users_with_sla_tracking" PNone = PInt 1 /\
  get (Checks.summary r) "disabled_users_with_sla_tracking" PNone
    <> PInt (Checks.tracked_as_specified Sample.fromisoformat "terminationRequestDate"
               [unparseable_user]).
Proof.
  split; [reflexivity |]. split; [reflexivity |]. vm_compute. discriminate.
Defined.

(** One unparseable and one overdue user: two tracked, one breach, one
    warning, status fail. *)
Lemma terminations_sla_counts_witness :
  let out := Checks.terminations_sla Sample.fromisoformat Sample.isoformat
               (inr [unparseable_user; overdue_user]) default_params sample_now in
  get (Checks.summary (fst out)) "disabled_users_with_sla_tracking" PNone = PInt 2 /\
  get (Checks.summary (fst out)) "sla_breaches" PNone = PInt 1 /\
  length (snd out) = 1%nat /\
  Checks.status (fst out) = "fail"%string.
Proof.
  destruct (Checks.terminations_sla_counts Sample.fromisoformat Sample.isoformat
              [unparseable_user; overdue_user] default_params sample_now)
    as (Ht & Hb & Hw & Hs & _).
  split; [exact Ht |]. split; [exact Hb |]. split; [exact Hw |].
  apply Hs. exists overdue_user. split; [right; left; reflexivity |].
  split; reflexivity.
Defined.

(** ** The cycle driver *)

(** When [insert_evidence] fails for the first of two controls, the cycle
    stops there: the second control is not processed (no evidence row, no
    run row), and the leaf appended for the first one stays in the
    in-memory log, which now holds one leaf against zero persisted rows.
    The next cycle then persists index 1 and the set of persisted indices
    is [{1}], not [{0}]. *)
Lemma persist_failure_leaves_leaf :
  Agent.consistent empty_state /\
  snd (cycle failing_cycle empty_state) = Some OperationalError /\
  Agent.evidence (Agent.db (fst (cycle failing_cycle empty_state))) = [] /\
  Agent.control_runs (Agent.db (fst (cycle failing_cycle empty_state))) = [] /\
  Merkle.count (Agent.merkle_tree (fst (cycle failing_cycle empty_state))) = 1 /\
  ~ Agent.consistent (fst (cycle failing_cycle empty_state)) /\
  map Agent.merkle_index
    (Agent.evidence (Agent.db
       (loop [(run_start, failing_cycle); (run_start, [(la04, world_ok admins_ok "ev-2")])]
          empty_state)))
  = [Some 1].
Proof.
  split; [split; reflexivity |].
  split; [vm_compute; reflexivity |].
  split; [vm_compute; reflexivity |].
  split; [vm_compute; reflexivity |].
  split; [vm_compute; reflexivity |].
  split; [| vm_compute; reflexivity].
  intros [H _]. vm_compute in H. discriminate H.
Defined.

(** One control is processed, then persisting fails for the next: the
    database stays as the first control left it and the log has one leaf
    more than there are rows.  Without a registered key pair the cycle
    ends at its first control and nothing changes. *)
Lemma load_bearing_failure_witness :
  let pre := [(la04, world_ok admins_ok "ev-1")] in
  let st1 := fst (cycle pre empty_state) in
  let unsigned :=
    Agent.run_cycle Sample.digest Sample.dumps Sample.sign_bytes Sample.key_hex
      Sample.round_half_even Sample.sum_floats Sample.repr_any
      "master" products run_start None Sample.key_pair in
  cycle pre empty_state = (st1, None) /\
  Agent.registered (Checks.ctrl_check la01) = true /\
  Agent.w_insert_evidence (world_insert_fails all_approved) = None /\
  (exists st2,
     cycle (pre ++ failing_cycle) empty_state = (st2, Some OperationalError) /\
     Agent.db st2 = Agent.db st1 /\
     length (Agent.evidence (Agent.db st2)) = 1%nat /\
     Merkle.count (Agent.merkle_tree st2) = 2 /\
     ~ Agent.consistent st2 /\
     loop [(run_start, pre ++ failing_cycle)] empty_state = loop [] st2) /\
  unsigned failing_cycle empty_state
  = (empty_state,
     Some (RuntimeError "signer.init() must be called before signer.sign()")).
Proof.
  intros pre st1 unsigned.
  assert (Hpre : cycle pre empty_state = (st1, None)) by (vm_compute; reflexivity).
  split; [exact Hpre |]. split; [reflexivity |]. split; [reflexivity |].
  split.
  - destruct (proj1 (Agent.load_bearing_failure_aborts_cycle Sample.digest Sample.dumps
                       Sample.sign_bytes Sample.key_hex Sample.round_half_even
                       Sample.sum_floats Sample.repr_any "master" products run_start
                       (Some Sample.key_pair) Sample.key_pair pre la01
                       (world_insert_fails all_approved)
                       [(la04, world_ok admins_ok "ev-2")] [] empty_state st1
                       Hpre eq_refl)
                _ eq_refl eq_refl) as (st2 & Hrun & Hdb & _ & Hcons & Hloop).
    destruct (Hcons (conj eq_refl eq_refl)) as (_ & Hbroken & Hcount).
    exists st2. split; [exact Hrun |]. split; [exact Hdb |].
    split; [rewrite Hdb; reflexivity |].
    split; [rewrite Hcount, Hdb; reflexivity |].
    split; [exact Hbroken | exact Hloop].
  - exact (proj1 (proj2 (proj2
             (proj2 (Agent.load_bearing_failure_aborts_cycle Sample.digest Sample.dumps
                       Sample.sign_bytes Sample.key_hex Sample.round_half_even
                       Sample.sum_floats Sample.repr_any "master" products run_start
                       None Sample.key_pair [] la01
                       (world_insert_fails all_approved)
                       [(la04, world_ok admins_ok "ev-2")] [] empty_state empty_state
                       eq_refl eq_refl)
                eq_refl)))).
Defined.

(** ** Further properties on concrete inputs *)

(** The proof of the third of three leaves has two steps. *)
Lemma proof_is_logarithmic_witness :
  exists p,
    Merkle.get_proof Sample.digest three_leaves 2 = inr p /\
    let h := length (Merkle.proof_hashes p) in
    S h = length (Merkle._build_tree Sample.digest (Merkle._leaves three_leaves)) /\
    (length (Merkle._leaves three_leaves) <= 2 ^ h)%nat /\
    ((1 < length (Merkle._leaves three_leaves))%nat ->
     (2 ^ (h - 1) < length (Merkle._leaves three_leaves))%nat) /\
    Forall (fun step => Merkle.step_position step = "left"%string \/
                        Merkle.step_position step = "right"%string)
      (Merkle.proof_hashes p).
Proof.
  assert (Hidx : (2 < length (Merkle._leaves three_leaves))%nat) by (simpl; lia).
  destruct (Merkle.get_proof_in_range Sample.digest three_leaves 2 Hidx) as (p & Hp & _).
  exists p. split; [exact Hp |].
  exact (Merkle.proof_is_logarithmic Sample.digest three_leaves 2 p Hp).
Defined.

(** The key generated on the first start is the key loaded on the second;
    and when the directory of the public file is missing, the first start
    raises after the private file is written, and the second start loads
    the key from it. *)
Lemma load_or_generate_persists_witness :
  let first :=
    sample_load_or_generate key_files [x2a]
      "/keys/signing_key.pem" "/keys/signing_key.pub.pem" in
  let failed :=
    sample_load_or_generate key_files [x2a]
      "/keys/signing_key.pem" "/pub/signing_key.pub.pem" in
  Sample.path_exists key_files "/keys/signing_key.pem" = false /\
  fst first = Ok Sample.key_pair /\
  Sample.read_file (snd first) "/keys/signing_key.pem" = Ok (Sample.private_pem [x2a]) /\
  Sample.read_file (snd first) "/keys/signing_key.pub.pem"
  = Ok (Sample.public_pem (Sample.public_of [x2a])) /\
  sample_load_or_generate (snd first) [x07]
    "/keys/signing_key.pem" "/keys/signing_key.pub.pem"
  = (Ok Sample.key_pair, snd first) /\
  fst failed = Raise FileNotFoundError /\
  Sample.read_file (snd failed) "/pub/signing_key.pub.pem" = Raise FileNotFoundError /\
  sample_load_or_generate (snd failed) [x07]
    "/keys/signing_key.pem" "/pub/signing_key.pub.pem"
  = (Ok Sample.key_pair, snd failed).
Proof.
  intros first failed.
  assert (Habsent : Sample.path_exists key_files "/keys/signing_key.pem" = false)
    by reflexivity.
  assert (Hkeep : forall public_path,
            String.eqb "/keys/signing_key.pem" public_path = false ->
            forall fs2 data fs3 e,
              Sample.write_file fs2 public_path data = (fs3, e) ->
              Sample.path_exists fs3 "/keys/signing_key.pem"
              = Sample.path_exists fs2 "/keys/signing_key.pem" /\
              Sample.read_file fs3 "/keys/signing_key.pem"
              = Sample.read_file fs2 "/keys/signing_key.pem").
  { intros public_path Hne fs2 data fs3 e. unfold Sample.write_file.
    destruct (Sample.is_dir fs2 (Sample.dirname public_path)); intros [= <- <-];
      [| split; reflexivity].
    unfold Sample.path_exists, Sample.read_file, Sample.file_contents.
    cbn [Sample.disk_files Sample.disk_dirs List.find fst]. rewrite Hne.
    split; reflexivity. }
  pose proof (fun public_path Hne =>
    Keys.load_or_generate_persists Sample.public_of Sample.load_pem Sample.private_pem
      Sample.public_pem Sample.path_exists Sample.read_file Sample.dirname Sample.makedirs
      Sample.write_file (fun k => eq_refl) Sample.disk_write_then_read
      key_files [x2a] [x07] "/keys/signing_key.pem" public_path Habsent
      (Hkeep public_path Hne)) as H.
  destruct (H "/keys/signing_key.pub.pem"%string eq_refl)
    as (_ & _ & _ & Hok & _ & Hlater).
  destruct (Hok eq_refl eq_refl eq_refl) as [Hfirst Hpublic].
  destruct (Hlater eq_refl eq_refl) as (Hstate & Hprivate & Hreload).
  destruct (H "/pub/signing_key.pub.pem"%string eq_refl)
    as (_ & _ & Hraise & _ & _ & Hlater').
  destruct (Hlater' eq_refl eq_refl) as (_ & _ & Hreload').
  split; [exact Habsent |].
  split; [unfold first, sample_load_or_generate; rewrite Hfirst; reflexivity |].
  split; [exact Hprivate |].
  split; [unfold first, sample_load_or_generate; rewrite Hfirst; exact Hpublic |].
  split; [exact Hreload |].
  split; [unfold failed, sample_load_or_generate;
          rewrite (Hraise eq_refl eq_refl FileNotFoundError eq_refl); reflexivity |].
  split; [reflexivity | exact Hreload'].
Defined.

(** A private path without a directory part: [os.makedirs("")] raises,
    and nothing is written. *)
Example load_or_generate_bare_name :
  sample_load_or_generate key_files [x2a] "signing_key.pem" "signing_key.pub.pem"
  = (Raise FileNotFoundError, key_files).
Proof. reflexivity. Qed.

(** The proof of the third of three leaves, replayed from that leaf. *)
Lemma proof_binds_leaf_witness :
  let steps :=
    [Merkle.mkStep "c" "right"; Merkle.mkStep (Merkle._hash_pair Sample.digest "a" "b") "left"] in
  let top :=
    Merkle._hash_pair Sample.digest (Merkle._hash_pair Sample.digest "a" "b")
      (Merkle._hash_pair Sample.digest "c" "c") in
  Merkle.verify_proof Sample.digest "c" steps top = true /\
  ("c"%string = "c"%string \/ Merkle.collision Sample.digest).
Proof.
  intros steps top.
  assert (H : Merkle.verify_proof Sample.digest "c" steps top = true) by reflexivity.
  split; [exact H |].
  exact (proj1 (Merkle.proof_binds_leaf Sample.digest Sample.dumps) "c"%string "c"%string
           steps top H H).
Defined.

Lemma new_access_counts_witness :
  Sample.cutoff_seconds sample_now 30
  = inr (float_of_Z (sample_now - 30 * 86400000000) / float_of_Z 1000000)%float /\
  int_of_float ((float_of_Z (sample_now - 30 * 86400000000) / float_of_Z 1000000) * 1000)%float
  = inr 1702083600000 /\
  exists r,
    Checks.new_access_no_approval Sample.cutoff_seconds Sample.created_text
      (inr accounts) approval_defaults sample_now = inr r /\
    get (Checks.summary r) "recent_users_checked" PNone = PInt 2 /\
    get (Checks.summary r) "missing_approval" PNone = PInt 1 /\
    Checks.status r = "fail"%string.
Proof.
  assert (Hcut : Sample.cutoff_seconds sample_now 30
                 = inr (float_of_Z (sample_now - 30 * 86400000000)
                        / float_of_Z 1000000)%float) by reflexivity.
  assert (Hint : int_of_float
                   ((float_of_Z (sample_now - 30 * 86400000000) / float_of_Z 1000000)
                    * 1000)%float = inr 1702083600000) by (vm_compute; reflexivity).
  split; [exact Hcut |]. split; [exact Hint |].
  destruct (Checks.new_access_counts Sample.cutoff_seconds Sample.created_text
              accounts approval_defaults sample_now _ _ Hcut Hint) as (Hcounts & Htotal & _).
  destruct Htotal as [r Hr].
  { intros a Hin _.
    repeat (destruct Hin as [<- | Hin]; [eexists _, _; split; reflexivity |]).
    destruct Hin. }
  exists r. split; [exact Hr |].
  destruct (Hcounts r Hr) as (Hchecked & Hmissing & _ & _ & Hfail & _).
  split; [exact Hchecked |]. split; [exact Hmissing |].
  apply Hfail. exists (new_account "erin" false (Some 1704070800000)).
  split; [right; left; reflexivity | reflexivity].
Defined.


Lemma claim_signature_verifies_witness :
  exists claim,
    sample_claim two_of_six la01 = Ok claim /\
    Keys.verify Sample.dumps Sample.verify_bytes Sample.key_pair
      (PDict (Claims.signable_dict claim)) (Claims.signature claim) = true /\
    lookup_key (Claims.to_dict claim) "signature" = Some (PStr (Claims.signature claim)).
Proof.
  destruct (sample_claim two_of_six la01) as [claim | e] eqn:Hclaim;
    [| vm_compute in Hclaim; discriminate Hclaim].
  exists claim. split; [reflexivity |].
  destruct (Claims.claim_signature_verifies Sample.round_half_even Sample.repr_any
              Sample.dumps Sample.sign_bytes Sample.public_of Sample.verify_bytes
              Sample.sign_bytes_verifies _ _ _ _ _ [x2a] _ claim Hclaim)
    as (_ & Hverify & _ & Hsig & _).
  split; [exact Hverify | exact Hsig].
Defined.

Lemma map_result_agrees_witness :
  exists claim,
    sample_claim two_of_six la01 = Ok claim /\
    (Claims.result claim = Claims.PARTIAL <->
     (0.0 <? Claims.confidence claim)%float = true /\
     (Claims.confidence claim <? 1.0)%float = true).
Proof.
  destruct (sample_claim two_of_six la01) as [claim | e] eqn:Hclaim;
    [| vm_compute in Hclaim; discriminate Hclaim].
  exists claim. split; [reflexivity |].
  exact (proj1 (proj1 (proj2
           (Claims.map_result_agrees Sample.round_half_even Sample.repr_any Sample.dumps
              Sample.sign_bytes _ _ _ _ _ _ _ claim Hclaim)) eq_refl)).
Defined.

Lemma trust_level_monotone_witness :
  (0.6667 <=? 0.95)%float = true /\
  Envelope.rank (Envelope.compute_trust_level 0.6667)
  <= Envelope.rank (Envelope.compute_trust_level 0.95).
Proof.
  assert (H : (0.6667 <=? 0.95)%float = true) by reflexivity.
  split; [exact H |]. exact (proj1 Envelope.trust_level_monotone 0.6667%float 0.95%float H).
Defined.

Lemma envelope_signature_verifies_witness :
  let envelope :=
    Envelope.build_trust_envelope Sample.round_half_even Sample.sum_floats Sample.digest
      Sample.dumps Sample.sign_bytes Sample.key_hex
      "6fa459ea-ee8a-3ca4-894e-db77e160355e" "2024-01-08T01:00:01+00:00"
      "2024-01-09T01:00:01+00:00" la01 "P1" [] three_leaves Sample.key_pair run_start
      Envelope.FULL in
  Keys.verify Sample.dumps Sample.verify_bytes Sample.key_pair
    (PDict (Envelope.signable_dict envelope)) (Envelope.env_signature envelope) = true /\
  Envelope.total_items (Envelope.evidence_summary envelope) = 3 /\
  Envelope.trust_level envelope = Envelope.CRITICAL.
Proof.
  intros envelope.
  destruct (Envelope.envelope_signature_verifies Sample.round_half_even Sample.sum_floats
              Sample.digest Sample.dumps Sample.sign_bytes Sample.key_hex Sample.public_of
              Sample.verify_bytes Sample.sign_bytes_verifies
              "6fa459ea-ee8a-3ca4-894e-db77e160355e" "2024-01-08T01:00:01+00:00"
              "2024-01-09T01:00:01+00:00" la01 "P1" [] three_leaves [x2a] run_start
              Envelope.FULL)
    as (_ & Hverify & _ & _ & Hitems & _ & _ & Hempty).
  split; [exact Hverify |]. split; [exact Hitems |]. exact (proj1 (proj2 (Hempty eq_refl))).
Defined.

Lemma signer_round_trip_witness :
  exists sig,
    Agent.signer_sign Sample.dumps Sample.sign_bytes (Agent.signer_init Sample.key_pair)
      [("status"%string, PStr "pass")] = Ok sig /\
    Agent.signer_verify Sample.dumps Sample.verify_bytes (Agent.signer_init Sample.key_pair)
      [("status"%string, PStr "pass")] sig = Ok true.
Proof.
  exact (proj1 (Agent.signer_round_trip Sample.dumps Sample.sign_bytes Sample.public_of
                  Sample.verify_bytes Sample.sign_bytes_verifies [x2a]
                  [("status"%string, PStr "pass")] "")).
Defined.

(** A cycle over an unknown check and LA.04: one evidence row, one run
    row. *)
Lemma completed_cycle_rows_witness :
  let controls := [(unknown_control, world_ok admins_ok "ev-0");
                   (la04, world_ok admins_ok "ev-1")] in
  let st1 := fst (cycle controls empty_state) in
  cycle controls empty_state = (st1, None) /\
  exists new_evidence new_runs,
    Agent.evidence (Agent.db st1) = [] ++ new_evidence /\
    Agent.control_runs (Agent.db st1) = [] ++ new_runs /\
    map Agent.ev_control_id new_evidence = ["LA.04"%string] /\
    map Agent.run_evidence_id new_runs = map Agent.ev_id new_evidence /\
    Merkle.count (Agent.merkle_tree st1) = 0 + 1.
Proof.
  intros controls st1.
  assert (Hrun : cycle controls empty_state = (st1, None)) by (vm_compute; reflexivity).
  split; [exact Hrun |].
  destruct (Agent.completed_cycle_rows Sample.digest Sample.dumps Sample.sign_bytes
              Sample.key_hex Sample.round_half_even Sample.sum_floats Sample.repr_any
              "master" products run_start (Some Sample.key_pair) Sample.key_pair
              controls empty_state st1 Hrun)
    as (ev & runs & Hev & Hruns & Hids & _ & _ & Hrefs & _ & Hcount).
  exists ev, runs. repeat split; assumption.
Defined.

Lemma persisted_rows_verify_witness :
  Forall sample_row_verifies (Agent.evidence (Agent.db empty_state)) /\
  Forall sample_row_verifies (Agent.evidence (Agent.db (loop two_cycles empty_state))).
Proof.
  assert (H : Forall sample_row_verifies (Agent.evidence (Agent.db empty_state)))
    by constructor.
  split; [exact H |].
  exact (Agent.persisted_rows_verify Sample.digest Sample.dumps Sample.sign_bytes
           Sample.key_hex Sample.round_half_even Sample.sum_floats Sample.repr_any
           Sample.public_of Sample.verify_bytes Sample.sign_bytes_verifies
           "master" products [x2a] two_cycles empty_state H).
Defined.

Lemma persisted_rows_have_proofs_witness :
  Forall (Agent.row_in_log (Agent.merkle_tree empty_state))
    (Agent.evidence (Agent.db empty_state)) /\
  forall row, In row (Agent.evidence (Agent.db (loop two_cycles empty_state))) ->
    exists i p,
      Agent.merkle_index row = Some i /\
      Merkle.get_proof Sample.digest (Agent.merkle_tree (loop two_cycles empty_state)) i
      = inr p /\
      Agent.merkle_leaf_hash row = Some (Merkle.leaf_hash p) /\
      Merkle.verify_proof Sample.digest (Merkle.leaf_hash p) (Merkle.proof_hashes p)
        (Merkle.root_hash p) = true.
Proof.
  assert (H : Forall (Agent.row_in_log (Agent.merkle_tree empty_state))
                (Agent.evidence (Agent.db empty_state))) by constructor.
  split; [exact H |]. intros row Hrow.
  destruct (Agent.persisted_rows_have_proofs Sample.digest Sample.dumps Sample.sign_bytes
              Sample.key_hex Sample.round_half_even Sample.sum_floats Sample.repr_any
              "master" products (Some Sample.key_pair) Sample.key_pair two_cycles
              empty_state H row Hrow) as (i & p & Hi & Hp & Hleaf & _ & Hverify).
  exists i, p. repeat split; assumption.
Defined.

Lemma open_ticket_is_reused_witness :
  let w1 := world_ok two_of_six "ev-1" in
  let between := [(la04, world_ok admins_ok "ev-2")] in
  let w2 := world_ticket_open two_of_six "ev-3" in
  let st1 := fst (control_step empty_state la01 w1) in
  let st2 := fst (cycle between st1) in
  let st3 := fst (control_step st2 la01 w2) in
  Agent.get_last_ticket (Agent.db st2) "LA.01" = Some "INC0000001"%string /\
  exists evidence_id,
    Agent.control_runs (Agent.db st3)
    = Agent.control_runs (Agent.db st2)
      ++ [Agent.run_row la01 w2 evidence_id
            (Some "INC0000001", Some "9d2b0228-4d0d-4c23-8b49-01a698857709")%string].
Proof.
  intros w1 between w2 st1 st2 st3.
  assert (H1 : control_step empty_state la01 w1 = (st1, None)) by (vm_compute; reflexivity).
  assert (H2 : cycle between st1 = (st2, None)) by (vm_compute; reflexivity).
  assert (H3 : control_step st2 la01 w2 = (st3, None)) by (vm_compute; reflexivity).
  assert (Hothers : Forall (fun cw => Checks.ctrl_id (fst cw) <> Checks.ctrl_id la01) between).
  { constructor; [discriminate | constructor]. }
  assert (Hn : "INC0000001"%string <> ""%string) by discriminate.
  assert (Hs : "9d2b0228-4d0d-4c23-8b49-01a698857709"%string <> ""%string) by discriminate.
  exact (Agent.open_ticket_is_reused Sample.digest Sample.dumps Sample.sign_bytes
           Sample.key_hex Sample.round_half_even Sample.sum_floats Sample.repr_any
           "master" products run_start run_start run_start (Some Sample.key_pair)
           Sample.key_pair la01 w1 between w2 empty_state st1 st2 st3
           "INC0000001" "9d2b0228-4d0d-4c23-8b49-01a698857709"
           eq_refl H1 eq_refl Hn Hs Hothers H2 eq_refl eq_refl H3).
Defined.

Lemma restart_rebuilds_log_witness :
  let controls := [(la01, world_ok two_of_six "ev-1"); (la04, world_ok admins_ok "ev-2")] in
  let st1 := fst (cycle controls empty_state) in
  Agent.consistent empty_state /\
  cycle controls empty_state = (st1, None) /\
  Agent.startup (Agent.db st1) = st1.
Proof.
  intros controls st1.
  assert (H0 : Agent.consistent empty_state) by (split; reflexivity).
  assert (Hrun : cycle controls empty_state = (st1, None)) by (vm_compute; reflexivity).
  split; [exact H0 |]. split; [exact Hrun |].
  exact (proj1 (proj2
           (Agent.restart_rebuilds_log Sample.digest Sample.dumps Sample.sign_bytes
              Sample.key_hex Sample.round_half_even Sample.sum_floats Sample.repr_any
              "master" products run_start (Some Sample.key_pair) Sample.key_pair
              controls empty_state st1 H0 Hrun))).
Defined.

Lemma stored_envelopes_provenance_witness :
  let w := world_ok two_of_six "ev-1" in
  let st1 := fst (control_step empty_state la01 w) in
  Agent.registered (Checks.ctrl_check la01) = true /\
  control_step empty_state la01 w = (st1, None) /\
  exists row claim new,
    last (Agent.evidence (Agent.db st1)) = Some row /\
    Claims.evidence_refs claim = [Agent.ev_id row] /\
    Agent.trust_envelopes (Agent.db st1) = [] ++ new /\
    map Envelope.product_id new = ["P1"%string].
Proof.
  intros w st1.
  assert (Hrun : control_step empty_state la01 w = (st1, None)) by (vm_compute; reflexivity).
  split; [reflexivity |]. split; [exact Hrun |].
  destruct (Agent.stored_envelopes_provenance Sample.digest Sample.dumps Sample.sign_bytes
              Sample.key_hex Sample.round_half_even Sample.sum_floats Sample.repr_any
              "master" products run_start (Some Sample.key_pair) Sample.key_pair
              empty_state la01 w st1 eq_refl Hrun)
    as (row & claim & new & Hrow & _ & Hrefs & Henv & Hpids & _).
  exists row, claim, new. repeat split; assumption.
Defined.

Lemma new_access_claim_witness :
  exists r claim,
    Checks.new_access_no_approval Sample.cutoff_seconds Sample.created_text
      (inr accounts) approval_defaults sample_now = inr r /\
    sample_claim_of r la01 = Ok claim /\
    Checks.status r = "fail"%string /\
    int_truediv 1 2 = Ok 0.5%float /\
    Claims.confidence claim = 0.5%float.
Proof.
  destruct (Checks.new_access_no_approval Sample.cutoff_seconds Sample.created_text
              (inr accounts) approval_defaults sample_now) as [e | r] eqn:Hr;
    [vm_compute in Hr; discriminate Hr |].
  destruct (Pipeline.new_access_claim Sample.cutoff_seconds Sample.created_text
              Sample.round_half_even Sample.repr_any Sample.dumps Sample.sign_bytes
              (inr accounts) approval_defaults sample_now r
              "1b4e28ba-2fa1-41d2-883f-0016d3cca427" "2024-01-08T01:00:00+00:00"
              "0f8fad5b-d9cb-469f-a165-70867728950e" la01 Sample.key_pair ["P1"]%string
              eq_refl Hr) as (claim & Hclaim & _ & Hcases).
  exists r, claim. split; [reflexivity |]. split; [exact Hclaim |].
  assert (Hs : Checks.status r = "fail"%string).
  { vm_compute in Hr. injection Hr as <-. reflexivity. }
  split; [exact Hs |].
  destruct Hcases
    as [(He & _)
       | [(Hp & _)
         | (_ & checked & missing & Hc & Hm & _ & (rate & Hrate & Hconf) & _)]].
  - rewrite Hs in He. discriminate He.
  - rewrite Hs in Hp. discriminate Hp.
  - vm_compute in Hr. injection Hr as <-.
    vm_compute in Hc, Hm. injection Hc as <-. injection Hm as <-.
    split; [vm_compute; reflexivity |].
    rewrite Hconf. vm_compute in Hrate. injection Hrate as <-.
    vm_compute. reflexivity.
Defined.

Lemma terminations_claim_witness :
  let r := fst (Checks.terminations_sla Sample.fromisoformat Sample.isoformat
                  (inr [unparseable_user; overdue_user]) default_params sample_now) in
  let unreachable :=
    fst (Checks.terminations_sla Sample.fromisoformat Sample.isoformat
           (inl "connection refused"%string) default_params sample_now) in
  Checks.ctrl_id la02 = "LA.02"%string /\
  (exists claim,
     sample_claim_of r la02 = Ok claim /\
     Checks.status r = "fail"%string /\
     length (Claims.caveats claim) = 1%nat) /\
  (exists claim,
     sample_claim_of unreachable la02 = Ok claim /\
     Checks.status unreachable = "error"%string /\
     Claims.result claim = Claims.INDETERMINATE).
Proof.
  intros r unreachable. split; [reflexivity |].
  pose proof (fun list_users =>
    Pipeline.terminations_claim Sample.fromisoformat Sample.isoformat
      Sample.round_half_even Sample.repr_any Sample.dumps Sample.sign_bytes
      list_users default_params sample_now
      "1b4e28ba-2fa1-41d2-883f-0016d3cca427" "2024-01-08T01:00:00+00:00"
      "0f8fad5b-d9cb-469f-a165-70867728950e" la02 Sample.key_pair ["P1"]%string
      eq_refl) as H.
  split.
  - destruct (H (inr [unparseable_user; overdue_user])) as (claim & Hclaim & _ & Husers).
    exists claim. split; [exact Hclaim |].
    destruct (Husers _ eq_refl) as (_ & _ & _ & _ & Hfail).
    destruct Hfail as (Hs & _ & Hcav & _); [vm_compute; reflexivity |].
    split; [exact Hs |].
    match type of Hcav with
    | _ = ?breached =>
        let count := eval vm_compute in breached in
        replace breached with count in Hcav by (vm_compute; reflexivity)
    end.
    lia.
  - destruct (H (inl "connection refused"%string)) as (claim & Hclaim & Herror & _).
    exists claim. split; [exact Hclaim |].
    destruct (Herror _ eq_refl) as (Hs & _ & Hres & _).
    split; [exact Hs | exact Hres].
Defined.

Lemma uar_claim_witness :
  let r := Checks.quarterly_uar Sample.fromisoformat Sample.dash (inr realm_without_uar)
             (Checks.mkUarParams None None) sample_now in
  let unreachable :=
    Checks.quarterly_uar Sample.fromisoformat Sample.dash (inl "connection refused"%string)
      (Checks.mkUarParams None None) sample_now in
  Checks.ctrl_id la03 = "LA.03"%string /\
  (exists claim,
     sample_claim_of r la03 = Ok claim /\
     Checks.status r = "fail"%string /\
     Claims.caveats claim
     = ["No UAR completion date found in the realm configuration."%string]) /\
  (exists claim,
     sample_claim_of unreachable la03 = Ok claim /\
     Checks.status unreachable = "error"%string /\
     Claims.result claim = Claims.INDETERMINATE).
Proof.
  intros r unreachable. split; [reflexivity |].
  pose proof (fun get_realm =>
    Pipeline.uar_claim Sample.fromisoformat Sample.dash
      Sample.round_half_even Sample.repr_any Sample.dumps Sample.sign_bytes
      get_realm (Checks.mkUarParams None None) sample_now
      "1b4e28ba-2fa1-41d2-883f-0016d3cca427" "2024-01-08T01:00:00+00:00"
      "0f8fad5b-d9cb-469f-a165-70867728950e" la03 Sample.key_pair ["P1"]%string
      eq_refl) as H.
  split.
  - destruct (H (inr realm_without_uar)) as (claim & Hclaim & _ & Hrealm).
    exists claim. split; [exact Hclaim |].
    destruct (Hrealm _ eq_refl) as (Hmissing & _).
    destruct (Hmissing (or_introl eq_refl)) as ((Hs & _) & _ & Hcav).
    split; [exact Hs | exact Hcav].
  - destruct (H (inl "connection refused"%string)) as (claim & Hclaim & Herror & _).
    exists claim. split; [exact Hclaim |].
    destruct (Herror _ eq_refl) as (Hs & _ & Hres & _).
    split; [exact Hs | exact Hres].
Defined.

Lemma admin_claim_witness :
  let r := Checks.admin_access_count four_admins (Checks.mkAdminParams None None) in
  Checks.ctrl_id la04 = "LA.04"%string /\
  exists claim,
    sample_claim_of r la04 = Ok claim /\
    Checks.status r = "fail"%string /\
    Claims.result claim = Claims.NOT_SATISFIED /\
    Claims.caveats claim
    = [cat [str_of_Z (4 - 3);
            " excess privileged account(s) require immediate review and removal."]].
Proof.
  intros r. split; [reflexivity |].
  destruct (Pipeline.admin_claim Sample.round_half_even Sample.repr_any Sample.dumps
              Sample.sign_bytes four_admins (Checks.mkAdminParams None None)
              "1b4e28ba-2fa1-41d2-883f-0016d3cca427" "2024-01-08T01:00:00+00:00"
              "0f8fad5b-d9cb-469f-a165-70867728950e" la04 Sample.key_pair ["P1"]%string
              eq_refl) as (claim & Hclaim & _ & Hadmins).
  exists claim. split; [exact Hclaim |].
  destruct (Hadmins _ eq_refl) as (_ & _ & _ & Hfail).
  destruct Hfail as (Hs & _ & _ & Hres & _ & Hcav); [cbn; lia |].
  split; [exact Hs |]. split; [exact Hres | exact Hcav].
Defined.

(** With the ticketing service down, a first failure of LA.01 is recorded
    without a ticket; a failure after a ticket was recorded abandons the
    cycle before the run row is written. *)
Lemma ticketing_failures_witness :
  let w := world_ticketing_down two_of_six "ev-9" in
  let st1 := fst (control_step empty_state la01 (world_ok two_of_six "ev-1")) in
  (snd (control_step empty_state la01 w) = None /\
   Agent.control_runs (Agent.db (fst (control_step empty_state la01 w)))
   = [] ++ [Agent.run_row la01 w "ev-9" (None, None)]) /\
  Agent.get_last_ticket (Agent.db st1) "LA.01" = Some "INC0000001"%string /\
  snd (control_step st1 la01 w) = Some HTTPError /\
  Agent.control_runs (Agent.db (fst (control_step st1 la01 w)))
  = Agent.control_runs (Agent.db st1) /\
  length (Agent.evidence (Agent.db (fst (control_step st1 la01 w)))) = 2%nat.
Proof.
  intros w st1.
  destruct (Agent.signer_sign Sample.dumps Sample.sign_bytes (Some Sample.key_pair)
              (Agent.evidence_payload "master" la01 w)) as [sig | e] eqn:Hsig;
    [| vm_compute in Hsig; discriminate Hsig].
  destruct (Claims.build_claim Sample.round_half_even Sample.repr_any Sample.dumps
              Sample.sign_bytes (Agent.w_claim_uuid4 w) (Agent.w_claim_now w)
              (Agent.check_result w) "ev-9" la01 Sample.key_pair
              (Agent.product_ids_of products (Checks.ctrl_id la01)))
    as [claim | e] eqn:Hclaim; [| vm_compute in Hclaim; discriminate Hclaim].
  pose proof (fun st =>
    Agent.ticketing_failures Sample.digest Sample.dumps Sample.sign_bytes
      Sample.key_hex Sample.round_half_even Sample.sum_floats Sample.repr_any
      "master" products run_start (Some Sample.key_pair) Sample.key_pair
      st la01 w sig "ev-9" claim eq_refl Hsig eq_refl Hclaim eq_refl) as H.
  split.
  - exact (proj1 (H empty_state) eq_refl eq_refl eq_refl).
  - assert (Hlast : Agent.get_last_ticket (Agent.db st1) "LA.01" = Some "INC0000001"%string)
      by (vm_compute; reflexivity).
    split; [exact Hlast |].
    assert (Hsys : Agent.last_sys_id (Agent.db st1) "LA.01"
                   = Some "9d2b0228-4d0d-4c23-8b49-01a698857709"%string)
      by (vm_compute; reflexivity).
    assert (Hn : "INC0000001"%string <> ""%string) by discriminate.
    assert (Hs : "9d2b0228-4d0d-4c23-8b49-01a698857709"%string <> ""%string) by discriminate.
    destruct (proj2 (H st1) _ _ HTTPError Hlast Hn Hsys Hs eq_refl)
      as (Hexn & Hruns & Hev & _).
    split; [exact Hexn |]. split; [exact Hruns |].
    unfold control_step. rewrite Hev. rewrite length_app. reflexivity.
Defined.

End Scenarios.
